(** * tubeqa: time-window synchronisation, caching and UI reconciliation

    A shallow embedding of the orchestration code of the tubeqa browser
    extension (a YouTube question/answer assistant) and the properties its
    design document states about it.

    The code:
    - [JsString]: JavaScript strings as sequences of UTF-16 code units, with
      the [String.prototype] operations the code calls.
    - [JsRegex]: the small fragment of regular expressions the code uses,
      with backtracking [test] and [replace].
    - [Eff]: state, exceptions and the trace of calls that leave the
      modelled objects.
    - [PromptClient]: [parseQuestions], [cleanQuestionString],
      [generateQuestions], [generateAnswer] (src/ai/promptClient.js).
    - [SummarizerClient]: the single-slot summary cache
      (src/ai/promptClient.js, second class).
    - [UIOverlay]: the overlay state machine (src/unnamed/part_000).
    - [YouTubeAIAssistant]: the content script
      (src/content/markdownParser.js, second class).
    - [OverlayControls]: visibility, the AI toggle, the stored toggle
      state and typed questions of the overlay (src/unnamed/part_000).
    - [AssistantLifecycle]: starting, stopping, navigation and the toggle
      callback of the content script.
    - [TranslatorClient]: the translator cache (src/unnamed/part_001).
    - [MarkdownParser]: bold, italic and lists
      (src/content/markdownParser.js, first class).

    Then the vocabulary of the properties (sample data, the design
    document's algorithms written out, invariants), and the properties.

    JavaScript numbers that hold playback seconds are modelled as exact
    rationals ([Q]); rounding of IEEE doubles is outside the model.  The
    DOM is modelled by what its elements show.  An awaited call runs to
    completion where it is made: interleavings of overlapping asynchronous
    calls are outside the model. *)

From Stdlib Require Import List Bool NArith ZArith QArith Qround Lia Lqa.
From Stdlib Require String Ascii.
Import ListNotations.
Import String.StringSyntax Ascii.AsciiSyntax.

Set Implicit Arguments.

(* ===================================================================== *)
(** * JavaScript strings *)
(* ===================================================================== *)

Module JsString.

(** A JavaScript string is a finite sequence of UTF-16 code units. *)
Definition jsstring := list N.

(** Literal helper: the code units of an ASCII literal. *)
Definition js (s : String.string) : jsstring :=
  List.map Ascii.N_of_ascii (String.list_ascii_of_string s).
Arguments js s%_string_scope.

Definition chNewline : N := 10.
Definition chQuote : N := 34.       (* the double quote character *)
Definition chApostrophe : N := 39.  (* the single quote character *)
Definition chComma : N := 44.
Definition chDot : N := 46.
Definition chQuestion : N := 63.
Definition chBackslash : N := 92.

(** ECMAScript WhiteSpace and LineTerminator code points: the characters
    removed by [trim] and matched by the regular expression class [\s]. *)
Definition isWhiteSpace (c : N) : bool :=
  ((9 <=? c) && (c <=? 13)
   || (c =? 32) || (c =? 160) || (c =? 5760)
   || ((8192 <=? c) && (c <=? 8202))
   || (c =? 8232) || (c =? 8233) || (c =? 8239) || (c =? 8287)
   || (c =? 12288) || (c =? 65279))%N.

Definition isDigit (c : N) : bool := ((48 <=? c) && (c <=? 57))%N.

Fixpoint trimStart (s : jsstring) : jsstring :=
  match s with
  | [] => []
  | c :: s' => if isWhiteSpace c then trimStart s' else s
  end.

Definition trimEnd (s : jsstring) : jsstring := rev (trimStart (rev s)).

(** [String.prototype.trim] *)
Definition trim (s : jsstring) : jsstring := trimEnd (trimStart s).

(** [s.split(sep)] for a one-character separator: always at least one
    piece, the pieces between consecutive separators. *)
Fixpoint split (sep : N) (s : jsstring) : list jsstring :=
  match s with
  | [] => [[]]
  | c :: s' =>
      if (c =? sep)%N then [] :: split sep s'
      else match split sep s' with
           | l :: ls => (c :: l) :: ls
           | [] => [[c]]
           end
  end.

(** [s.includes(c)] for a one-character needle. *)
Definition includes (c : N) (s : jsstring) : bool :=
  existsb (N.eqb c) s.

(** JavaScript truthiness of a string: non-empty. *)
Definition truthy (s : jsstring) : bool :=
  match s with [] => false | _ => true end.

(** [!text || text.trim().length === 0] *)
Definition isBlank (s : jsstring) : bool :=
  negb (truthy s) || (length (trim s) =? 0)%nat.

End JsString.
Import JsString.

(* ===================================================================== *)
(** * The regular-expression fragment used by the code *)
(* ===================================================================== *)

Module JsRegex.

Inductive charclass :=
| Digit                    (* \d *)
| Space                    (* \s *)
| OneOf (cs : list N).     (* a literal character or a [...] set *)

Definition accepts (k : charclass) (c : N) : bool :=
  match k with
  | Digit => isDigit c
  | Space => isWhiteSpace c
  | OneOf cs => existsb (N.eqb c) cs
  end.

Inductive quant := Once | Optional | ZeroOrMore | OneOrMore.

Inductive atom :=
| Atom (k : charclass) (q : quant)
| EndOfInput.              (* $ without the m flag *)

(** A pattern: an optional leading [^] and a sequence of atoms. *)
Record regex := { anchored : bool; atoms : list atom }.

(** Greedy repetition with backtracking into the continuation. *)
Fixpoint star (k : charclass) (cont : jsstring -> option jsstring)
         (s : jsstring) : option jsstring :=
  match s with
  | c :: s' =>
      if accepts k c then
        match star k cont s' with
        | Some rest => Some rest
        | None => cont s
        end
      else cont s
  | [] => cont []
  end.

(** [matchHere r s]: match the atoms at the start of [s]; the result is
    the input left after the match. *)
Fixpoint matchHere (r : list atom) (s : jsstring) : option jsstring :=
  match r with
  | [] => Some s
  | EndOfInput :: r' =>
      match s with [] => matchHere r' [] | _ :: _ => None end
  | Atom k Once :: r' =>
      match s with
      | c :: s' => if accepts k c then matchHere r' s' else None
      | [] => None
      end
  | Atom k Optional :: r' =>
      match s with
      | c :: s' =>
          if accepts k c then
            match matchHere r' s' with
            | Some rest => Some rest
            | None => matchHere r' s
            end
          else matchHere r' s
      | [] => matchHere r' []
      end
  | Atom k ZeroOrMore :: r' => star k (matchHere r') s
  | Atom k OneOrMore :: r' =>
      match s with
      | c :: s' => if accepts k c then star k (matchHere r') s' else None
      | [] => None
      end
  end.

(** Leftmost match: the text before the match and the text after it. *)
Fixpoint searchFrom (r : list atom) (s : jsstring)
  : option (jsstring * jsstring) :=
  match matchHere r s with
  | Some rest => Some ([], rest)
  | None =>
      match s with
      | [] => None
      | c :: s' =>
          match searchFrom r s' with
          | Some (before, rest) => Some (c :: before, rest)
          | None => None
          end
      end
  end.

Definition exec (re : regex) (s : jsstring) : option (jsstring * jsstring) :=
  if anchored re then
    match matchHere (atoms re) s with
    | Some rest => Some ([], rest)
    | None => None
    end
  else searchFrom (atoms re) s.

(** [re.test(s)] *)
Definition test (re : regex) (s : jsstring) : bool :=
  match exec re s with Some _ => true | None => false end.

(** [s.replace(re, repl)] without the g flag: the first match only. *)
Definition replace (re : regex) (repl : jsstring) (s : jsstring) : jsstring :=
  match exec re s with
  | Some (before, rest) => before ++ repl ++ rest
  | None => s
  end.

(** [s.replace(re, repl)] with the g flag, for a pattern that never
    matches the empty string.  [fuel] bounds the number of positions
    visited; [S (length s)] always suffices. *)
Fixpoint replaceAllFrom (fuel : nat) (r : list atom) (repl : jsstring)
         (s : jsstring) : jsstring :=
  match fuel with
  | O => s
  | S fuel' =>
      match s with
      | [] => []
      | c :: s' =>
          match matchHere r s with
          | Some rest =>
              if (length rest <? length s)%nat
              then repl ++ replaceAllFrom fuel' r repl rest
              else c :: replaceAllFrom fuel' r repl s'
          | None => c :: replaceAllFrom fuel' r repl s'
          end
      end
  end.

Definition replaceAll (re : regex) (repl : jsstring) (s : jsstring) : jsstring :=
  replaceAllFrom (S (length s)) (atoms re) repl s.

End JsRegex.
Import JsRegex.

(* ===================================================================== *)
(** * Shared data, collaborator calls and the effect monad *)
(* ===================================================================== *)

Inductive Role := user | assistant.

(** One conversation turn, [{role, content}]. *)
Record Turn := { role : Role; content : jsstring }.

(** Messages written with [console.log] that the properties observe. *)
Inductive LogMsg :=
| LogVideoReached (currentTime : Z)        (* Video reached ${currentTime}s - generating questions *)
| LogUsingCachedSummary (windowStart windowEnd : Q)
| LogGeneratingNewSummary (windowStart windowEnd : Q).

(** Calls that leave the modelled objects: the external collaborators
    (transcript source, summarizer, language-model session), the handlers
    registered on the overlay, and the console. *)
Inductive Call :=
| CallGetTranscriptChunk (startSeconds endSeconds : Q)
| CallSummarize (text : jsstring)
| CallSessionAppend
| CallSessionPrompt (transcriptText videoSummary : jsstring) (withFrame : bool)
| CallSessionPromptStreaming (question videoSummary : jsstring)
                             (withFrame : bool)
| CallOnQuestionClick (question : jsstring) (index : Z)
                      (startTime endTime : option Q)
| CallOnFollowUpQuestion (message : jsstring) (startTime endTime : option Q)
| ConsoleLog (m : LogMsg).

(** The result of a call that may throw (or of a promise that may
    reject).  The thrown value is only ever logged, so it is not kept. *)
Inductive Res (A : Type) := Ok (a : A) | Throw.
Arguments Ok {A} a.
Arguments Throw {A}.

(** [Eff S A]: a computation over the mutable state [S] that returns an
    [A] or throws, and records the calls it makes, in order.  Mutations
    made before a throw persist, as in JavaScript. *)
Definition Eff (S A : Type) : Type := S -> Res A * S * list Call.

Definition ret {S A} (a : A) : Eff S A := fun s => (Ok a, s, []).

Definition bind {S A B} (m : Eff S A) (k : A -> Eff S B) : Eff S B :=
  fun s =>
    match m s with
    | (Ok a, s', t) =>
        match k a s' with (r, s'', t') => (r, s'', t ++ t') end
    | (Throw, s', t) => (Throw, s', t)
    end.

Definition throw {S A} : Eff S A := fun s => (Throw, s, []).

(** [try { m } catch (e) { h }] *)
Definition tryCatch {S A} (m : Eff S A) (h : Eff S A) : Eff S A :=
  fun s =>
    match m s with
    | (Ok a, s', t) => (Ok a, s', t)
    | (Throw, s', t) =>
        match h s' with (r, s'', t') => (r, s'', t ++ t') end
    end.

Definition get {S} : Eff S S := fun s => (Ok s, s, []).
Definition put {S} (s : S) : Eff S unit := fun _ => (Ok tt, s, []).
Definition modify {S} (f : S -> S) : Eff S unit := fun s => (Ok tt, f s, []).
Definition emit {S} (c : Call) : Eff S unit := fun s => (Ok tt, s, [c]).

(** The value of a collaborator call: record the call, then return or throw. *)
Definition call {S A} (c : Call) (r : Res A) : Eff S A :=
  fun s => (r, s, [c]).

(** Dereference of a field that may be [null]: a [TypeError] if it is. *)
Definition deref {S A} (o : option A) : Eff S A :=
  match o with Some a => ret a | None => throw end.

(** Run a method of a component object held in a field of [S]. *)
Definition zoom {S T A} (getT : S -> T) (setT : T -> S -> S)
           (m : Eff T A) : Eff S A :=
  fun s => match m (getT s) with (r, t', tr) => (r, setT t' s, tr) end.

Declare Scope eff_scope.
Delimit Scope eff_scope with eff.
Notation "x <- m ;; k" := (bind m (fun x => k))
  (at level 61, m at next level, right associativity) : eff_scope.
Notation "m ;; k" := (bind m (fun _ => k))
  (at level 61, right associativity) : eff_scope.
Open Scope eff_scope.

Definition resultOf {S A} (x : Res A * S * list Call) : Res A := fst (fst x).
Definition stateOf {S A} (x : Res A * S * list Call) : S := snd (fst x).
Definition callsOf {S A} (x : Res A * S * list Call) : list Call := snd x.

(** [for (const x of xs) body(x)] *)
Fixpoint forEach {S A} (xs : list A) (body : A -> Eff S unit) : Eff S unit :=
  match xs with
  | [] => ret tt
  | x :: xs' => body x ;; forEach xs' body
  end.

(* ===================================================================== *)
(** * PromptClient (src/ai/promptClient.js) *)
(* ===================================================================== *)

Module PromptClient.

(** The values [JSON.parse] can produce. *)
#[local] Unset Elimination Schemes.
Inductive JSON :=
| JNull
| JBool (b : bool)
| JNumber (q : Q)
| JString (s : jsstring)
| JArray (items : list JSON)
| JObject (fields : list (jsstring * JSON)).
#[local] Set Elimination Schemes.

(** What [session.promptStreaming] gives back: the promise rejects, or it
    yields [chunks] in order and then ends normally ([completes]) or by
    throwing. *)
Inductive StreamResult :=
| StreamRejected
| Stream (chunks : list jsstring) (completes : bool).

(** The language-model session, an external collaborator.  The prompt
    text is a fixed template around the interpolated values and the
    sentences that depend on whether a video frame was given, so a
    prompt is represented by those values and that flag. *)
Record Session := {
  prompt : jsstring -> jsstring -> bool -> Res jsstring;
    (* transcriptText, videoSummary, a frame was given *)
  promptStreaming : jsstring -> jsstring -> bool -> StreamResult;
    (* question, videoSummary, a frame was given *)
  append : Res unit
}.

Record t := {
  session : option Session;
  initialized : bool
}.

Definition sorryAnswer : jsstring :=
  js "Sorry, I encountered an error generating the answer.".

(* /^\d+\./ *)
Definition reNumbered : regex :=
  {| anchored := true;
     atoms := [Atom Digit OneOrMore; Atom (OneOf [chDot]) Once] |}.

(* /^\d+\.\s*/ *)
Definition reNumberingPrefix : regex :=
  {| anchored := true;
     atoms := [Atom Digit OneOrMore; Atom (OneOf [chDot]) Once;
               Atom Space ZeroOrMore] |}.

(* the pattern ^[Q'] , writing Q for the double quote character *)
Definition reLeadingQuote : regex :=
  {| anchored := true;
     atoms := [Atom (OneOf [chQuote; chApostrophe]) Once] |}.

(* the pattern [Q'],?$ *)
Definition reTrailingQuote : regex :=
  {| anchored := false;
     atoms := [Atom (OneOf [chQuote; chApostrophe]) Once;
               Atom (OneOf [chComma]) Optional; EndOfInput] |}.

(* the pattern \\Q with the g flag: a backslash, then a double quote *)
Definition reEscapedQuote : regex :=
  {| anchored := false;
     atoms := [Atom (OneOf [chBackslash]) Once; Atom (OneOf [chQuote]) Once] |}.

(* the pattern \\' with the g flag: a backslash, then an apostrophe *)
Definition reEscapedApostrophe : regex :=
  {| anchored := false;
     atoms := [Atom (OneOf [chBackslash]) Once;
               Atom (OneOf [chApostrophe]) Once] |}.

(** [cleanQuestionString(question)] *)
Definition cleanQuestionString (question : jsstring) : jsstring :=
  trim
    (replaceAll reEscapedApostrophe [chApostrophe]
       (replaceAll reEscapedQuote [chQuote]
          (replace reTrailingQuote []
             (replace reLeadingQuote []
                (trim question))))).

(** [parsed.questions]: a [TypeError] on [null], the property of an
    object, [undefined] on every other value. *)
Definition questionsProperty (parsed : JSON) : Res (option JSON) :=
  match parsed with
  | JNull => Throw
  | JObject fields =>
      Ok (match find (fun kv => if list_eq_dec N.eq_dec (fst kv) (js "questions")
                                then true else false) fields with
          | Some kv => Some (snd kv)
          | None => None
          end)
  | _ => Ok None
  end.

(** [items.map(q => this.cleanQuestionString(q))]: [q.trim] exists only
    on strings, a [TypeError] on any other element. *)
Fixpoint cleanAll (items : list JSON) : Res (list jsstring) :=
  match items with
  | [] => Ok []
  | JString q :: rest =>
      match cleanAll rest with
      | Ok qs => Ok (cleanQuestionString q :: qs)
      | Throw => Throw
      end
  | _ :: _ => Throw
  end.

Section Parse.

(** The built-in [JSON.parse]; [None] when it throws a [SyntaxError]. *)
Variable JSON_parse : jsstring -> option JSON.

(** [parseQuestions(response)] *)
Definition parseQuestions (response : jsstring) : list jsstring :=
  let structured : option (list jsstring) :=
    (* the try block: [Some] when it returns, [None] when it falls
       through or its exception is caught *)
    match JSON_parse response with
    | None => None
    | Some parsed =>
        match questionsProperty parsed with
        | Ok (Some (JArray items)) =>
            match cleanAll items with
            | Ok qs => Some qs
            | Throw => None
            end
        | _ => None
        end
    end in
  match structured with
  | Some qs => qs
  | None =>
      (* Fallback: extract questions from text *)
      let lines :=
        filter (fun line => (0 <? length (trim line))%nat)
               (split chNewline response) in
      let questions :=
        filter (fun q => (0 <? length q)%nat)
          (map (fun line =>
                  cleanQuestionString (trim (replace reNumberingPrefix [] line)))
             (filter (fun line => includes chQuestion line || test reNumbered line)
                lines)) in
      firstn 3 questions
  end.

(** [generateQuestions(transcriptText, videoSummary, videoFrame)] *)
Definition generateQuestions {S F} (pc : t) (transcriptText videoSummary : jsstring)
           (videoFrame : option F) : Eff S (list jsstring) :=
  match (if initialized pc then session pc else None) with
  | None => ret []
  | Some sess =>
      tryCatch
        (match videoFrame with
         | Some _ => call CallSessionAppend (append sess)
         | None => ret tt
         end ;;
         let withFrame := match videoFrame with Some _ => true | None => false end in
         response <- call (CallSessionPrompt transcriptText videoSummary withFrame)
                          (prompt sess transcriptText videoSummary withFrame) ;;
         ret (parseQuestions response))
        (ret [])
  end.

End Parse.

(** The [for await (const chunk of stream)] loop of [generateAnswer]:
    [fullAnswer = chunk; if (onChunk) onChunk(chunk)]. *)
Fixpoint consume {S} (chunks : list jsstring)
         (onChunk : option (jsstring -> Eff S unit))
         (fullAnswer : jsstring) : Eff S jsstring :=
  match chunks with
  | [] => ret fullAnswer
  | chunk :: rest =>
      match onChunk with
      | Some f => f chunk
      | None => ret tt
      end ;;
      consume rest onChunk chunk
  end.

(** The streaming part of [generateAnswer]: [promptStreaming], the loop
    over the chunks, and the return of [fullAnswer]. *)
Definition streamAnswer {S} (sess : Session) (question videoSummary : jsstring)
           (withFrame : bool)
           (onChunk : option (jsstring -> Eff S unit)) : Eff S jsstring :=
  stream <- call (CallSessionPromptStreaming question videoSummary withFrame)
                 (match promptStreaming sess question videoSummary withFrame with
                  | StreamRejected => Throw
                  | Stream chunks completes => Ok (chunks, completes)
                  end) ;;
  fullAnswer <- consume (fst stream) onChunk [] ;;
  if (snd stream : bool) then ret fullAnswer else throw.

(** [generateAnswer(question, videoSummary, videoFrame, onChunk)]
    (src/ai/promptClient.js). *)
Definition generateAnswer {S F} (pc : t) (question videoSummary : jsstring)
           (videoFrame : option F)
           (onChunk : option (jsstring -> Eff S unit)) : Eff S jsstring :=
  match (if initialized pc then session pc else None) with
  | None => ret []
  | Some sess =>
      tryCatch
        (match videoFrame with
         | Some _ => call CallSessionAppend (append sess)
         | None => ret tt
         end ;;
         streamAnswer sess question videoSummary
           (match videoFrame with Some _ => true | None => false end) onChunk)
        (ret sorryAnswer)
  end.

(** [generateAnswer(question, videoSummary, onChunk)], the text-only
    revision of the same method (src/unnamed/part_001). *)
Definition generateAnswerText {S} (pc : t) (question videoSummary : jsstring)
           (onChunk : option (jsstring -> Eff S unit)) : Eff S jsstring :=
  match (if initialized pc then session pc else None) with
  | None => ret []
  | Some sess =>
      tryCatch (streamAnswer sess question videoSummary false onChunk)
               (ret sorryAnswer)
  end.

End PromptClient.

(* ===================================================================== *)
(** * SummarizerClient (src/ai/promptClient.js, second class) *)
(* ===================================================================== *)

Module SummarizerClient.

Record TimeRange := { rangeStart : Q; rangeEnd : Q }.

Record t := {
  summarizer : option (jsstring -> Res jsstring);
    (* the Summarizer instance: its [summarize] method, or [null] *)
  initialized : bool;
  currentSummary : option jsstring;            (* [null] or a string *)
  currentSummaryTimeRange : TimeRange
}.

(** The state the constructor builds. *)
Definition new : t :=
  {| summarizer := None; initialized := false; currentSummary := None;
     currentSummaryTimeRange := {| rangeStart := -1; rangeEnd := -1 |} |}.

Definition setCache (summary : option jsstring) (r : TimeRange) (sc : t) : t :=
  {| summarizer := summarizer sc; initialized := initialized sc;
     currentSummary := summary; currentSummaryTimeRange := r |}.

(** JavaScript truthiness of [this.currentSummary]. *)
Definition summaryTruthy (s : option jsstring) : bool :=
  match s with Some text => truthy text | None => false end.

(** [getSummaryForTime(transcriptText, windowStart, windowEnd)] *)
Definition getSummaryForTime (transcriptText : jsstring)
           (windowStart windowEnd : Q) : Eff t jsstring :=
  sc <- get ;;
  match (if initialized sc then summarizer sc else None) with
  | None => ret []
  | Some summarize =>
      (* Check if current summary covers this time range *)
      let halfWindow := (windowEnd - windowStart) / 2 in
      if summaryTruthy (currentSummary sc)
         && Qle_bool halfWindow (rangeEnd (currentSummaryTimeRange sc))
      then
        emit (ConsoleLog (LogUsingCachedSummary windowStart windowEnd)) ;;
        ret (match currentSummary sc with Some text => text | None => [] end)
      else
        emit (ConsoleLog (LogGeneratingNewSummary windowStart windowEnd)) ;;
        tryCatch
          (if isBlank transcriptText then ret []
           else
             summary <- call (CallSummarize transcriptText)
                             (summarize transcriptText) ;;
             modify (setCache (Some summary)
                       {| rangeStart := windowStart; rangeEnd := windowEnd |}) ;;
             ret summary)
          (ret [])
  end.

(** [clearCache()] *)
Definition clearCache : Eff t unit :=
  modify (setCache None {| rangeStart := -1; rangeEnd := -1 |}).

(** [isTimeInCurrentWindow(time)] *)
Definition isTimeInCurrentWindow (sc : t) (time : Q) : bool :=
  match currentSummary sc with
  | Some _ =>
      Qle_bool (rangeStart (currentSummaryTimeRange sc)) time
      && Qle_bool time (rangeEnd (currentSummaryTimeRange sc))
  | None => false
  end.

End SummarizerClient.

(* ===================================================================== *)
(** * UIOverlay (src/unnamed/part_000) *)
(* ===================================================================== *)

Module UIOverlay.

(** A question with the time range it was generated for. *)
Record Question := { text : jsstring; startTime : Q; endTime : Q }.

(** An entry of [questionHistory]. *)
Record QuestionGroup := { questions : list Question; timestamp : Q }.

(** The object [{questions, timestamp}] kept in [pendingQuestions]; its
    [questions] is whatever the caller passed, possibly [null]. *)
Record Pending := {
  pendingList : option (list Question);
  pendingTimestamp : Q
}.

(** [conversationContext]; a component is [None] when [showChatbox] was
    called without that argument ([undefined]). *)
Record Context := { ctxStartTime : option Q; ctxEndTime : option Q }.

(** What the answer block of the chatbox shows. *)
Inductive AnswerBlock :=
| Loading                         (* the three loading dots *)
| AnswerText (shown : jsstring).  (* textContent *)

(** The chatbox elements: the question block and [chatboxContent]. *)
Record Chatbox := { questionBlock : jsstring; answerBlock : AnswerBlock }.

(** What the element [#yt-ai-questions-list] shows. *)
Inductive ListView :=
| ListEmpty                                 (* innerHTML = '' *)
| Analyzing                                 (* the text: Analyzing video... *)
| Questions (nav : option (bool * bool))    (* back / forward disabled *)
            (shown : list Question)
| ErrorMessage (message : jsstring).

Record t := {
  aiEnabled : bool;
  isHovering : bool;
  pendingQuestions : option Pending;
  chatbox : option Chatbox;          (* this.chatbox and this.chatboxContent *)
  isChatboxVisible : bool;
  isStreaming : bool;
  questionHistory : list QuestionGroup;
  currentQuestionGroupIndex : Z;
  conversationHistory : list Turn;
  conversationContext : option Context;
  onQuestionClick : bool;            (* a handler is registered *)
  onFollowUpQuestion : bool;         (* a handler is registered *)
  questionsList : option ListView    (* [None]: the element is not in the DOM *)
}.

(** The state the constructor builds, with the overlay created. *)
Definition new : t :=
  {| aiEnabled := true; isHovering := false; pendingQuestions := None;
     chatbox := None; isChatboxVisible := false; isStreaming := false;
     questionHistory := []; currentQuestionGroupIndex := -1;
     conversationHistory := []; conversationContext := None;
     onQuestionClick := false; onFollowUpQuestion := false;
     questionsList := Some ListEmpty |}.

(** ** Field assignments *)

Definition setIsHovering (b : bool) (ui : t) : t :=
  {| aiEnabled := aiEnabled ui; isHovering := b;
     pendingQuestions := pendingQuestions ui; chatbox := chatbox ui;
     isChatboxVisible := isChatboxVisible ui; isStreaming := isStreaming ui;
     questionHistory := questionHistory ui;
     currentQuestionGroupIndex := currentQuestionGroupIndex ui;
     conversationHistory := conversationHistory ui;
     conversationContext := conversationContext ui;
     onQuestionClick := onQuestionClick ui;
     onFollowUpQuestion := onFollowUpQuestion ui;
     questionsList := questionsList ui |}.

Definition setPendingQuestions (p : option Pending) (ui : t) : t :=
  {| aiEnabled := aiEnabled ui; isHovering := isHovering ui;
     pendingQuestions := p; chatbox := chatbox ui;
     isChatboxVisible := isChatboxVisible ui; isStreaming := isStreaming ui;
     questionHistory := questionHistory ui;
     currentQuestionGroupIndex := currentQuestionGroupIndex ui;
     conversationHistory := conversationHistory ui;
     conversationContext := conversationContext ui;
     onQuestionClick := onQuestionClick ui;
     onFollowUpQuestion := onFollowUpQuestion ui;
     questionsList := questionsList ui |}.

Definition setChatbox (c : option Chatbox) (ui : t) : t :=
  {| aiEnabled := aiEnabled ui; isHovering := isHovering ui;
     pendingQuestions := pendingQuestions ui; chatbox := c;
     isChatboxVisible := isChatboxVisible ui; isStreaming := isStreaming ui;
     questionHistory := questionHistory ui;
     currentQuestionGroupIndex := currentQuestionGroupIndex ui;
     conversationHistory := conversationHistory ui;
     conversationContext := conversationContext ui;
     onQuestionClick := onQuestionClick ui;
     onFollowUpQuestion := onFollowUpQuestion ui;
     questionsList := questionsList ui |}.

Definition setIsChatboxVisible (b : bool) (ui : t) : t :=
  {| aiEnabled := aiEnabled ui; isHovering := isHovering ui;
     pendingQuestions := pendingQuestions ui; chatbox := chatbox ui;
     isChatboxVisible := b; isStreaming := isStreaming ui;
     questionHistory := questionHistory ui;
     currentQuestionGroupIndex := currentQuestionGroupIndex ui;
     conversationHistory := conversationHistory ui;
     conversationContext := conversationContext ui;
     onQuestionClick := onQuestionClick ui;
     onFollowUpQuestion := onFollowUpQuestion ui;
     questionsList := questionsList ui |}.

Definition setIsStreaming (b : bool) (ui : t) : t :=
  {| aiEnabled := aiEnabled ui; isHovering := isHovering ui;
     pendingQuestions := pendingQuestions ui; chatbox := chatbox ui;
     isChatboxVisible := isChatboxVisible ui; isStreaming := b;
     questionHistory := questionHistory ui;
     currentQuestionGroupIndex := currentQuestionGroupIndex ui;
     conversationHistory := conversationHistory ui;
     conversationContext := conversationContext ui;
     onQuestionClick := onQuestionClick ui;
     onFollowUpQuestion := onFollowUpQuestion ui;
     questionsList := questionsList ui |}.

Definition setQuestionHistory (h : list QuestionGroup) (ui : t) : t :=
  {| aiEnabled := aiEnabled ui; isHovering := isHovering ui;
     pendingQuestions := pendingQuestions ui; chatbox := chatbox ui;
     isChatboxVisible := isChatboxVisible ui; isStreaming := isStreaming ui;
     questionHistory := h;
     currentQuestionGroupIndex := currentQuestionGroupIndex ui;
     conversationHistory := conversationHistory ui;
     conversationContext := conversationContext ui;
     onQuestionClick := onQuestionClick ui;
     onFollowUpQuestion := onFollowUpQuestion ui;
     questionsList := questionsList ui |}.

Definition setCurrentQuestionGroupIndex (i : Z) (ui : t) : t :=
  {| aiEnabled := aiEnabled ui; isHovering := isHovering ui;
     pendingQuestions := pendingQuestions ui; chatbox := chatbox ui;
     isChatboxVisible := isChatboxVisible ui; isStreaming := isStreaming ui;
     questionHistory := questionHistory ui;
     currentQuestionGroupIndex := i;
     conversationHistory := conversationHistory ui;
     conversationContext := conversationContext ui;
     onQuestionClick := onQuestionClick ui;
     onFollowUpQuestion := onFollowUpQuestion ui;
     questionsList := questionsList ui |}.

Definition setConversationHistory (h : list Turn) (ui : t) : t :=
  {| aiEnabled := aiEnabled ui; isHovering := isHovering ui;
     pendingQuestions := pendingQuestions ui; chatbox := chatbox ui;
     isChatboxVisible := isChatboxVisible ui; isStreaming := isStreaming ui;
     questionHistory := questionHistory ui;
     currentQuestionGroupIndex := currentQuestionGroupIndex ui;
     conversationHistory := h;
     conversationContext := conversationContext ui;
     onQuestionClick := onQuestionClick ui;
     onFollowUpQuestion := onFollowUpQuestion ui;
     questionsList := questionsList ui |}.

Definition setConversationContext (c : option Context) (ui : t) : t :=
  {| aiEnabled := aiEnabled ui; isHovering := isHovering ui;
     pendingQuestions := pendingQuestions ui; chatbox := chatbox ui;
     isChatboxVisible := isChatboxVisible ui; isStreaming := isStreaming ui;
     questionHistory := questionHistory ui;
     currentQuestionGroupIndex := currentQuestionGroupIndex ui;
     conversationHistory := conversationHistory ui;
     conversationContext := c;
     onQuestionClick := onQuestionClick ui;
     onFollowUpQuestion := onFollowUpQuestion ui;
     questionsList := questionsList ui |}.

Definition setOnFollowUpQuestion (b : bool) (ui : t) : t :=
  {| aiEnabled := aiEnabled ui; isHovering := isHovering ui;
     pendingQuestions := pendingQuestions ui; chatbox := chatbox ui;
     isChatboxVisible := isChatboxVisible ui; isStreaming := isStreaming ui;
     questionHistory := questionHistory ui;
     currentQuestionGroupIndex := currentQuestionGroupIndex ui;
     conversationHistory := conversationHistory ui;
     conversationContext := conversationContext ui;
     onQuestionClick := onQuestionClick ui;
     onFollowUpQuestion := b;
     questionsList := questionsList ui |}.

Definition setQuestionsList (v : option ListView) (ui : t) : t :=
  {| aiEnabled := aiEnabled ui; isHovering := isHovering ui;
     pendingQuestions := pendingQuestions ui; chatbox := chatbox ui;
     isChatboxVisible := isChatboxVisible ui; isStreaming := isStreaming ui;
     questionHistory := questionHistory ui;
     currentQuestionGroupIndex := currentQuestionGroupIndex ui;
     conversationHistory := conversationHistory ui;
     conversationContext := conversationContext ui;
     onQuestionClick := onQuestionClick ui;
     onFollowUpQuestion := onFollowUpQuestion ui;
     questionsList := v |}.

(** ** Methods *)

(** [renderCurrentQuestions()] *)
Definition renderCurrentQuestions : Eff t unit :=
  ui <- get ;;
  match questionsList ui with
  | None => ret tt
  | Some _ =>
      (* Clear existing questions *)
      modify (setQuestionsList (Some ListEmpty)) ;;
      if (length (questionHistory ui) =? 0)%nat
         || (currentQuestionGroupIndex ui <? 0)%Z
      then modify (setQuestionsList (Some Analyzing))
      else
        currentGroup <- deref (nth_error (questionHistory ui)
                                 (Z.to_nat (currentQuestionGroupIndex ui))) ;;
        let last := (Z.of_nat (length (questionHistory ui)) - 1)%Z in
        let nav :=
          if (1 <? length (questionHistory ui))%nat
          then Some ((currentQuestionGroupIndex ui =? 0)%Z,
                     (currentQuestionGroupIndex ui =? last)%Z)
          else None in
        (* Show only first 3 questions *)
        modify (setQuestionsList
                  (Some (Questions nav (firstn 3 (questions currentGroup)))))
  end.

(** [updateQuestions(questions, timestamp)] *)
Definition updateQuestions (qs : option (list Question)) (ts : Q)
  : Eff t unit :=
  ui <- get ;;
  (* If user is hovering, queue the update instead of applying immediately *)
  if isHovering ui then
    modify (setPendingQuestions
              (Some {| pendingList := qs; pendingTimestamp := ts |}))
  else
    (* Add to question history *)
    match qs with
    | Some (q :: rest) =>
        let history := questionHistory ui
                       ++ [{| questions := q :: rest; timestamp := ts |}] in
        modify (setQuestionHistory history) ;;
        modify (setCurrentQuestionGroupIndex (Z.of_nat (length history) - 1))
    | _ => ret tt
    end ;;
    renderCurrentQuestions.

(** The [mouseenter] listener installed by [setupHoverDetection]. *)
Definition onMouseEnter : Eff t unit :=
  modify (setIsHovering true).

(** The [mouseleave] listener installed by [setupHoverDetection]. *)
Definition onMouseLeave : Eff t unit :=
  modify (setIsHovering false) ;;
  ui <- get ;;
  match pendingQuestions ui with
  | Some p =>
      updateQuestions (pendingList p) (pendingTimestamp p) ;;
      modify (setPendingQuestions None)
  | None => ret tt
  end.

(** [navigateBackward()] *)
Definition navigateBackward : Eff t unit :=
  ui <- get ;;
  if (0 <? currentQuestionGroupIndex ui)%Z then
    modify (setCurrentQuestionGroupIndex (currentQuestionGroupIndex ui - 1)) ;;
    renderCurrentQuestions
  else ret tt.

(** [navigateForward()] *)
Definition navigateForward : Eff t unit :=
  ui <- get ;;
  if (currentQuestionGroupIndex ui
      <? Z.of_nat (length (questionHistory ui)) - 1)%Z then
    modify (setCurrentQuestionGroupIndex (currentQuestionGroupIndex ui + 1)) ;;
    renderCurrentQuestions
  else ret tt.

(** [destroyChatbox()] *)
Definition destroyChatbox : Eff t unit :=
  modify (setChatbox None) ;;
  modify (setIsChatboxVisible false) ;;
  modify (setIsStreaming false) ;;
  modify (setConversationHistory []) ;;
  modify (setConversationContext None).

(** [showChatbox(question, startTime, endTime)]; an omitted time is
    [None].  Hiding the question list ([style.display]) is not modelled. *)
Definition showChatbox (question : jsstring) (startTime endTime : option Q)
  : Eff t unit :=
  (* Remove existing chatbox if any *)
  destroyChatbox ;;
  (* Initialize conversation with the first question *)
  modify (setConversationHistory [{| role := user; content := question |}]) ;;
  modify (setConversationContext
            (Some {| ctxStartTime := startTime; ctxEndTime := endTime |})) ;;
  modify (setChatbox
            (Some {| questionBlock := question; answerBlock := Loading |})) ;;
  modify (setIsChatboxVisible true) ;;
  modify (setIsStreaming true).

(** The closure [handleSendMessage] created by [showChatbox]; [value] is
    the text of the follow-up input field. *)
Definition handleSendMessage (value : jsstring) : Eff t unit :=
  let message := trim value in
  ui <- get ;;
  if negb (truthy message) || isStreaming ui then ret tt
  else
    (* Update question block with new question, reset answer block *)
    _ <- deref (chatbox ui) ;;
    modify (setChatbox
              (Some {| questionBlock := message; answerBlock := Loading |})) ;;
    (* Add to conversation history *)
    modify (setConversationHistory
              (conversationHistory ui ++ [{| role := user; content := message |}])) ;;
    (* Trigger follow-up answer generation *)
    if onFollowUpQuestion ui then
      ctx <- deref (conversationContext ui) ;;
      emit (CallOnFollowUpQuestion message (ctxStartTime ctx) (ctxEndTime ctx))
    else ret tt.

(** [handleQuestionClick(question, index, startTime, endTime)] *)
Definition handleQuestionClick (question : jsstring) (index : Z)
           (startTime endTime : Q) : Eff t unit :=
  showChatbox question (Some startTime) (Some endTime) ;;
  ui <- get ;;
  if onQuestionClick ui
  then emit (CallOnQuestionClick question index (Some startTime) (Some endTime))
  else ret tt.

(** [updateChatboxContent(text)] *)
Definition updateChatboxContent (text : jsstring) : Eff t unit :=
  ui <- get ;;
  match chatbox ui with
  | None => ret tt
  | Some c =>
      if negb (isChatboxVisible ui) then ret tt
      else modify (setChatbox
                     (Some {| questionBlock := questionBlock c;
                              answerBlock := AnswerText text |}))
  end.

(** [finishStreaming(fullAnswer)]; [None] when the argument is omitted. *)
Definition finishStreaming (fullAnswer : option jsstring) : Eff t unit :=
  modify (setIsStreaming false) ;;
  match fullAnswer with
  | Some answer =>
      if truthy answer then
        ui <- get ;;
        modify (setConversationHistory
                  (conversationHistory ui
                   ++ [{| role := assistant; content := answer |}]))
      else ret tt
  | None => ret tt
  end.

(** [closeChatbox()] *)
Definition closeChatbox : Eff t unit :=
  ui <- get ;;
  match chatbox ui with
  | None => ret tt
  | Some _ =>
      modify (setChatbox None) ;;
      modify (setIsChatboxVisible false) ;;
      modify (setConversationHistory []) ;;
      modify (setConversationContext None)
  end.

(** [showError(message)] *)
Definition showError (message : jsstring) : Eff t unit :=
  ui <- get ;;
  match questionsList ui with
  | None => ret tt
  | Some _ => modify (setQuestionsList (Some (ErrorMessage message)))
  end.

(** [setFollowUpQuestionHandler(handler)] *)
Definition setFollowUpQuestionHandler : Eff t unit :=
  modify (setOnFollowUpQuestion true).

(** [isAIEnabled()] *)
Definition isAIEnabled : Eff t bool :=
  ui <- get ;; ret (aiEnabled ui).

(** The text the answer view shows, if any. *)
Definition visibleAnswer (ui : t) : option jsstring :=
  match chatbox ui with
  | Some {| answerBlock := AnswerText shown |} => Some shown
  | _ => None
  end.

End UIOverlay.

(* ===================================================================== *)
(** * YouTubeAIAssistant, the content script
      (src/content/markdownParser.js, second class) *)
(* ===================================================================== *)

Module YouTubeAIAssistant.

(** The [<video>] element: the fields the script reads. *)
Record Video := { currentTime : Q; paused : bool }.

(** The transcript source, an external collaborator. *)
Record SubtitleParser := {
  getTranscriptChunk : Q -> Q -> Res jsstring
}.

Record t := {
  promptClient : option PromptClient.t;
  summarizerClient : option SummarizerClient.t;
  subtitleParser : option SubtitleParser;
  uiOverlay : option UIOverlay.t;
  isInitialized : bool;
  isRunning : bool;
  lastTriggerTime : Z;
  videoElement : option Video;
  questionGenerationInterval : Z;
  transcriptBufferAhead : Q;
  summaryBuffer : Q
}.

(** The state the constructor builds. *)
Definition new : t :=
  {| promptClient := None; summarizerClient := None; subtitleParser := None;
     uiOverlay := None; isInitialized := false; isRunning := false;
     lastTriggerTime := 0; videoElement := None;
     questionGenerationInterval := 30;
     transcriptBufferAhead := 30; summaryBuffer := 150 |}.

Definition setSummarizerClient (sc : option SummarizerClient.t) (a : t) : t :=
  {| promptClient := promptClient a; summarizerClient := sc;
     subtitleParser := subtitleParser a; uiOverlay := uiOverlay a;
     isInitialized := isInitialized a; isRunning := isRunning a;
     lastTriggerTime := lastTriggerTime a; videoElement := videoElement a;
     questionGenerationInterval := questionGenerationInterval a;
     transcriptBufferAhead := transcriptBufferAhead a;
     summaryBuffer := summaryBuffer a |}.

Definition setUiOverlay (ui : option UIOverlay.t) (a : t) : t :=
  {| promptClient := promptClient a; summarizerClient := summarizerClient a;
     subtitleParser := subtitleParser a; uiOverlay := ui;
     isInitialized := isInitialized a; isRunning := isRunning a;
     lastTriggerTime := lastTriggerTime a; videoElement := videoElement a;
     questionGenerationInterval := questionGenerationInterval a;
     transcriptBufferAhead := transcriptBufferAhead a;
     summaryBuffer := summaryBuffer a |}.

Definition setLastTriggerTime (n : Z) (a : t) : t :=
  {| promptClient := promptClient a; summarizerClient := summarizerClient a;
     subtitleParser := subtitleParser a; uiOverlay := uiOverlay a;
     isInitialized := isInitialized a; isRunning := isRunning a;
     lastTriggerTime := n; videoElement := videoElement a;
     questionGenerationInterval := questionGenerationInterval a;
     transcriptBufferAhead := transcriptBufferAhead a;
     summaryBuffer := summaryBuffer a |}.

Definition setVideoElement (v : option Video) (a : t) : t :=
  {| promptClient := promptClient a; summarizerClient := summarizerClient a;
     subtitleParser := subtitleParser a; uiOverlay := uiOverlay a;
     isInitialized := isInitialized a; isRunning := isRunning a;
     lastTriggerTime := lastTriggerTime a; videoElement := v;
     questionGenerationInterval := questionGenerationInterval a;
     transcriptBufferAhead := transcriptBufferAhead a;
     summaryBuffer := summaryBuffer a |}.

(** A method call on [this.uiOverlay]: a [TypeError] when it is [null]. *)
Definition onUI {A} (m : Eff UIOverlay.t A) : Eff t A :=
  fun a =>
    match uiOverlay a with
    | None => (Throw, a, [])
    | Some ui =>
        match m ui with (r, ui', tr) => (r, setUiOverlay (Some ui') a, tr) end
    end.

(** A method call on [this.summarizerClient]. *)
Definition onSummarizer {A} (m : Eff SummarizerClient.t A) : Eff t A :=
  fun a =>
    match summarizerClient a with
    | None => (Throw, a, [])
    | Some sc =>
        match m sc with
        | (r, sc', tr) => (r, setSummarizerClient (Some sc') a, tr)
        end
    end.

(** [this.subtitleParser.getTranscriptChunk(start, end)], awaited. *)
Definition fetchTranscript (startSeconds endSeconds : Q) : Eff t jsstring :=
  a <- get ;;
  sp <- deref (subtitleParser a) ;;
  call (CallGetTranscriptChunk startSeconds endSeconds)
       (getTranscriptChunk sp startSeconds endSeconds).

(** A local variable captured by a closure: the computation runs over
    the pair of the variable and the object state. *)
Definition withLocal {L S A} (init : L) (m : Eff (L * S) A) : Eff S A :=
  fun s => match m (init, s) with (r, ls, tr) => (r, snd ls, tr) end.

Definition onOuter {L S A} (m : Eff S A) : Eff (L * S) A :=
  zoom snd (fun s ls => (fst ls, s)) m.

(** An async method called without [await]: a rejection is not seen by
    the caller.  The model runs the callee to completion at the call. *)
Definition detached {S} (m : Eff S unit) : Eff S unit :=
  tryCatch m (ret tt).

(** How [this.promptClient.generateAnswer(question, videoSummary, callback)]
    -- a call with three arguments -- binds to the method that is loaded. *)
Definition AnswerCall : Type :=
  forall S, PromptClient.t -> jsstring -> jsstring ->
            (jsstring -> Eff S unit) -> Eff S jsstring.

(** With src/ai/promptClient.js the third argument is the parameter
    [videoFrame], and [onChunk] is [undefined]. *)
Definition answerCallMultimodal : AnswerCall :=
  fun S pc question videoSummary callback =>
    PromptClient.generateAnswer pc question videoSummary (Some callback) None.

(** With the text-only revision (src/unnamed/part_001) the third argument
    is the parameter [onChunk]. *)
Definition answerCallText : AnswerCall :=
  fun S pc question videoSummary callback =>
    PromptClient.generateAnswerText pc question videoSummary (Some callback).

Section Script.

Variable JSON_parse : jsstring -> option PromptClient.JSON.

(** The summary lookup shared by [updateQuestions] and
    [handleQuestionClick]: fetch the transcript of the summary window and
    ask the summarizer client. *)
Definition summaryFor (summaryStartTime summaryEndTime : Q) : Eff t jsstring :=
  text <- fetchTranscript summaryStartTime summaryEndTime ;;
  onSummarizer (SummarizerClient.getSummaryForTime
                  text summaryStartTime summaryEndTime).

(** [updateQuestions()] : one generation cycle. *)
Definition updateQuestions : Eff t unit :=
  a <- get ;;
  if negb (isInitialized a) then ret tt
  else
    tryCatch
      (video <- deref (videoElement a) ;;
       let currentTime := currentTime video in
       transcript <- fetchTranscript currentTime
                       (currentTime + transcriptBufferAhead a) ;;
       if isBlank transcript then
         (* console.warn('No transcript available'); return *)
         ret tt
       else
         (* Get video summary for current time *)
         videoSummary <-
           match summarizerClient a with
           | Some sc =>
               if SummarizerClient.initialized sc then
                 summaryFor (currentTime - summaryBuffer a)
                            (currentTime + summaryBuffer a)
               else ret []
           | None => ret []
           end ;;
         (* Generate questions using AI (with video summary context) *)
         pc <- deref (promptClient a) ;;
         questions <- PromptClient.generateQuestions JSON_parse pc
                        transcript videoSummary (@None unit) ;;
         (* Store questions with timing information *)
         let questionData :=
           map (fun q => {| UIOverlay.text := q;
                            UIOverlay.startTime := currentTime;
                            UIOverlay.endTime :=
                              currentTime + transcriptBufferAhead a |})
               questions in
         (* Update the UI with questions and timing *)
         onUI (UIOverlay.updateQuestions (Some questionData) currentTime))
      (onUI (UIOverlay.showError (js "Failed to generate questions"))).

(** [handleVideoTimeUpdate()] *)
Definition handleVideoTimeUpdate : Eff t unit :=
  a <- get ;;
  match (if isRunning a then videoElement a else None) with
  | None => ret tt
  | Some video =>
      if paused video then ret tt
      else
        (* Check if AI is enabled before generating questions *)
        enabled <- onUI UIOverlay.isAIEnabled ;;
        if negb enabled then ret tt
        else
          let currentTime := Qfloor (currentTime video) in
          if (0 <? currentTime)%Z
             && (Z.rem currentTime (questionGenerationInterval a) =? 0)%Z
             && negb (currentTime =? lastTriggerTime a)%Z
          then
            emit (ConsoleLog (LogVideoReached currentTime)) ;;
            modify (setLastTriggerTime currentTime) ;;
            detached updateQuestions
          else ret tt
  end.

Variable answerCall : AnswerCall.

(** The callback passed to [generateAnswer] by [handleQuestionClick]:
    [fullAnswer += chunk; this.uiOverlay.updateChatboxContent(fullAnswer)].
    [fullAnswer] is the local variable of [handleQuestionClick]. *)
Definition onAnswerChunk (chunk : jsstring) : Eff (jsstring * t) unit :=
  modify (fun st : jsstring * t => (fst st ++ chunk, snd st)) ;;
  st <- get ;;
  onOuter (onUI (UIOverlay.updateChatboxContent (fst st))).

(** [handleQuestionClick(question, index, startTime, endTime)] *)
Definition handleQuestionClick (question : jsstring) (index : Z)
           (startTime endTime : Q) : Eff t unit :=
  a <- get ;;
  match (if isInitialized a then promptClient a else None), uiOverlay a with
  | Some pc, Some _ =>
      tryCatch
        ((* Show chatbox with loading state *)
         onUI (UIOverlay.showChatbox question None None) ;;
         (* Get video summary for the question's time range *)
         videoSummary <-
           match summarizerClient a with
           | Some sc =>
               if SummarizerClient.initialized sc then
                 summaryFor (startTime - summaryBuffer a)
                            (endTime + summaryBuffer a)
               else ret []
           | None => ret []
           end ;;
         (* Get transcript for the question's specific time range *)
         _ <- fetchTranscript startTime endTime ;;
         (* Generate answer with streaming *)
         _ <- withLocal ([] : jsstring)
                (answerCall pc question videoSummary onAnswerChunk) ;;
         (* Mark streaming as complete *)
         onUI (UIOverlay.finishStreaming None))
        (onUI (UIOverlay.updateChatboxContent PromptClient.sorryAnswer) ;;
         onUI (UIOverlay.finishStreaming None))
  | _, _ => ret tt
  end.

End Script.

End YouTubeAIAssistant.

(* ===================================================================== *)
(** * UIOverlay: visibility, the AI toggle and typed questions
      (src/unnamed/part_000) *)
(* ===================================================================== *)

Module OverlayControls.
Import UIOverlay.

Definition setAiEnabled (b : bool) (ui : t) : t :=
  {| aiEnabled := b; isHovering := isHovering ui;
     pendingQuestions := pendingQuestions ui; chatbox := chatbox ui;
     isChatboxVisible := isChatboxVisible ui; isStreaming := isStreaming ui;
     questionHistory := questionHistory ui;
     currentQuestionGroupIndex := currentQuestionGroupIndex ui;
     conversationHistory := conversationHistory ui;
     conversationContext := conversationContext ui;
     onQuestionClick := onQuestionClick ui;
     onFollowUpQuestion := onFollowUpQuestion ui;
     questionsList := questionsList ui |}.

(** [Boolean.prototype.toString] *)
Definition boolToString (b : bool) : jsstring :=
  if b then js "true" else js "false".

(** [===] on two strings. *)
Definition strictEquals (a b : jsstring) : bool :=
  if list_eq_dec N.eq_dec a b then true else false.

(** [localStorage] as the overlay uses it: the item stored under
    [STORAGE_KEY].  Access throws when the storage is not accessible. *)
Record Storage := { accessible : bool; stored : option jsstring }.

Definition getItem (st : Storage) : Res (option jsstring) :=
  if accessible st then Ok (stored st) else Throw.

Definition setItem (value : jsstring) (st : Storage) : Res Storage :=
  if accessible st
  then Ok {| accessible := true; stored := Some value |}
  else Throw.

(** The fields of the overlay object that concern its visibility, and the
    two globals its methods read. *)
Record Chrome := {
  overlay : bool;                   (* [this.overlay] is set *)
  isVisible : bool;
  hideTimeout : bool;               (* [this.hideTimeout] is set *)
  toggleButton : option jsstring;   (* its [aria-pressed]; [None]: no button *)
  activeElement : option jsstring;  (* the id of [document.activeElement] *)
  localStorage : Storage
}.

Definition setIsVisible (b : bool) (c : Chrome) : Chrome :=
  {| overlay := overlay c; isVisible := b; hideTimeout := hideTimeout c;
     toggleButton := toggleButton c; activeElement := activeElement c;
     localStorage := localStorage c |}.

Definition setHideTimeout (b : bool) (c : Chrome) : Chrome :=
  {| overlay := overlay c; isVisible := isVisible c; hideTimeout := b;
     toggleButton := toggleButton c; activeElement := activeElement c;
     localStorage := localStorage c |}.

Definition setToggleButton (v : option jsstring) (c : Chrome) : Chrome :=
  {| overlay := overlay c; isVisible := isVisible c;
     hideTimeout := hideTimeout c;
     toggleButton := v; activeElement := activeElement c;
     localStorage := localStorage c |}.

Definition setLocalStorage (st : Storage) (c : Chrome) : Chrome :=
  {| overlay := overlay c; isVisible := isVisible c;
     hideTimeout := hideTimeout c;
     toggleButton := toggleButton c; activeElement := activeElement c;
     localStorage := st |}.

(** The state after the constructor and [createOverlay]. *)
Definition newChrome (st : Storage) : Chrome :=
  {| overlay := true; isVisible := false; hideTimeout := false;
     toggleButton := None; activeElement := None; localStorage := st |}.

(** The overlay object: the question and conversation state, and the rest. *)
Definition Page : Type := UIOverlay.t * Chrome.

Definition onThis {A} (m : Eff UIOverlay.t A) : Eff Page A :=
  zoom fst (fun ui p => (ui, snd p)) m.

Definition onChrome {A} (m : Eff Chrome A) : Eff Page A :=
  zoom snd (fun c p => (fst p, c)) m.

(** [loadToggleState()] *)
Definition loadToggleState : Eff Page unit :=
  tryCatch
    (p <- get ;;
     match getItem (localStorage (snd p)) with
     | Throw => throw
     | Ok savedState =>
         match savedState with
         | Some saved =>
             onThis (modify (setAiEnabled (strictEquals saved (js "true"))))
         | None => ret tt
         end
     end)
    ((* console.warn *) ret tt).

(** [saveToggleState()] *)
Definition saveToggleState : Eff Page unit :=
  tryCatch
    (p <- get ;;
     match setItem (boolToString (aiEnabled (fst p))) (localStorage (snd p)) with
     | Throw => throw
     | Ok st => onChrome (modify (setLocalStorage st))
     end)
    ((* console.warn *) ret tt).

(** [show()] *)
Definition show : Eff Page unit :=
  p <- get ;;
  if negb (overlay (snd p)) then ret tt
  else
    (* Don't show if AI is disabled *)
    if negb (aiEnabled (fst p)) then ret tt
    else
      onChrome (modify (setIsVisible true)) ;;
      (* Clear any pending hide timeout *)
      if hideTimeout (snd p)
      then onChrome (modify (setHideTimeout false))
      else ret tt.

(** [activeElement && activeElement.id === id] *)
Definition isTypingIn (id : jsstring) (c : Chrome) : bool :=
  match activeElement c with
  | Some active => strictEquals active id
  | None => false
  end.

(** [hide()] *)
Definition hide : Eff Page unit :=
  p <- get ;;
  if negb (overlay (snd p)) then ret tt
  else
    (* Don't hide if chatbox is open *)
    if isChatboxVisible (fst p) then ret tt
    else
      (* Don't hide if answer is currently streaming/generating *)
      if isStreaming (fst p) then ret tt
      else
        (* Don't hide if user is currently typing in any input field *)
        let isTypingInQuestions :=
          isTypingIn (js "yt-ai-user-query-input") (snd p) in
        let isTypingInChatbox :=
          isTypingIn (js "ytai-followup-input") (snd p) in
        if isTypingInQuestions || isTypingInChatbox then ret tt
        else onChrome (modify (setIsVisible false)).

(** [toggle()] *)
Definition toggle : Eff Page unit :=
  p <- get ;;
  if isVisible (snd p) then hide else show.

(** [toggleAI()].  [window.aiToggleCallback] is a function of the main
    script, or unset: it runs on a state [S] that holds the overlay. *)
Section ToggleAI.

Context {S : Type}.
Variable onPage : forall A, Eff Page A -> Eff S A.
Variable aiToggleCallback : option (bool -> Eff S unit).

Definition toggleAI : Eff S unit :=
  onPage (onThis (modify (fun ui => setAiEnabled (negb (aiEnabled ui)) ui))) ;;
  enabled <- onPage (onThis isAIEnabled) ;;
  (* Update aria-pressed state for the red underline *)
  onPage (p <- get ;;
          _ <- deref (toggleButton (snd p)) ;;
          onChrome (modify (setToggleButton (Some (boolToString enabled))))) ;;
  (* Save the state to localStorage *)
  onPage saveToggleState ;;
  (* If disabling AI, hide current questions and clear any pending updates *)
  (if negb enabled
   then onPage hide ;; onPage (onThis (modify (setPendingQuestions None)))
   else ret tt) ;;
  (* Notify the main script about the toggle *)
  match aiToggleCallback with
  | Some callback => callback enabled
  | None => ret tt
  end.

End ToggleAI.



(** [waitForPlayer()]: [present k] tells whether a player container is in
    the document at the [k]-th poll.  The result is the number of polls
    made when the promise resolves. *)
Fixpoint checkPlayer (remaining : nat) (present : nat -> bool)
         (attempts : nat) : nat :=
  let attempts := S attempts in
  if present attempts || (50 <=? attempts)%nat then attempts
  else
    match remaining with
    | O => attempts
    | S remaining' => checkPlayer remaining' present attempts
    end.

Definition waitForPlayer (present : nat -> bool) : nat :=
  checkPlayer 50 present 0.

End OverlayControls.

(* ===================================================================== *)
(** * YouTubeAIAssistant: starting, stopping, navigation and the AI
      toggle (src/content/markdownParser.js, second class) *)
(* ===================================================================== *)

Module AssistantLifecycle.
Import YouTubeAIAssistant.

Definition setIsRunning (b : bool) (a : t) : t :=
  {| promptClient := promptClient a; summarizerClient := summarizerClient a;
     subtitleParser := subtitleParser a; uiOverlay := uiOverlay a;
     isInitialized := isInitialized a; isRunning := b;
     lastTriggerTime := lastTriggerTime a; videoElement := videoElement a;
     questionGenerationInterval := questionGenerationInterval a;
     transcriptBufferAhead := transcriptBufferAhead a;
     summaryBuffer := summaryBuffer a |}.

Definition setSubtitleParser (sp : option SubtitleParser) (a : t) : t :=
  {| promptClient := promptClient a; summarizerClient := summarizerClient a;
     subtitleParser := sp; uiOverlay := uiOverlay a;
     isInitialized := isInitialized a; isRunning := isRunning a;
     lastTriggerTime := lastTriggerTime a; videoElement := videoElement a;
     questionGenerationInterval := questionGenerationInterval a;
     transcriptBufferAhead := transcriptBufferAhead a;
     summaryBuffer := summaryBuffer a |}.

(** The assistant together with the visibility state of its overlay. *)
Definition World : Type := t * OverlayControls.Chrome.

Definition onAssistant {A} (m : Eff t A) : Eff World A :=
  zoom fst (fun a w => (a, snd w)) m.

(** A method call on [this.uiOverlay] that involves its visibility
    state: a [TypeError] when the overlay is [null]. *)
Definition onPage {A} (m : Eff OverlayControls.Page A) : Eff World A :=
  fun w =>
    match uiOverlay (fst w) with
    | None => (Throw, w, [])
    | Some ui =>
        match m (ui, snd w) with
        | (r, p, tr) => (r, (setUiOverlay (Some (fst p)) (fst w), snd p), tr)
        end
    end.

Section Lifecycle.

Variable JSON_parse : jsstring -> option PromptClient.JSON.

(** [subtitleParser.refreshTracks()], a method of an external
    collaborator: the parser as it is afterwards, unless it throws. *)
Variable refreshTracks : SubtitleParser -> Res SubtitleParser.

(** [startQuestionLoop()]; [found] is what
    [document.querySelector('video')] returns.  The [timeupdate] listener
    it registers is [handleVideoTimeUpdate]; the callback it installs is
    [aiToggleCallback] below.  The registrations themselves live in the
    DOM and are not part of the state. *)
Definition startQuestionLoop (found : option Video) : Eff t unit :=
  a <- get ;;
  if isRunning a then
    (* console.warn('Question loop already running') *)
    ret tt
  else
    modify (setIsRunning true) ;;
    (* Find video element *)
    modify (setVideoElement found) ;;
    match found with
    | None => ret tt
    | Some _ =>
        (* Initial update (only if AI is enabled) *)
        enabled <- onUI UIOverlay.isAIEnabled ;;
        if enabled then detached (updateQuestions JSON_parse) else ret tt
    end.

(** [stopQuestionLoop()].  [updateInterval] is [null] throughout: nothing
    assigns it. *)
Definition stopQuestionLoop : Eff t unit :=
  modify (setIsRunning false) ;;
  modify (setLastTriggerTime 0).

(** [handleVideoNavigation()] *)
Definition handleVideoNavigation (found : option Video) : Eff t unit :=
  a <- get ;;
  if negb (isInitialized a) then ret tt
  else
    (* Reset video-time tracking for new video *)
    modify (setLastTriggerTime 0) ;;
    (* Clear summarizer cache for new video *)
    match summarizerClient a with
    | Some _ => onSummarizer SummarizerClient.clearCache
    | None => ret tt
    end ;;
    (* Refresh subtitle parser for new video *)
    sp <- deref (subtitleParser a) ;;
    match refreshTracks sp with
    | Throw => throw
    | Ok refreshed => modify (setSubtitleParser (Some refreshed))
    end ;;
    (* Restart question loop for new video *)
    stopQuestionLoop ;;
    startQuestionLoop found.

(** The function [setupAIToggleCallback] stores in
    [window.aiToggleCallback]. *)
Definition aiToggleCallback (enabled : bool) : Eff World unit :=
  if enabled then
    (* If enabling and video is playing, generate questions immediately *)
    w <- get ;;
    match videoElement (fst w) with
    | Some video =>
        if negb (paused video) && isRunning (fst w)
        then onAssistant (detached (updateQuestions JSON_parse))
        else ret tt
    | None => ret tt
    end
  else
    (* Hide any current questions *)
    onPage OverlayControls.hide.

(** [this.uiOverlay.toggleAI()] once the callback is installed: what a
    click on the toggle button runs. *)
Definition clickToggle : Eff World unit :=
  OverlayControls.toggleAI (@onPage) (Some aiToggleCallback).

End Lifecycle.

End AssistantLifecycle.

(* ===================================================================== *)
(** * TranslatorClient (src/unnamed/part_001) *)
(* ===================================================================== *)

Module TranslatorClient.

(** A translator instance: its [translate] method. *)
Definition Translator : Type := jsstring -> Res jsstring.

(** The browser's [Translator] interface, an external collaborator:
    [availability] and [create] for a source and a target language. *)
Record TranslatorAPI := {
  availability : jsstring -> jsstring -> Res jsstring;
  create : jsstring -> jsstring -> Res Translator
}.

(** The [Map] of translators, its entries in insertion order. *)
Record t := {
  translators : list (jsstring * Translator);
  initialized : bool
}.

(** The state the constructor builds. *)
Definition new : t := {| translators := []; initialized := false |}.

Definition sameKey (a b : jsstring) : bool :=
  if list_eq_dec N.eq_dec a b then true else false.

(** [Map.prototype.get]; [None] is [undefined]. *)
Fixpoint mapGet (key : jsstring) (m : list (jsstring * Translator))
  : option Translator :=
  match m with
  | [] => None
  | (k, v) :: rest => if sameKey k key then Some v else mapGet key rest
  end.

(** [Map.prototype.set]: replace in place, or add at the end. *)
Fixpoint mapSet (key : jsstring) (v : Translator)
         (m : list (jsstring * Translator)) : list (jsstring * Translator) :=
  match m with
  | [] => [(key, v)]
  | (k, old) :: rest =>
      if sameKey k key then (k, v) :: rest else (k, old) :: mapSet key v rest
  end.

Definition setTranslators (m : list (jsstring * Translator)) (c : t) : t :=
  {| translators := m; initialized := initialized c |}.

Definition setInitialized (b : bool) (c : t) : t :=
  {| translators := translators c; initialized := b |}.

(** The template literal of [createTranslator]: source, a hyphen, target. *)
Definition cacheKey (sourceLanguage targetLanguage : jsstring) : jsstring :=
  sourceLanguage ++ js "-" ++ targetLanguage.

(** [initialize()]; [present] is ['Translator' in self]. *)
Definition initialize (present : bool) : Eff t bool :=
  if negb present then ret false
  else modify (setInitialized true) ;; ret true.

Section Api.

Variable api : TranslatorAPI.

(** [checkLanguagePairSupport(sourceLanguage, targetLanguage)] *)
Definition checkLanguagePairSupport (sourceLanguage targetLanguage : jsstring)
  : Eff t jsstring :=
  c <- get ;;
  if negb (initialized c) then ret (js "no")
  else
    tryCatch
      (match availability api sourceLanguage targetLanguage with
       | Ok status => ret status
       | Throw => throw
       end)
      (ret (js "no")).

(** [createTranslator(sourceLanguage, targetLanguage)]; [None] is [null].
    The progress callback only logs and is left out. *)
Definition createTranslator (sourceLanguage targetLanguage : jsstring)
  : Eff t (option Translator) :=
  c <- get ;;
  if negb (initialized c) then ret None
  else
    tryCatch
      ((* Check if we already have a translator for this language pair *)
       let cacheKey := cacheKey sourceLanguage targetLanguage in
       match mapGet cacheKey (translators c) with
       | Some cached => ret (Some cached)
       | None =>
           (* Check if language pair is supported *)
           status <- checkLanguagePairSupport sourceLanguage targetLanguage ;;
           if sameKey status (js "no") then ret None
           else
             translator <-
               match create api sourceLanguage targetLanguage with
               | Ok translator => ret translator
               | Throw => throw
               end ;;
             (* Cache the translator for reuse *)
             c' <- get ;;
             modify (setTranslators
                       (mapSet cacheKey translator (translators c'))) ;;
             ret (Some translator)
       end)
      (ret None).

(** [translate(text, sourceLanguage, targetLanguage)] *)
Definition translate (text sourceLanguage targetLanguage : jsstring)
  : Eff t jsstring :=
  c <- get ;;
  if negb (initialized c) then ret []
  else if isBlank text then ret []
  else
    tryCatch
      ((* Get or create translator *)
       translator <- createTranslator sourceLanguage targetLanguage ;;
       match translator with
       | None => ret []
       | Some translator =>
           match translator text with
           | Ok translatedText => ret translatedText
           | Throw => throw
           end
       end)
      (ret []).

End Api.

(** [String.prototype.startsWith] *)
Fixpoint startsWith (s prefix : jsstring) {struct prefix} : bool :=
  match prefix, s with
  | [], _ => true
  | p :: prefix', c :: s' => (c =? p)%N && startsWith s' prefix'
  | _ :: _, [] => false
  end.

Definition englishCodes : list jsstring :=
  [js "en"; js "en-US"; js "en-GB"; js "en-CA"; js "en-AU"; js "en-NZ"].

(** [needsTranslation(languageCode)] *)
Definition needsTranslation (languageCode : jsstring) : bool :=
  negb (existsb (fun code => startsWith languageCode code) englishCodes).

(** [clearTranslators()] *)
Definition clearTranslators : Eff t unit :=
  modify (setTranslators []).

(** [getStats()]: the count and the keys. *)
Definition getStats (c : t) : nat * list jsstring :=
  (length (translators c), map fst (translators c)).

(** [destroy()] *)
Definition destroy : Eff t unit :=
  modify (setTranslators []) ;;
  modify (setInitialized false).

End TranslatorClient.

(* ===================================================================== *)
(** * MarkdownParser (src/content/markdownParser.js, first class) *)
(* ===================================================================== *)

Module MarkdownParser.

Definition chAsterisk : N := 42.
Definition chHyphen : N := 45.
Definition chUnderscore : N := 95.

(** The characters the pattern [.] does not match. *)
Definition isLineTerminator (c : N) : bool :=
  ((c =? 10) || (c =? 13) || (c =? 8232) || (c =? 8233))%N.

(** [pieces.join(sep)] for a one-character separator. *)
Fixpoint join (sep : N) (pieces : list jsstring) : jsstring :=
  match pieces with
  | [] => []
  | piece :: rest =>
      match rest with
      | [] => piece
      | _ :: _ => piece ++ sep :: join sep rest
      end
  end.

(** The text after [prefix], when [s] starts with it. *)
Fixpoint stripPrefix (prefix s : jsstring) {struct prefix} : option jsstring :=
  match prefix with
  | [] => Some s
  | p :: prefix' =>
      match s with
      | c :: s' => if (c =? p)%N then stripPrefix prefix' s' else None
      | [] => None
      end
  end.

(** The longest prefix of characters outside [stop], and what follows. *)
Fixpoint untilStop (stop : N -> bool) (s : jsstring) : jsstring * jsstring :=
  match s with
  | [] => ([], [])
  | c :: s' =>
      if stop c then ([], s)
      else let (body, rest) := untilStop stop s' in (c :: body, rest)
  end.

(** A match, at the start of [s], of a pattern of the shape
    opening, one or more characters outside [stop] (the group), closing.
    The result is the group and the text after the match.  The
    repetition is greedy; [closing] starts with a character of [stop], so
    a shorter repetition cannot be followed by it and backtracking adds
    no match. *)
Definition delimited (opening closing : jsstring) (stop : N -> bool)
           (s : jsstring) : option (jsstring * jsstring) :=
  match stripPrefix opening s with
  | None => None
  | Some inner =>
      let (body, after) := untilStop stop inner in
      if truthy body then
        match stripPrefix closing after with
        | Some rest => Some (body, rest)
        | None => None
        end
      else None
  end.

(** [text.replace(pattern, tagOpen + '$1' + tagClose)] with the g flag,
    for a pattern as in [delimited].  With [lookbehind] the pattern
    starts with a negative lookbehind for the start of the input or a
    line feed; [previous] is the character before [s] in the input.
    [fuel] bounds the number of positions visited. *)
Fixpoint replaceDelimited (fuel : nat) (opening closing : jsstring)
         (stop : N -> bool) (lookbehind : bool) (tagOpen tagClose : jsstring)
         (previous : option N) (s : jsstring) : jsstring :=
  match fuel with
  | O => s
  | S fuel' =>
      match s with
      | [] => []
      | c :: s' =>
          let allowed :=
            if lookbehind then
              match previous with
              | None => false
              | Some p => negb (p =? chNewline)%N
              end
            else true in
          match (if allowed then delimited opening closing stop s
                 else None) with
          | Some (body, rest) =>
              tagOpen ++ body ++ tagClose
              ++ replaceDelimited fuel' opening closing stop lookbehind
                   tagOpen tagClose (Some (last closing c)) rest
          | None =>
              c :: replaceDelimited fuel' opening closing stop lookbehind
                     tagOpen tagClose (Some c) s'
          end
      end
  end.

Definition replaceAllDelimited (opening closing : jsstring)
           (stop : N -> bool) (lookbehind : bool)
           (tagOpen tagClose : jsstring) (text : jsstring) : jsstring :=
  replaceDelimited (S (length text)) opening closing stop lookbehind
    tagOpen tagClose None text.

(** [parseBold(text)] *)
Definition parseBold (text : jsstring) : jsstring :=
  (* Parse **bold** syntax *)
  let text :=
    replaceAllDelimited (js "**") (js "**") (N.eqb chAsterisk) false
      (js "<strong>") (js "</strong>") text in
  (* Parse __bold__ syntax *)
  replaceAllDelimited (js "__") (js "__") (N.eqb chUnderscore) false
    (js "<strong>") (js "</strong>") text.

(** [parseItalic(text)] *)
Definition parseItalic (text : jsstring) : jsstring :=
  (* Parse *italic* syntax, not at the start of a line *)
  let text :=
    replaceAllDelimited (js "*") (js "*")
      (fun c => (c =? chAsterisk) || (c =? chNewline))%N true
      (js "<em>") (js "</em>") text in
  (* Parse _italic_ syntax *)
  replaceAllDelimited (js "_") (js "_")
    (fun c => (c =? chUnderscore) || (c =? chNewline))%N false
    (js "<em>") (js "</em>") text.

(** The group of the pattern of [parseLists] after the marker and the
    white space: one or more characters, none a line terminator, up to
    the end of the input. *)
Definition itemText (s : jsstring) : option jsstring :=
  if truthy s && forallb (fun c => negb (isLineTerminator c)) s
  then Some s else None.

(** [trimmedLine.match(pattern)] for the pattern of [parseLists]: at the
    start an asterisk or a hyphen, then white space, one or more, then
    the group.  The result is the group. *)
Definition listMatch (trimmedLine : jsstring) : option jsstring :=
  match trimmedLine with
  | marker :: space :: rest =>
      if accepts (OneOf [chAsterisk; chHyphen]) marker && accepts Space space
      then star Space itemText rest
      else None
  | _ => None
  end.

(** The loop of [parseLists]: the lines pushed to [result]. *)
Fixpoint listLines (lines : list jsstring) (inList : bool) : list jsstring :=
  match lines with
  | [] =>
      (* Close list if still open at the end *)
      if inList then [js "</ul>"] else []
  | line :: rest =>
      match listMatch (trim line) with
      | Some item =>
          (if inList then [] else [js "<ul>"])
          ++ (js "<li>" ++ item ++ js "</li>") :: listLines rest true
      | None =>
          (if inList then [js "</ul>"] else [])
          ++ line :: listLines rest false
      end
  end.

(** [parseLists(text)] *)
Definition parseLists (text : jsstring) : jsstring :=
  join chNewline (listLines (split chNewline text) false).

(** [parse(markdown)] *)
Definition parse (markdown : jsstring) : jsstring :=
  if negb (truthy markdown) then []
  else
    (* bold first, then lists, italic last *)
    parseItalic (parseLists (parseBold markdown)).

End MarkdownParser.


(* ===================================================================== *)
(** * Vocabulary of the properties *)
(* ===================================================================== *)

(** [sound I Pc m]: running [m] from a state that satisfies [I] ends in a
    state that satisfies [I], whether [m] returns or throws, and every
    call [m] makes satisfies [Pc]. *)
Definition sound {S A} (I : S -> Prop) (Pc : Call -> Prop) (m : Eff S A)
  : Prop :=
  forall s, I s -> I (stateOf (m s)) /\ Forall Pc (callsOf (m s)).

(** ** A concrete session, for the runs *)

Module Demo.

Definition listedQuestions : jsstring :=
  js "1. What is gravity?" ++ [chNewline] ++ js "2. Why do planets orbit?".

Definition session : PromptClient.Session :=
  {| PromptClient.prompt := fun _ _ _ => Ok listedQuestions;
     PromptClient.promptStreaming :=
       fun _ _ _ =>
         PromptClient.Stream [js "Hi"; js "Hi there"; js "Hi there!"] true;
     PromptClient.append := Ok tt |}.

Definition promptClient : PromptClient.t :=
  {| PromptClient.session := Some session; PromptClient.initialized := true |}.

Definition summarizerClient : SummarizerClient.t :=
  {| SummarizerClient.summarizer := Some (fun _ => Ok (js "A talk about gravity."));
     SummarizerClient.initialized := true;
     SummarizerClient.currentSummary := None;
     SummarizerClient.currentSummaryTimeRange :=
       {| SummarizerClient.rangeStart := -1; SummarizerClient.rangeEnd := -1 |} |}.

Definition subtitleParser : YouTubeAIAssistant.SubtitleParser :=
  {| YouTubeAIAssistant.getTranscriptChunk :=
       fun _ _ => Ok (js "speaker discusses gravity") |}.

(** An initialised, running assistant on a playing video. *)
Definition assistant : YouTubeAIAssistant.t :=
  {| YouTubeAIAssistant.promptClient := Some promptClient;
     YouTubeAIAssistant.summarizerClient := Some summarizerClient;
     YouTubeAIAssistant.subtitleParser := Some subtitleParser;
     YouTubeAIAssistant.uiOverlay := Some UIOverlay.new;
     YouTubeAIAssistant.isInitialized := true;
     YouTubeAIAssistant.isRunning := true;
     YouTubeAIAssistant.lastTriggerTime := 0;
     YouTubeAIAssistant.videoElement :=
       Some {| YouTubeAIAssistant.currentTime := 0;
               YouTubeAIAssistant.paused := false |};
     YouTubeAIAssistant.questionGenerationInterval := 30;
     YouTubeAIAssistant.transcriptBufferAhead := 30;
     YouTubeAIAssistant.summaryBuffer := 150 |}.

(** A [JSON.parse] that rejects every input. *)
Definition noJSON (_ : jsstring) : option PromptClient.JSON := None.

End Demo.

(** ** Overlay *)

Module OverlaySpec.
Import UIOverlay.

(** Sample data for the concrete runs. *)
Definition gravityQuestion : Question :=
  {| text := js "What is gravity?"; startTime := 30; endTime := 60 |}.

Definition orbitQuestion : Question :=
  {| text := js "Why do planets orbit?"; startTime := 60; endTime := 90 |}.

(** The overlay after one group was delivered to a fresh overlay. *)
Definition oneGroup : t :=
  stateOf (updateQuestions (Some [gravityQuestion]) 30 new).

(** What the list element shows once [renderCurrentQuestions] ran. *)
Definition rendersGroup (before : option ListView) (after : option ListView)
           (qs : list Question) : Prop :=
  match before with
  | None => after = None
  | Some _ => exists nav, after = Some (Questions nav (firstn 3 qs))
  end.

(** The group an applied update adds to the log. *)
Definition recorded (qs : option (list Question)) (ts : Q)
  : list QuestionGroup :=
  match qs with
  | Some (q :: rest) => [{| questions := q :: rest; timestamp := ts |}]
  | _ => []
  end.

End OverlaySpec.

(** ** Assistant *)

Module AssistantSpec.
Import YouTubeAIAssistant.

(** An invariant of the assistant made of a part [J] that does not look
    at the component objects and a part [Iu] about the overlay, which
    must exist. *)
Definition withOverlay (J : t -> Prop) (Iu : UIOverlay.t -> Prop) (a : t)
  : Prop :=
  J a /\ exists ui, uiOverlay a = Some ui /\ Iu ui.

(** [J] does not look at the overlay nor at the summarizer client. *)
Definition componentStable (J : t -> Prop) : Prop :=
  (forall a x, J a -> J (setUiOverlay x a))
  /\ (forall a x, J a -> J (setSummarizerClient x a)).

(** The calls a generation cycle may make. *)
Definition cycleCall (c : Call) : Prop :=
  match c with
  | CallGetTranscriptChunk _ _ | CallSummarize _ | CallSessionAppend
  | CallSessionPrompt _ _ _ => True
  | ConsoleLog (LogUsingCachedSummary _ _)
  | ConsoleLog (LogGeneratingNewSummary _ _) => True
  | _ => False
  end.

(** The overlay fields a question update leaves alone. *)
Definition sameSession (ui ui' : UIOverlay.t) : Prop :=
  UIOverlay.aiEnabled ui' = UIOverlay.aiEnabled ui
  /\ UIOverlay.chatbox ui' = UIOverlay.chatbox ui
  /\ UIOverlay.isChatboxVisible ui' = UIOverlay.isChatboxVisible ui
  /\ UIOverlay.isStreaming ui' = UIOverlay.isStreaming ui
  /\ UIOverlay.conversationHistory ui' = UIOverlay.conversationHistory ui
  /\ UIOverlay.conversationContext ui' = UIOverlay.conversationContext ui
  /\ UIOverlay.onFollowUpQuestion ui' = UIOverlay.onFollowUpQuestion ui.

End AssistantSpec.

(** ** Trigger scheduler *)

Module TriggerSpec.
Import YouTubeAIAssistant.

(** A position update: the player sets [currentTime] (playback running)
    and dispatches [timeupdate]. *)
Definition timeupdate (JSON_parse : jsstring -> option PromptClient.JSON)
           (time : Q) : Eff t unit :=
  modify (setVideoElement (Some {| currentTime := time; paused := false |})) ;;
  handleVideoTimeUpdate JSON_parse.

(** The times logged as reached, i.e. the cycles fired, in order. *)
Fixpoint fired (calls : list Call) : list Z :=
  match calls with
  | [] => []
  | ConsoleLog (LogVideoReached n) :: rest => n :: fired rest
  | _ :: rest => fired rest
  end.

(** Playback is running with the feature on: the conditions under which
    the scheduler is active. *)
Definition playing (a : t) : Prop :=
  isRunning a = true
  /\ questionGenerationInterval a = 30%Z
  /\ exists ui, uiOverlay a = Some ui /\ UIOverlay.aiEnabled ui = true.

(** [f] differs from the last fired value, if there is one. *)
Definition differsFrom (lastFired : option Z) (f : Z) : bool :=
  match lastFired with
  | Some l => negb (f =? l)%Z
  | None => true
  end.

(** The scheduler as the design document words it: keep [lastFired]
    (initially none); on each position update with floor [f], if [f > 0],
    [f mod I = 0] and [f] differs from [lastFired], fire and set
    [lastFired] to [f].  The result lists the fires. *)
Fixpoint specFires (I : Z) (lastFired : option Z) (floors : list Z)
  : list Z :=
  match floors with
  | [] => []
  | f :: rest =>
      if (0 <? f)%Z && (f mod I =? 0)%Z && differsFrom lastFired f
      then f :: specFires I (Some f) rest
      else specFires I lastFired rest
  end.

(** [lastTriggerTime] holds 0 for none. *)
Definition lastFiredOf (a : t) : option Z :=
  if (lastTriggerTime a =? 0)%Z then None else Some (lastTriggerTime a).

(** A sequence of position updates, each dispatched to the listener; an
    exception in one listener call does not reach the next. *)
Definition positionUpdates (JSON_parse : jsstring -> option PromptClient.JSON)
           (times : list Q) : Eff t unit :=
  forEach times (fun time => detached (timeupdate JSON_parse time)).

(** The firing condition of one position update with floor [f], for the
    interval 30. *)
Definition fires (a : t) (f : Z) : bool :=
  (0 <? f)%Z && (f mod 30 =? 0)%Z && negb (f =? lastTriggerTime a)%Z.

(** The assistant once the player has moved the playing video to [time]. *)
Definition moved (time : Q) (a : t) : t :=
  setVideoElement (Some {| currentTime := time; paused := false |}) a.

(** A fire at floor [f]: the log line, the value kept in
    [lastTriggerTime], and the generation cycle [updateQuestions],
    started without [await]. *)
Definition startCycle (JSON_parse : jsstring -> option PromptClient.JSON)
           (f : Z) : Eff t unit :=
  emit (ConsoleLog (LogVideoReached f)) ;;
  modify (setLastTriggerTime f) ;;
  detached (updateQuestions JSON_parse).

(** The scheduler of the design document at work on the assistant: it
    keeps [lastFired] itself and, on each position update with floor [f],
    runs [startCycle] when [f > 0], [f mod I = 0] and [f] differs from
    [lastFired], and nothing otherwise. *)
Fixpoint schedule (JSON_parse : jsstring -> option PromptClient.JSON)
         (I : Z) (lastFired : option Z) (times : list Q) : Eff t unit :=
  match times with
  | [] => ret tt
  | time :: rest =>
      modify (moved time) ;;
      let f := Qfloor time in
      if (0 <? f)%Z && (f mod I =? 0)%Z && differsFrom lastFired f
      then startCycle JSON_parse f ;; schedule JSON_parse I (Some f) rest
      else schedule JSON_parse I lastFired rest
  end.

End TriggerSpec.

(** ** Time-window cache *)

Module CacheSpec.
Import SummarizerClient.

(** The number of times the summarization generator was invoked. *)
Fixpoint summarizeCalls (calls : list Call) : nat :=
  match calls with
  | [] => 0%nat
  | CallSummarize _ :: rest => S (summarizeCalls rest)
  | _ :: rest => summarizeCalls rest
  end.

(** The midpoint of a window. *)
Definition midpoint (windowStart windowEnd : Q) : Q :=
  (windowStart + windowEnd) / 2.

(** The client after a first request populated the cache for the window
    from -150 to 150. *)
Definition populated : t :=
  stateOf (getSummaryForTime (js "speaker discusses gravity") (-150) 150
             Demo.summarizerClient).

(** The cached entry does not pass the reuse test of the code. *)
Definition stale (sc : t) (ws we : Q) : Prop :=
  summaryTruthy (currentSummary sc) = false
  \/ ~ (we - ws) / 2 <= rangeEnd (currentSummaryTimeRange sc).

End CacheSpec.

(** ** Streaming answer session *)

Module AnswerSpec.
Import YouTubeAIAssistant.

(** The demo assistant with a session whose [promptStreaming] behaves as
    given, and a transcript source that answers as given. *)
Definition assistantWith (stream : PromptClient.StreamResult)
           (transcript : Res jsstring) : t :=
  {| promptClient :=
       Some {| PromptClient.session :=
                 Some {| PromptClient.prompt := fun _ _ _ => Ok Demo.listedQuestions;
                         PromptClient.promptStreaming := fun _ _ _ => stream;
                         PromptClient.append := Ok tt |};
               PromptClient.initialized := true |};
     summarizerClient := summarizerClient Demo.assistant;
     subtitleParser := Some {| getTranscriptChunk := fun _ _ => transcript |};
     uiOverlay := uiOverlay Demo.assistant;
     isInitialized := true; isRunning := true; lastTriggerTime := 0;
     videoElement := Some {| currentTime := 45; paused := false |};
     questionGenerationInterval := 30;
     transcriptBufferAhead := 30; summaryBuffer := 150 |}.

(** The overlay after the question [What is gravity?] of the window from
    30 to 60 was clicked and the answer request ran. *)
Definition overlayAfterClick (answerCall : AnswerCall) (a : t)
  : option UIOverlay.t :=
  uiOverlay (stateOf (handleQuestionClick answerCall (js "What is gravity?")
                        0 30 60 a)).

(** The text the answer view shows then, if it shows text. *)
Definition visibleAfterClick (answerCall : AnswerCall) (a : t)
  : option jsstring :=
  match overlayAfterClick answerCall a with
  | Some ui => UIOverlay.visibleAnswer ui
  | None => None
  end.

(** Sample data for the runs. *)
Definition transcriptOk : Res jsstring := Ok (js "speaker discusses gravity").

Definition threeChunks : list jsstring :=
  [js "Hi"; js "Hi there"; js "Hi there!"].

Definition gravityTurn : Turn :=
  {| role := user; content := js "What is gravity?" |}.

(** Streaming has ended, the answer view still shows the loading dots of
    the clicked question, and the conversation holds the user turn only. *)
Definition stuckOnLoading (ui : option UIOverlay.t) : Prop :=
  option_map UIOverlay.isStreaming ui = Some false
  /\ option_map UIOverlay.visibleAnswer ui = Some None
  /\ option_map UIOverlay.chatbox ui
     = Some (Some {| UIOverlay.questionBlock := js "What is gravity?";
                     UIOverlay.answerBlock := UIOverlay.Loading |})
  /\ option_map UIOverlay.conversationHistory ui = Some [gravityTurn].

End AnswerSpec.

(** ** Conversation *)

Module ConversationSpec.
Import YouTubeAIAssistant AssistantSpec TriggerSpec.

(** What can happen while a conversation is open, short of opening
    another question or closing the chatbox.  [FollowUp value]: the user
    sends the follow-up input with the text [value]. *)
Inductive Event :=
| PositionUpdate (time : Q)        (* the player reports a new position *)
| Cycle                            (* a generation cycle is started *)
| MouseEnter
| MouseLeave
| NavigateBackward
| NavigateForward
| AnswerChunk (text : jsstring)    (* updateChatboxContent(text) *)
| AnswerFinished (fullAnswer : option jsstring)   (* finishStreaming(...) *)
| FollowUpHandlerSet               (* setFollowUpQuestionHandler(...) *)
| FollowUp (value : jsstring).

Section Conversation.
Variable JSON_parse : jsstring -> option PromptClient.JSON.

(** The code an event runs. *)
Definition step (ev : Event) : Eff t unit :=
  match ev with
  | PositionUpdate time => timeupdate JSON_parse time
  | Cycle => updateQuestions JSON_parse
  | MouseEnter => onUI UIOverlay.onMouseEnter
  | MouseLeave => onUI UIOverlay.onMouseLeave
  | NavigateBackward => onUI UIOverlay.navigateBackward
  | NavigateForward => onUI UIOverlay.navigateForward
  | AnswerChunk text => onUI (UIOverlay.updateChatboxContent text)
  | AnswerFinished fullAnswer => onUI (UIOverlay.finishStreaming fullAnswer)
  | FollowUpHandlerSet => onUI UIOverlay.setFollowUpQuestionHandler
  | FollowUp value => onUI (UIOverlay.handleSendMessage value)
  end.

(** Events are dispatched one after the other; an exception in one
    listener does not reach the next. *)
Definition run (events : list Event) : Eff t unit :=
  forEach events (fun ev => detached (step ev)).

Variables (s e : option Q).

(** Every follow-up request carries the window [s], [e]. *)
Definition followUpsUse (c : Call) : Prop :=
  match c with
  | CallOnFollowUpQuestion _ s' e' => s' = s /\ e' = e
  | _ => True
  end.

(** The conversation opened with the window [s], [e] is open;
    [handler] asks for a registered follow-up handler as well. *)
Definition anchored (handler : bool) (ui : UIOverlay.t) : Prop :=
  UIOverlay.conversationContext ui
  = Some {| UIOverlay.ctxStartTime := s; UIOverlay.ctxEndTime := e |}
  /\ UIOverlay.chatbox ui <> None
  /\ (handler = true -> UIOverlay.onFollowUpQuestion ui = true).

(** The assistant has an overlay with that conversation open. *)
Definition open (handler : bool) : t -> Prop :=
  withOverlay (fun _ => True) (anchored handler).

End Conversation.

End ConversationSpec.

(** ** The text-extraction fallback, as the design document words it *)

Module FallbackSpec.

(** The text left after the longest prefix of characters that satisfy [p]. *)
Fixpoint dropWhile (p : N -> bool) (s : jsstring) : jsstring :=
  match s with
  | [] => []
  | c :: s' => if p c then dropWhile p s' else s
  end.

(** A numbered-list marker at the start of a line: one or more digits,
    then a dot.  [afterMarker line] is the text after the marker. *)
Definition afterMarker (line : jsstring) : option jsstring :=
  match line with
  | c :: rest =>
      if isDigit c then
        match dropWhile isDigit rest with
        | d :: text => if (d =? chDot)%N then Some text else None
        | [] => None
        end
      else None
  | [] => None
  end.

(** The line starts with a numbered-list marker. *)
Definition startsWithMarker (line : jsstring) : bool :=
  match afterMarker line with Some _ => true | None => false end.

(** Strip the numbering prefix: the marker and the white space after it. *)
Definition stripNumbering (line : jsstring) : jsstring :=
  match afterMarker line with
  | Some text => dropWhile isWhiteSpace text
  | None => line
  end.

(** A double quote or an apostrophe. *)
Definition isQuoteChar (c : N) : bool :=
  ((c =? chQuote) || (c =? chApostrophe))%N.

(** A quote at the very start. *)
Definition stripLeadingQuote (s : jsstring) : jsstring :=
  match s with
  | c :: rest => if isQuoteChar c then rest else s
  | [] => []
  end.

(** A quote at the very end, or a quote and a comma at the very end. *)
Definition stripTrailingQuote (s : jsstring) : jsstring :=
  match rev s with
  | c :: before =>
      if isQuoteChar c then rev before
      else if (c =? chComma)%N then
             match before with
             | q :: before' => if isQuoteChar q then rev before' else s
             | [] => s
             end
           else s
  | [] => s
  end.

(** Every backslash followed by the quote [q] becomes [q]. *)
Fixpoint unescape (q : N) (s : jsstring) : jsstring :=
  match s with
  | [] => []
  | c :: rest =>
      match rest with
      | d :: rest' =>
          if ((c =? chBackslash) && (d =? q))%N then q :: unescape q rest'
          else c :: unescape q rest
      | [] => [c]
      end
  end.

(** Clean the quoting artifacts of an item. *)
Definition cleanQuotes (s : jsstring) : jsstring :=
  trim (unescape chApostrophe
          (unescape chQuote
             (stripTrailingQuote (stripLeadingQuote (trim s))))).

(** The string has at least one character. *)
Definition nonEmpty (s : jsstring) : bool :=
  match s with [] => false | _ :: _ => true end.

(** A line is kept when it contains a question mark or starts with a
    numbered-list marker. *)
Definition kept (line : jsstring) : bool :=
  includes chQuestion line || startsWithMarker line.

(** Scan the lines: of the non-empty lines keep those that qualify, strip
    and clean each, and drop the items that became empty. *)
Fixpoint scan (lines : list jsstring) : list jsstring :=
  match lines with
  | [] => []
  | line :: rest =>
      if nonEmpty line && kept line then
        let item := cleanQuotes (stripNumbering line) in
        if nonEmpty item then item :: scan rest else scan rest
      else scan rest
  end.

(** At most the first three items. *)
Definition fallback (response : jsstring) : list jsstring :=
  firstn 3 (scan (split chNewline response)).

(** The input ends here, or after one comma. *)
Definition endsHere (s : jsstring) : bool :=
  match s with
  | [] => true
  | [d] => (d =? chComma)%N
  | _ => false
  end.

(** A response that is not JSON: a numbered and quoted question, a plain
    sentence, a blank line, a question in apostrophes, a bare number, an
    indented question and one question more. *)
Definition looseResponse : jsstring :=
  js "1. " ++ [chQuote] ++ js "What is gravity?" ++ [chQuote; chComma; chNewline]
  ++ js "The speaker talks." ++ [chNewline]
  ++ js "   " ++ [chNewline]
  ++ js "'Why do planets orbit?'" ++ [chNewline]
  ++ js "3." ++ [chNewline]
  ++ js "  Who found it?  " ++ [chNewline]
  ++ js "When?".

End FallbackSpec.

(** ** Overlay runs *)

Module OverlayRunSpec.
Import UIOverlay.

(** Everything that can be done to the overlay. *)
Inductive Action :=
| Deliver (qs : option (list Question)) (ts : Q)   (* updateQuestions *)
| HoverStart
| HoverEnd
| Back
| Forward
| Fail (message : jsstring)                        (* showError *)
| Ask (question : jsstring) (index : Z) (s e : Q)  (* handleQuestionClick *)
| Open (question : jsstring) (s e : option Q)      (* showChatbox *)
| Chunk (text : jsstring)                          (* updateChatboxContent *)
| Finish (fullAnswer : option jsstring)            (* finishStreaming *)
| Send (value : jsstring)                          (* handleSendMessage *)
| Close
| Destroy
| RegisterFollowUp.

(** The code an action runs.  The follow-up input is part of the chatbox:
    without a chatbox there is nothing to send from. *)
Definition perform (act : Action) : Eff t unit :=
  match act with
  | Deliver qs ts => updateQuestions qs ts
  | HoverStart => onMouseEnter
  | HoverEnd => onMouseLeave
  | Back => navigateBackward
  | Forward => navigateForward
  | Fail message => showError message
  | Ask question index s e => handleQuestionClick question index s e
  | Open question s e => showChatbox question s e
  | Chunk text => updateChatboxContent text
  | Finish fullAnswer => finishStreaming fullAnswer
  | Send value =>
      ui <- get ;;
      match chatbox ui with
      | Some _ => handleSendMessage value
      | None => ret tt
      end
  | Close => closeChatbox
  | Destroy => destroyChatbox
  | RegisterFollowUp => setFollowUpQuestionHandler
  end.

(** The actions one after the other; an exception ends the run. *)
Definition performAll (acts : list Action) : Eff t unit :=
  forEach acts perform.

(** The cursor is -1 on an empty log and a valid index otherwise. *)
Definition cursorValid (ui : t) : Prop :=
  (questionHistory ui = [] /\ currentQuestionGroupIndex ui = (-1)%Z)
  \/ (0 <= currentQuestionGroupIndex ui
      < Z.of_nat (length (questionHistory ui)))%Z.

(** The navigation buttons [renderCurrentQuestions] builds: none for a
    single group, else back disabled at the first group and forward
    disabled at the last. *)
Definition navFor (ui : t) : option (bool * bool) :=
  if (1 <? length (questionHistory ui))%nat
  then Some ((currentQuestionGroupIndex ui =? 0)%Z,
             (currentQuestionGroupIndex ui
              =? Z.of_nat (length (questionHistory ui)) - 1)%Z)
  else None.

(** What the list shows agrees with the log and the cursor: questions
    shown are the first three of the group under the cursor, with the
    buttons of [navFor]; the analyzing text is shown for an empty log. *)
Definition viewMatches (ui : t) : Prop :=
  match questionsList ui with
  | Some (Questions nav shown) =>
      exists g,
        nth_error (questionHistory ui)
          (Z.to_nat (currentQuestionGroupIndex ui)) = Some g
        /\ shown = firstn 3 (questions g)
        /\ nav = navFor ui
  | Some Analyzing => questionHistory ui = []
  | _ => True
  end.

(** A chatbox and a conversation context exist together. *)
Definition conversationPaired (ui : t) : Prop :=
  chatbox ui <> None <-> conversationContext ui <> None.

Definition consistent (ui : t) : Prop :=
  cursorValid ui
  /\ viewMatches ui
  /\ conversationPaired ui
  /\ Forall (fun g => questions g <> []) (questionHistory ui).

(** Sample data: a group of five questions. *)
Definition fiveQuestions : list Question :=
  map (fun n => {| text := js "Why?" ++ [n]; startTime := 30; endTime := 60 |})
      [49; 50; 51; 52; 53]%N.

(** Three groups delivered to a fresh overlay, then one step back: the
    cursor is on the middle group. *)
Definition threeGroups : t :=
  Eval vm_compute in
  stateOf (performAll [Deliver (Some fiveQuestions) 30;
                       Deliver (Some [OverlaySpec.gravityQuestion]) 60;
                       Deliver (Some [OverlaySpec.orbitQuestion]) 90;
                       Back] new).

End OverlayRunSpec.

(** ** Overlay controls *)

Module ControlSpec.
Import UIOverlay OverlayControls.

(** [toggleAI()] with no callback installed by the main script. *)
Definition toggleAIAlone : Eff Page unit :=
  toggleAI (fun _ m => m) None.

(** The user is not typing in one of the two input fields. *)
Definition notTyping (c : Chrome) : Prop :=
  isTypingIn (js "yt-ai-user-query-input") c = false
  /\ isTypingIn (js "ytai-followup-input") c = false.

(** A page with the toggle button created, AI on and a hovering user. *)
Definition hoveredPage : Page :=
  (setIsHovering true UIOverlay.new,
   setIsVisible true
     (setToggleButton (Some (js "true"))
        (newChrome {| accessible := true; stored := None |}))).

End ControlSpec.

(** ** Assistant life cycle *)

Module LifecycleSpec.
Import YouTubeAIAssistant AssistantLifecycle.

(** The overlay [u] has the toggle of [ui] and a log that extends the
    log of [ui]. *)
Definition keepsLog (ui u : UIOverlay.t) : Prop :=
  UIOverlay.aiEnabled u = UIOverlay.aiEnabled ui
  /\ exists added,
       UIOverlay.questionHistory u = UIOverlay.questionHistory ui ++ added.

(** The fields a restart settles. *)
Definition restarted (a : t) (found : option Video) (b : t) : Prop :=
  lastTriggerTime b = 0%Z
  /\ isRunning b = true
  /\ videoElement b = found
  /\ isInitialized b = isInitialized a
  /\ questionGenerationInterval b = questionGenerationInterval a
  /\ promptClient b = promptClient a.

(** A collaborator whose track refresh succeeds and changes nothing. *)
Definition sameTracks (sp : SubtitleParser) : Res SubtitleParser := Ok sp.


Definition pageVideo : Video := {| currentTime := 30; paused := false |}.

Definition buttonChrome : OverlayControls.Chrome :=
  OverlayControls.setToggleButton (Some (js "true"))
    (OverlayControls.newChrome
       {| OverlayControls.accessible := true;
          OverlayControls.stored := None |}).

Definition enabledWorld : World := (Demo.assistant, buttonChrome).

Definition disabledWorld : World :=
  (setUiOverlay (Some (OverlayControls.setAiEnabled false UIOverlay.new))
     Demo.assistant,
   buttonChrome).

End LifecycleSpec.

(** ** Answer streaming *)

Module StreamSpec.

(** A chunk callback that keeps every chunk it is given, in order. *)
Definition record (chunk : jsstring) : Eff (list jsstring) unit :=
  modify (fun seen => seen ++ [chunk]).

End StreamSpec.

(** ** Question parsing *)

Module QuestionSpec.
Import PromptClient.

(** A structured response with five questions, one of them blank. *)
Definition fiveStrings : list jsstring :=
  [js "What is gravity?"; js " Why do planets orbit? "; [];
   js "Who found it?"; js "When?"].

Definition structuredParse (_ : jsstring) : option JSON :=
  Some (JObject [(js "questions", JArray (map JString fiveStrings))]).

End QuestionSpec.

(** ** Summaries *)

Module SummarySpec.
Import SummarizerClient.

(** A client whose summarizer returns the empty string. *)
Definition emptySummarizer : t :=
  {| summarizer := Some (fun _ => Ok []);
     initialized := true;
     currentSummary := None;
     currentSummaryTimeRange := {| rangeStart := -1; rangeEnd := -1 |} |}.

End SummarySpec.

(** ** Translators *)

Module TranslatorSpec.
Import TranslatorClient.

Definition echo : Translator := fun text => Ok text.

(** An interface that serves every pair, and one that serves none. *)
Definition servingAPI : TranslatorAPI :=
  {| availability := fun _ _ => Ok (js "available");
     create := fun _ _ => Ok echo |}.

Definition failingAPI : TranslatorAPI :=
  {| availability := fun _ _ => Throw; create := fun _ _ => Throw |}.

Definition ready : t := {| translators := []; initialized := true |}.

End TranslatorSpec.

(** ** Generation cycle *)

Module CycleSpec.
Import YouTubeAIAssistant.

(** No summary is requested: there is no summarizer client, or it is not
    initialized. *)
Definition summaryOff (a : t) : Prop :=
  match summarizerClient a with
  | Some sc => SummarizerClient.initialized sc = false
  | None => True
  end.

(** A question with the window it was generated for. *)
Definition annotate (a : t) (video : Video) (q : jsstring)
  : UIOverlay.Question :=
  {| UIOverlay.text := q;
     UIOverlay.startTime := currentTime video;
     UIOverlay.endTime := currentTime video + transcriptBufferAhead a |}.

(** Sample data: the running assistant without a summarizer, with a
    generator that fails, and with a transcript source that fails. *)
Definition plainAssistant : t := setSummarizerClient None Demo.assistant.



Definition deafAssistant : t :=
  {| promptClient := promptClient Demo.assistant;
     summarizerClient := None;
     subtitleParser := Some {| getTranscriptChunk := fun _ _ => Throw |};
     uiOverlay := uiOverlay Demo.assistant;
     isInitialized := true; isRunning := true; lastTriggerTime := 0;
     videoElement := videoElement Demo.assistant;
     questionGenerationInterval := 30;
     transcriptBufferAhead := 30; summaryBuffer := 150 |}.

End CycleSpec.

(** ** Markdown *)

Module MarkdownSpec.
Import MarkdownParser.

(** A character that is no markup: not an asterisk, a hyphen or an
    underscore. *)
Definition plainChar (c : N) : bool :=
  negb ((c =? chAsterisk) || (c =? chHyphen) || (c =? chUnderscore))%N.

Definition plain (s : jsstring) : Prop := forallb plainChar s = true.

End MarkdownSpec.

(* ===================================================================== *)
(** * Properties *)
(* ===================================================================== *)

Ltac eff_unfold :=
  unfold bind, ret, modify, get, put, emit, throw, tryCatch, call, deref,
    zoom, resultOf, stateOf, callsOf in *.

(** ** Equations of the effect monad *)

Lemma bind_ret {S A B} (a : A) (k : A -> Eff S B) s :
  bind (ret a) k s = k a s.
Proof. unfold bind, ret. destruct (k a s) as [[r s'] tr]. reflexivity. Qed.

Lemma bind_get {S B} (k : S -> Eff S B) s :
  bind get k s = k s s.
Proof. unfold bind, get. destruct (k s s) as [[r s'] tr]. reflexivity. Qed.

Lemma bind_modify {S B} (f : S -> S) (k : unit -> Eff S B) s :
  bind (modify f) k s = k tt (f s).
Proof.
  unfold bind, modify. destruct (k tt (f s)) as [[r s'] tr]. reflexivity.
Qed.

Lemma bind_throw {S A B} (k : A -> Eff S B) s :
  bind throw k s = (Throw, s, []).
Proof. reflexivity. Qed.

Lemma bind_emit {S B} c (k : unit -> Eff S B) s :
  bind (emit c) k s
  = (resultOf (k tt s), stateOf (k tt s), c :: callsOf (k tt s)).
Proof.
  unfold bind, emit, resultOf, stateOf, callsOf.
  destruct (k tt s) as [[r s'] tr]. reflexivity.
Qed.

Lemma bind_assoc {S A B C} (m : Eff S A) (k : A -> Eff S B)
      (h : B -> Eff S C) s :
  bind (bind m k) h s = bind m (fun a => bind (k a) h) s.
Proof.
  unfold bind. destruct (m s) as [[[a |] s'] tr]; [| reflexivity].
  destruct (k a s') as [[[b |] s''] tr']; [| reflexivity].
  destruct (h b s'') as [[r s3] tr'']. rewrite app_assoc. reflexivity.
Qed.

Lemma bind_ok {S A B} (m : Eff S A) (k : A -> Eff S B) s a s' tr :
  m s = (Ok a, s', tr) ->
  bind m k s
  = (resultOf (k a s'), stateOf (k a s'), tr ++ callsOf (k a s')).
Proof.
  intros H. unfold bind, resultOf, stateOf, callsOf. rewrite H.
  destruct (k a s') as [[r s''] tr']. reflexivity.
Qed.

(** ** Invariants of effectful code *)

Section Sound.
Context {S : Type} (I : S -> Prop) (Pc : Call -> Prop).

Lemma sound_ret A (a : A) : sound I Pc (ret a).
Proof. intros s H. split; [exact H | constructor]. Qed.

Lemma sound_throw A : sound I Pc (@throw S A).
Proof. intros s H. split; [exact H | constructor]. Qed.

Lemma sound_get : sound I Pc get.
Proof. intros s H. split; [exact H | constructor]. Qed.

Lemma sound_deref A (o : option A) : sound I Pc (deref o).
Proof. destruct o; [apply sound_ret | apply sound_throw]. Qed.

Lemma sound_emit c : Pc c -> sound I Pc (emit c).
Proof. intros Hc s H. split; [exact H | repeat constructor; exact Hc]. Qed.

Lemma sound_call A c (r : Res A) : Pc c -> sound I Pc (call c r).
Proof. intros Hc s H. split; [exact H | repeat constructor; exact Hc]. Qed.

Lemma sound_modify f : (forall s, I s -> I (f s)) -> sound I Pc (modify f).
Proof. intros Hf s H. split; [apply Hf; exact H | constructor]. Qed.

Lemma sound_bind A B (m : Eff S A) (k : A -> Eff S B) :
  sound I Pc m -> (forall a, sound I Pc (k a)) -> sound I Pc (bind m k).
Proof.
  intros Hm Hk s H. unfold bind, stateOf, callsOf in *.
  specialize (Hm s H). destruct (m s) as [[[a |] s'] tr]; simpl in *.
  - destruct Hm as [HI Htr]. specialize (Hk a s' HI).
    destruct (k a s') as [[r s''] tr']; simpl in *.
    destruct Hk as [HI' Htr']. split; [exact HI' |].
    apply Forall_app; split; assumption.
  - exact Hm.
Qed.

(** Reading the state first: the continuation may rely on the snapshot
    satisfying the invariant. *)
Lemma sound_bind_get B (k : S -> Eff S B) :
  (forall s0, I s0 -> sound I Pc (k s0)) -> sound I Pc (bind get k).
Proof.
  intros Hk s H. unfold bind, get, stateOf, callsOf in *.
  specialize (Hk s H s H). destruct (k s s) as [[r s''] tr']. exact Hk.
Qed.

Lemma sound_tryCatch A (m h : Eff S A) :
  sound I Pc m -> sound I Pc h -> sound I Pc (tryCatch m h).
Proof.
  intros Hm Hh s H. unfold tryCatch, stateOf, callsOf in *.
  specialize (Hm s H). destruct (m s) as [[[a |] s'] tr]; simpl in *.
  - exact Hm.
  - destruct Hm as [HI Htr]. specialize (Hh s' HI).
    destruct (h s') as [[r s''] tr']; simpl in *.
    destruct Hh as [HI' Htr']. split; [exact HI' |].
    apply Forall_app; split; assumption.
Qed.

Lemma sound_forEach A (xs : list A) (body : A -> Eff S unit) :
  (forall x, sound I Pc (body x)) -> sound I Pc (forEach xs body).
Proof.
  intros Hb. induction xs as [| x xs IH]; simpl.
  - apply sound_ret.
  - apply sound_bind; [apply Hb | intros _; exact IH].
Qed.

End Sound.

Lemma sound_weaken {S A} (I : S -> Prop) (Pc Pc' : Call -> Prop) (m : Eff S A) :
  (forall c, Pc c -> Pc' c) -> sound I Pc m -> sound I Pc' m.
Proof.
  intros Hw Hm s H. destruct (Hm s H) as [HI Htr]. split; [exact HI |].
  eapply Forall_impl; eauto.
Qed.

Create HintDb sound.

#[global] Hint Resolve sound_ret sound_throw sound_get sound_deref sound_emit
  sound_call sound_modify sound_bind sound_tryCatch sound_forEach : sound.

(** ** Strings *)

Module StringFacts.

Lemma trimStart_nil s :
  trimStart s = [] <-> forallb isWhiteSpace s = true.
Proof.
  induction s as [| c s IH]; simpl; [tauto |].
  destruct (isWhiteSpace c); simpl; [exact IH |].
  split; discriminate.
Qed.

Lemma forallb_rev {A} (p : A -> bool) (l : list A) :
  forallb p (rev l) = forallb p l.
Proof.
  induction l as [| x l IH]; simpl; [reflexivity |].
  rewrite forallb_app, IH. simpl. rewrite andb_true_r. apply andb_comm.
Qed.

Lemma rev_nil_iff {A} (l : list A) : rev l = [] <-> l = [].
Proof.
  split; intros H; [| subst; reflexivity].
  rewrite <- (rev_involutive l), H. reflexivity.
Qed.

(** What [trimStart] leaves starts with a character that is not white
    space. *)
Lemma trimStart_head s c rest :
  trimStart s = c :: rest -> isWhiteSpace c = false.
Proof.
  induction s as [| d s IH]; simpl; [discriminate |].
  destruct (isWhiteSpace d) eqn:E; [exact IH |].
  intros H. injection H as <- _. exact E.
Qed.

Lemma trim_nil s : trim s = [] <-> forallb isWhiteSpace s = true.
Proof.
  unfold trim, trimEnd. split.
  - intros H. apply (proj1 (rev_nil_iff _)) in H.
    apply (proj1 (trimStart_nil _)) in H.
    rewrite forallb_rev in H. apply trimStart_nil.
    destruct (trimStart s) as [| c rest] eqn:E; [reflexivity |].
    apply trimStart_head in E. simpl in H. rewrite E in H. discriminate.
  - intros H. apply trimStart_nil in H. rewrite H. reflexivity.
Qed.

(** [isBlank]: the empty string and the strings of white space only. *)
Lemma isBlank_spec s : isBlank s = forallb isWhiteSpace s.
Proof.
  unfold isBlank. destruct s as [| c s]; [reflexivity |].
  cbn [truthy negb orb].
  destruct (forallb isWhiteSpace (c :: s)) eqn:E.
  - apply trim_nil in E. rewrite E. reflexivity.
  - destruct (trim (c :: s)) eqn:T; [| reflexivity].
    apply trim_nil in T. congruence.
Qed.

End StringFacts.

(** ** Question history log and update gate *)

Module OverlayFacts.
Import UIOverlay OverlaySpec.

Lemma updateQuestions_hovering ui qs ts :
  isHovering ui = true ->
  updateQuestions qs ts ui
  = (Ok tt,
     setPendingQuestions
       (Some {| pendingList := qs; pendingTimestamp := ts |}) ui,
     []).
Proof.
  intros H. unfold updateQuestions. eff_unfold. rewrite H. reflexivity.
Qed.

Lemma updateQuestions_append ui q rest ts :
  isHovering ui = false ->
  let r := updateQuestions (Some (q :: rest)) ts ui in
  resultOf r = Ok tt
  /\ questionHistory (stateOf r)
     = questionHistory ui ++ [{| questions := q :: rest; timestamp := ts |}]
  /\ currentQuestionGroupIndex (stateOf r)
     = (Z.of_nat (length (questionHistory (stateOf r))) - 1)%Z
  /\ pendingQuestions (stateOf r) = pendingQuestions ui
  /\ isHovering (stateOf r) = false
  /\ rendersGroup (questionsList ui) (questionsList (stateOf r)) (q :: rest).
Proof.
  intros H. unfold updateQuestions, renderCurrentQuestions, rendersGroup.
  eff_unfold. rewrite H. simpl.
  destruct (questionsList ui) eqn:E; simpl.
  2: { repeat split; auto. }
  rewrite length_app. simpl.
  replace (length (questionHistory ui) + 1 =? 0)%nat with false
    by (symmetry; apply Nat.eqb_neq; lia).
  replace (Z.of_nat (length (questionHistory ui) + 1) - 1 <? 0)%Z with false
    by (symmetry; apply Z.ltb_ge; lia).
  simpl.
  replace (Z.to_nat (Z.of_nat (length (questionHistory ui) + 1) - 1))
    with (length (questionHistory ui)) by lia.
  rewrite nth_error_app2 by lia. rewrite Nat.sub_diag. simpl.
  rewrite length_app. simpl.
  repeat split; auto. eexists. reflexivity.
Qed.

Lemma updateQuestions_empty ui qs ts :
  isHovering ui = false ->
  qs = None \/ qs = Some [] ->
  let r := updateQuestions qs ts ui in
  questionHistory (stateOf r) = questionHistory ui
  /\ currentQuestionGroupIndex (stateOf r) = currentQuestionGroupIndex ui
  /\ pendingQuestions (stateOf r) = pendingQuestions ui.
Proof.
  intros H Hqs. unfold updateQuestions, renderCurrentQuestions.
  eff_unfold. rewrite H.
  destruct Hqs as [-> | ->]; simpl;
    (destruct (questionsList ui); simpl; [| repeat split]);
    (destruct ((length (questionHistory ui) =? 0)%nat
               || (currentQuestionGroupIndex ui <? 0)%Z); simpl;
     [repeat split |]);
    (destruct (nth_error (questionHistory ui)
                 (Z.to_nat (currentQuestionGroupIndex ui))); simpl;
     repeat split).
Qed.

(** C6.  History navigation bounds and append-reset: [navigateBackward]
    with the cursor at index 0 changes nothing, [navigateForward] with the
    cursor at the last index changes nothing, and an update with a
    non-empty group that is applied (the user is not hovering) appends the
    group and puts the cursor on the new last index. *)
Theorem history_navigation_bounds (ui : t) :
  (currentQuestionGroupIndex ui = 0%Z ->
   navigateBackward ui = (Ok tt, ui, []))
  /\ (currentQuestionGroupIndex ui
      = (Z.of_nat (length (questionHistory ui)) - 1)%Z ->
      navigateForward ui = (Ok tt, ui, []))
  /\ (forall q rest ts,
        isHovering ui = false ->
        let r := updateQuestions (Some (q :: rest)) ts ui in
        resultOf r = Ok tt
        /\ questionHistory (stateOf r)
           = questionHistory ui
             ++ [{| questions := q :: rest; timestamp := ts |}]
        /\ currentQuestionGroupIndex (stateOf r)
           = (Z.of_nat (length (questionHistory (stateOf r))) - 1)%Z).
Proof.
  split; [| split].
  - intros H. unfold navigateBackward. eff_unfold. rewrite H. reflexivity.
  - intros H. unfold navigateForward. eff_unfold. rewrite H.
    rewrite Z.ltb_irrefl. reflexivity.
  - intros q rest ts H.
    destruct (updateQuestions_append ui q rest ts H) as (R & Hh & Hi & _).
    repeat split; assumption.
Qed.

Lemma history_navigation_bounds_witness :
  navigateBackward oneGroup = (Ok tt, oneGroup, [])
  /\ navigateForward oneGroup = (Ok tt, oneGroup, [])
  /\ currentQuestionGroupIndex
       (stateOf (updateQuestions (Some [orbitQuestion]) 60 oneGroup)) = 1%Z.
Proof.
  destruct (history_navigation_bounds oneGroup) as (B & F & A).
  split; [apply B; reflexivity |].
  split; [apply F; reflexivity |].
  destruct (A orbitQuestion [] 60 eq_refl) as (_ & _ & I).
  exact I.
Defined.

(** C10.  Delivering an empty or absent list of questions while the user
    is not hovering records nothing: the history log and the cursor are
    unchanged.  Whatever is delivered, the log either stays as it was or
    grows by exactly the delivered non-empty group. *)
Theorem empty_update_records_nothing (ui : t) (ts : Q) :
  isHovering ui = false ->
  (forall qs, qs = None \/ qs = Some [] ->
     questionHistory (stateOf (updateQuestions qs ts ui)) = questionHistory ui
     /\ currentQuestionGroupIndex (stateOf (updateQuestions qs ts ui))
        = currentQuestionGroupIndex ui)
  /\ (forall qs,
        questionHistory (stateOf (updateQuestions qs ts ui))
        = questionHistory ui
        \/ exists q rest,
            qs = Some (q :: rest)
            /\ questionHistory (stateOf (updateQuestions qs ts ui))
               = questionHistory ui
                 ++ [{| questions := q :: rest; timestamp := ts |}]).
Proof.
  intros H. split.
  - intros qs Hqs.
    destruct (updateQuestions_empty ui ts H Hqs) as (Hh & Hi & _).
    split; assumption.
  - intros [[| q rest] |].
    + left. apply (updateQuestions_empty ui ts H). right. reflexivity.
    + right. exists q, rest. split; [reflexivity |].
      apply (updateQuestions_append ui q rest ts H).
    + left. apply (updateQuestions_empty ui ts H). left. reflexivity.
Qed.

Lemma empty_update_records_nothing_witness :
  questionHistory (stateOf (updateQuestions (Some []) 90 oneGroup))
  = questionHistory oneGroup
  /\ currentQuestionGroupIndex (stateOf (updateQuestions None 90 oneGroup))
     = 0%Z.
Proof.
  destruct (empty_update_records_nothing oneGroup 90 eq_refl) as (E & _).
  split.
  - apply (E (Some [])). right. reflexivity.
  - apply (E None). left. reflexivity.
Defined.

Lemma renderCurrentQuestions_frame ui :
  let r := renderCurrentQuestions ui in
  isHovering (stateOf r) = isHovering ui
  /\ pendingQuestions (stateOf r) = pendingQuestions ui
  /\ questionHistory (stateOf r) = questionHistory ui
  /\ currentQuestionGroupIndex (stateOf r) = currentQuestionGroupIndex ui.
Proof.
  unfold renderCurrentQuestions. eff_unfold.
  destruct (questionsList ui); simpl; [| repeat split].
  destruct ((length (questionHistory ui) =? 0)%nat
            || (currentQuestionGroupIndex ui <? 0)%Z); simpl;
    [repeat split |].
  destruct (nth_error (questionHistory ui)
              (Z.to_nat (currentQuestionGroupIndex ui))); simpl;
    repeat split.
Qed.

Lemma updateQuestions_idle ui qs ts :
  isHovering ui = false ->
  let r := updateQuestions qs ts ui in
  isHovering (stateOf r) = false
  /\ pendingQuestions (stateOf r) = pendingQuestions ui
  /\ questionHistory (stateOf r) = questionHistory ui ++ recorded qs ts.
Proof.
  intros H. destruct qs as [[| q rest] |]; simpl.
  - destruct (updateQuestions_empty ui ts H (or_intror eq_refl)) as (Hh & _ & Hp).
    rewrite app_nil_r. repeat split; auto.
    unfold updateQuestions. unfold bind at 1. unfold get at 1. rewrite H.
    unfold bind at 1. unfold ret at 1. 
    pose proof (renderCurrentQuestions_frame ui) as (F & _). unfold stateOf in *.
    destruct (renderCurrentQuestions ui) as [[? ?] ?]. simpl in *. congruence.
  - destruct (updateQuestions_append ui q rest ts H) as (_ & Hh & _ & Hp & Hv & _).
    repeat split; auto.
  - destruct (updateQuestions_empty ui ts H (or_introl eq_refl)) as (Hh & _ & Hp).
    rewrite app_nil_r. repeat split; auto.
    unfold updateQuestions. unfold bind at 1. unfold get at 1. rewrite H.
    unfold bind at 1. unfold ret at 1. 
    pose proof (renderCurrentQuestions_frame ui) as (F & _). unfold stateOf in *.
    destruct (renderCurrentQuestions ui) as [[? ?] ?]. simpl in *. congruence.
Qed.

(** C4.  Gate deferral, latest wins.  When two groups A and B are
    delivered in that order while the user hovers, nothing is delivered
    and only B is held in the single pending slot.  When hovering ends, B
    alone is passed on: the history log is the old log followed by B (an
    empty B is passed on and records nothing, see C10), the cursor is on
    B and B is rendered.  A appears nowhere: it is discarded. *)
Theorem gate_latest_wins (ui : t) (A B : option (list Question)) (tsA tsB : Q) :
  isHovering ui = true ->
  let held := stateOf ((updateQuestions A tsA ;; updateQuestions B tsB) ui) in
  let r := onMouseLeave held in
  (pendingQuestions held
   = Some {| pendingList := B; pendingTimestamp := tsB |}
   /\ questionHistory held = questionHistory ui
   /\ currentQuestionGroupIndex held = currentQuestionGroupIndex ui
   /\ questionsList held = questionsList ui)
  /\ isHovering (stateOf r) = false
  /\ questionHistory (stateOf r) = questionHistory ui ++ recorded B tsB
  /\ (forall q rest,
        B = Some (q :: rest) ->
        resultOf r = Ok tt
        /\ pendingQuestions (stateOf r) = None
        /\ currentQuestionGroupIndex (stateOf r)
           = (Z.of_nat (length (questionHistory (stateOf r))) - 1)%Z
        /\ rendersGroup (questionsList ui) (questionsList (stateOf r))
             (q :: rest)).
Proof.
  intros H held r.
  assert (Hheld : held
                  = setPendingQuestions
                      (Some {| pendingList := B; pendingTimestamp := tsB |})
                      (setPendingQuestions
                         (Some {| pendingList := A; pendingTimestamp := tsA |})
                         ui)).
  { subst held. unfold bind, stateOf.
    rewrite (updateQuestions_hovering _ A tsA H).
    rewrite updateQuestions_hovering by exact H. reflexivity. }
  split; [rewrite Hheld; repeat split |].
  set (idle := setIsHovering false held).
  assert (Hidle : isHovering idle = false) by reflexivity.
  assert (Hr : r = match updateQuestions B tsB idle with
                   | (Ok _, s', tr) => (Ok tt, setPendingQuestions None s', tr ++ [])
                   | (Throw, s', tr) => (Throw, s', tr)
                   end).
  { subst r. unfold onMouseLeave. unfold bind at 1. unfold modify at 1.
    unfold bind at 1. unfold get at 1. fold idle.
    replace (pendingQuestions idle)
      with (Some {| pendingList := B; pendingTimestamp := tsB |})
      by (subst idle; rewrite Hheld; reflexivity).
    simpl. unfold bind, modify.
    destruct (updateQuestions B tsB idle) as [[[[] |] s'] tr]; reflexivity. }
  assert (Hq : questionHistory idle = questionHistory ui)
    by (subst idle; rewrite Hheld; reflexivity).
  assert (Hl : questionsList idle = questionsList ui)
    by (subst idle; rewrite Hheld; reflexivity).
  destruct (updateQuestions_idle idle B tsB Hidle) as (I1 & I2 & I3).
  rewrite Hq in I3.
  split; [| split].
  - rewrite Hr. unfold stateOf in *.
    destruct (updateQuestions B tsB idle) as [[[[] |] s'] tr]; simpl in *; assumption.
  - rewrite Hr. unfold stateOf in *.
    destruct (updateQuestions B tsB idle) as [[[[] |] s'] tr]; simpl in *; assumption.
  - intros q rest ->.
    destruct (updateQuestions_append idle q rest tsB Hidle)
      as (R & Hh & Hi & _ & _ & Hv).
    rewrite Hl in Hv.
    rewrite Hr. unfold stateOf, resultOf in *.
    destruct (updateQuestions (Some (q :: rest)) tsB idle) as [[[[] |] s'] tr];
      simpl in *; [| discriminate].
    repeat split; assumption.
Qed.

Lemma gate_latest_wins_witness :
  let hovering := stateOf (onMouseEnter oneGroup) in
  let held :=
    stateOf ((updateQuestions (Some [gravityQuestion]) 60 ;;
              updateQuestions (Some [orbitQuestion]) 90) hovering) in
  questionHistory (stateOf (onMouseLeave held))
  = [{| questions := [gravityQuestion]; timestamp := 30 |};
     {| questions := [orbitQuestion]; timestamp := 90 |}].
Proof.
  intros hovering held.
  destruct (gate_latest_wins hovering (Some [gravityQuestion])
              (Some [orbitQuestion]) 60 90 eq_refl) as (_ & _ & Hh & _).
  exact Hh.
Defined.

End OverlayFacts.

(** ** Generation cycles keep what they do not own *)

Module AssistantFacts.
Import YouTubeAIAssistant AssistantSpec.

Section Lifting.
Variables (J : t -> Prop) (Iu : UIOverlay.t -> Prop) (Pc : Call -> Prop).
Hypothesis Jstable : componentStable J.

Lemma sound_onUI A (m : Eff UIOverlay.t A) :
  sound Iu Pc m -> sound (withOverlay J Iu) Pc (onUI m).
Proof.
  intros Hm a (HJ & ui & Hui & HI). unfold onUI, stateOf, callsOf in *.
  rewrite Hui. specialize (Hm ui HI).
  destruct (m ui) as [[r ui'] tr]; simpl in *. destruct Hm as [HI' Htr].
  split; [| exact Htr]. split; [apply Jstable; exact HJ |].
  exists ui'. split; [reflexivity | exact HI'].
Qed.

Lemma sound_onSummarizer A (m : Eff SummarizerClient.t A) :
  sound (fun _ => True) Pc m -> sound (withOverlay J Iu) Pc (onSummarizer m).
Proof.
  intros Hm a (HJ & ui & Hui & HI). unfold onSummarizer, stateOf, callsOf in *.
  destruct (summarizerClient a) as [sc |]; simpl.
  - specialize (Hm sc Logic.I).
    destruct (m sc) as [[r sc'] tr]; simpl in *. destruct Hm as [_ Htr].
    split; [| exact Htr]. split; [apply Jstable; exact HJ |].
    exists ui. split; [exact Hui | exact HI].
  - split; [| constructor]. split; [exact HJ |]. exists ui. auto.
Qed.

End Lifting.

Lemma sound_getSummaryForTime I text ws we :
  (forall sc x r, I sc -> I (SummarizerClient.setCache x r sc)) ->
  sound I cycleCall (SummarizerClient.getSummaryForTime text ws we).
Proof.
  intros HI. unfold SummarizerClient.getSummaryForTime.
  apply sound_bind_get. intros sc Hsc.
  destruct (if SummarizerClient.initialized sc
            then SummarizerClient.summarizer sc else None);
    [| apply sound_ret].
  destruct (SummarizerClient.summaryTruthy _ && _).
  - apply sound_bind; [apply sound_emit; exact Logic.I | intros; apply sound_ret].
  - apply sound_bind; [apply sound_emit; exact Logic.I | intros _].
    apply sound_tryCatch; [| apply sound_ret].
    destruct (isBlank text); [apply sound_ret |].
    apply sound_bind; [apply sound_call; exact Logic.I | intros summary].
    apply sound_bind; [apply sound_modify; intros; apply HI; assumption |].
    intros; apply sound_ret.
Qed.

Lemma sound_generateQuestions S F (I : S -> Prop) JP pc transcript summary
      (frame : option F) :
  sound I cycleCall (PromptClient.generateQuestions JP pc transcript summary frame).
Proof.
  unfold PromptClient.generateQuestions.
  destruct (if PromptClient.initialized pc then PromptClient.session pc else None);
    [| apply sound_ret].
  apply sound_tryCatch; [| apply sound_ret].
  apply sound_bind.
  - destruct frame; [apply sound_call; exact Logic.I | apply sound_ret].
  - intros _. apply sound_bind; [apply sound_call; exact Logic.I |].
    intros; apply sound_ret.
Qed.

(** *** What a question update leaves alone *)

Lemma renderCurrentQuestions_session ui :
  sameSession ui (stateOf (UIOverlay.renderCurrentQuestions ui))
  /\ callsOf (UIOverlay.renderCurrentQuestions ui) = [].
Proof.
  unfold UIOverlay.renderCurrentQuestions, sameSession. eff_unfold.
  destruct (UIOverlay.questionsList ui); simpl; [| repeat split].
  destruct ((length (UIOverlay.questionHistory ui) =? 0)%nat
            || (UIOverlay.currentQuestionGroupIndex ui <? 0)%Z); simpl;
    [repeat split |].
  destruct (nth_error (UIOverlay.questionHistory ui)
              (Z.to_nat (UIOverlay.currentQuestionGroupIndex ui))); simpl;
    repeat split.
Qed.

Lemma updateQuestions_session qs ts ui :
  sameSession ui (stateOf (UIOverlay.updateQuestions qs ts ui))
  /\ callsOf (UIOverlay.updateQuestions qs ts ui) = [].
Proof.
  unfold UIOverlay.updateQuestions. rewrite bind_get.
  destruct (UIOverlay.isHovering ui).
  - unfold sameSession. repeat split.
  - destruct qs as [[| q rest] |];
      rewrite ?bind_assoc, ?bind_modify, ?bind_ret;
      match goal with |- context [UIOverlay.renderCurrentQuestions ?x] =>
        pose proof (renderCurrentQuestions_session x) as [R C];
        unfold stateOf, callsOf in *;
        destruct (UIOverlay.renderCurrentQuestions x) as [[r s] tr]
      end;
      simpl in *; split; assumption.
Qed.

Lemma showError_session m ui :
  sameSession ui (stateOf (UIOverlay.showError m ui))
  /\ callsOf (UIOverlay.showError m ui) = [].
Proof.
  unfold UIOverlay.showError, sameSession. eff_unfold.
  destruct (UIOverlay.questionsList ui); simpl; repeat split.
Qed.


Lemma sound_session (Iu : UIOverlay.t -> Prop) A (m : Eff UIOverlay.t A) Pc :
  (forall ui ui', sameSession ui ui' -> Iu ui -> Iu ui') ->
  (forall ui, sameSession ui (stateOf (m ui)) /\ callsOf (m ui) = []) ->
  sound Iu Pc m.
Proof.
  intros HI Hm ui H. destruct (Hm ui) as [Hs Hc].
  split; [eapply HI; eauto | rewrite Hc; constructor].
Qed.

Section Cycle.
Variable JSON_parse : jsstring -> option PromptClient.JSON.
Variables (J : t -> Prop) (Iu : UIOverlay.t -> Prop).
Hypothesis Jstable : componentStable J.
Hypothesis Iu_updateQuestions :
  forall qs ts, sound Iu cycleCall (UIOverlay.updateQuestions qs ts).
Hypothesis Iu_showError :
  forall m, sound Iu cycleCall (UIOverlay.showError m).

Lemma sound_fetchTranscript s e :
  sound (withOverlay J Iu) cycleCall (fetchTranscript s e).
Proof.
  unfold fetchTranscript. apply sound_bind_get. intros a _.
  apply sound_bind; [apply sound_deref |].
  intros sp. apply sound_call. exact Logic.I.
Qed.

Lemma sound_summaryFor s e :
  sound (withOverlay J Iu) cycleCall (summaryFor s e).
Proof.
  unfold summaryFor. apply sound_bind; [apply sound_fetchTranscript |].
  intros text. apply sound_onSummarizer; [exact Jstable |].
  apply sound_getSummaryForTime. auto.
Qed.

(** A generation cycle keeps every such invariant and makes only cycle
    calls. *)
Lemma sound_updateQuestions :
  sound (withOverlay J Iu) cycleCall (updateQuestions JSON_parse).
Proof.
  unfold updateQuestions. apply sound_bind_get. intros a _.
  destruct (negb (isInitialized a)); [apply sound_ret |].
  apply sound_tryCatch.
  - apply sound_bind; [apply sound_deref | intros video].
    apply sound_bind; [apply sound_fetchTranscript | intros transcript].
    destruct (isBlank transcript); [apply sound_ret |].
    apply sound_bind.
    + destruct (summarizerClient a) as [sc |]; [| apply sound_ret].
      destruct (SummarizerClient.initialized sc);
        [apply sound_summaryFor | apply sound_ret].
    + intros videoSummary.
      apply sound_bind; [apply sound_deref | intros pc].
      apply sound_bind; [apply sound_generateQuestions | intros questions].
      apply sound_onUI; [exact Jstable | apply Iu_updateQuestions].
  - apply sound_onUI; [exact Jstable | apply Iu_showError].
Qed.

End Cycle.

End AssistantFacts.

(** ** Trigger scheduler *)

Module TriggerFacts.
Import YouTubeAIAssistant AssistantSpec AssistantFacts TriggerSpec.

Lemma fired_app xs ys : fired (xs ++ ys) = fired xs ++ fired ys.
Proof.
  induction xs as [| c xs IH]; simpl; [reflexivity |].
  destruct c as [| | | | | | | []]; simpl; rewrite ?IH; reflexivity.
Qed.

Lemma fired_cycle calls : Forall cycleCall calls -> fired calls = [].
Proof.
  induction 1 as [| c calls Hc _ IH]; simpl; [reflexivity |].
  destruct c as [| | | | | | | []]; simpl in *; try exact IH; contradiction.
Qed.

Section Trigger.
Variable JSON_parse : jsstring -> option PromptClient.JSON.

Lemma timeupdate_step a time :
  playing a ->
  let r := timeupdate JSON_parse time a in
  let f := Qfloor time in
  resultOf r = Ok tt
  /\ playing (stateOf r)
  /\ lastTriggerTime (stateOf r) = (if fires a f then f else lastTriggerTime a)
  /\ fired (callsOf r) = (if fires a f then [f] else []).
Proof.
  intros (Hrun & Hint & ui & Hui & Hen). cbv zeta.
  unfold timeupdate. rewrite bind_modify.
  unfold handleVideoTimeUpdate. rewrite bind_get.
  cbn [isRunning setVideoElement videoElement paused currentTime
       questionGenerationInterval lastTriggerTime].
  rewrite Hrun, Hint. cbn [paused currentTime].
  set (a1 := setVideoElement _ a).
  assert (Hen1 : onUI UIOverlay.isAIEnabled a1
                 = (Ok true, setUiOverlay (Some ui) a1, [])).
  { unfold onUI. subst a1. cbn [uiOverlay setVideoElement]. rewrite Hui.
    unfold UIOverlay.isAIEnabled. rewrite bind_get. unfold ret.
    rewrite Hen. reflexivity. }
  match goal with
  | |- context [bind ?m ?k a1] => rewrite (@bind_ok _ _ _ m k a1 _ _ _ Hen1)
  end.
  cbn [negb app].
  set (a2 := setUiOverlay (Some ui) a1).
  assert (Hrem : ((0 <? Qfloor time)%Z
                  && (Z.rem (Qfloor time) 30 =? 0)%Z
                  && negb (Qfloor time =? lastTriggerTime a)%Z)
                 = fires a (Qfloor time)).
  { unfold fires. destruct (0 <? Qfloor time)%Z eqn:Hpos; [| reflexivity].
    apply Z.ltb_lt in Hpos. rewrite Z.rem_mod_nonneg by lia. reflexivity. }
  rewrite Hrem.
  assert (Hplay2 : playing a2).
  { repeat split; try assumption. exists ui. split; [reflexivity | exact Hen]. }
  destruct (fires a (Qfloor time)).
  - rewrite bind_emit, bind_modify.
    unfold resultOf at 1 2. unfold stateOf at 1 2 3 4. unfold callsOf at 1 2.
    cbn [fst snd].
    set (J := fun b : t => isRunning b = true
                           /\ questionGenerationInterval b = 30%Z
                           /\ lastTriggerTime b = Qfloor time).
    assert (HJ : componentStable J).
    { split; intros b x (H1 & H2 & H3); repeat split; assumption. }
    assert (Hs : sound (withOverlay J (fun u => UIOverlay.aiEnabled u = true))
                   cycleCall (detached (updateQuestions JSON_parse))).
    { apply sound_tryCatch; [| apply sound_ret].
      apply sound_updateQuestions; [exact HJ | |].
      - intros qs ts. eapply sound_session;
          [| intros u; apply updateQuestions_session].
        intros u u' (E & _) H. congruence.
      - intros m. eapply sound_session;
          [| intros u; apply showError_session].
        intros u u' (E & _) H. congruence. }
    specialize (Hs (setLastTriggerTime (Qfloor time) a2)).
    destruct Hs as [((H1 & H2 & H3) & ui' & Hui' & Hen') Hcalls].
    { split; [repeat split; assumption |].
      exists ui. split; [reflexivity | exact Hen]. }
    assert (Hok : resultOf (detached (updateQuestions JSON_parse)
                              (setLastTriggerTime (Qfloor time) a2)) = Ok tt).
    { unfold detached, tryCatch, ret, resultOf.
      destruct (updateQuestions JSON_parse _) as [[[[] |] s'] tr]; reflexivity. }
    unfold resultOf, stateOf, callsOf in *.
    destruct (detached (updateQuestions JSON_parse) _) as [[r s'] tr].
    simpl in *.
    split; [exact Hok |]. split; [| split; [exact H3 |]].
    + repeat split; try assumption. exists ui'. auto.
    + simpl. rewrite fired_cycle by exact Hcalls. reflexivity.
  - simpl. repeat split; try assumption. exists ui. auto.
Qed.

Lemma specFires_step a f rest :
  specFires 30 (lastFiredOf a) (f :: rest)
  = if fires a f then f :: specFires 30 (Some f) rest
    else specFires 30 (lastFiredOf a) rest.
Proof.
  simpl. unfold fires.
  destruct (0 <? f)%Z eqn:Hpos; [| reflexivity].
  destruct (f mod 30 =? 0)%Z; [| reflexivity]. simpl.
  apply Z.ltb_lt in Hpos. unfold lastFiredOf.
  destruct (lastTriggerTime a =? 0)%Z eqn:H0; simpl; [| reflexivity].
  apply Z.eqb_eq in H0. rewrite H0.
  replace (f =? 0)%Z with false by (symmetry; apply Z.eqb_neq; lia).
  reflexivity.
Qed.

Lemma setUiOverlay_same a ui : uiOverlay a = Some ui -> setUiOverlay (Some ui) a = a.
Proof. intros H. destruct a; cbn in *. subst. reflexivity. Qed.

Lemma detached_ok {S} (m : Eff S unit) s : resultOf (detached m s) = Ok tt.
Proof.
  unfold detached, tryCatch, ret, resultOf.
  destruct (m s) as [[[[] |] s'] tr]; reflexivity.
Qed.

(** One position update, exactly: when the condition holds, the log
    line, then the whole run of the generation cycle from the state with
    the new position and the stored floor; otherwise only the position. *)
Lemma timeupdate_exact a time :
  playing a ->
  timeupdate JSON_parse time a
  = if fires a (Qfloor time)
    then
      let cycle :=
        detached (updateQuestions JSON_parse)
          (setLastTriggerTime (Qfloor time) (moved time a)) in
      (Ok tt, stateOf cycle,
       ConsoleLog (LogVideoReached (Qfloor time)) :: callsOf cycle)
    else (Ok tt, moved time a, []).
Proof.
  intros (Hrun & Hint & ui & Hui & Hen).
  unfold timeupdate. rewrite bind_modify. fold (moved time a).
  unfold handleVideoTimeUpdate. rewrite bind_get.
  unfold moved at 1 2 3 4 5.
  cbn [isRunning setVideoElement videoElement paused currentTime
       questionGenerationInterval lastTriggerTime].
  rewrite Hrun, Hint. cbn [paused currentTime]. fold (moved time a).
  assert (Hen1 : onUI UIOverlay.isAIEnabled (moved time a)
                 = (Ok true, moved time a, [])).
  { unfold onUI. unfold moved at 1. cbn [uiOverlay setVideoElement].
    rewrite Hui. unfold UIOverlay.isAIEnabled. rewrite bind_get. unfold ret.
    rewrite Hen. rewrite (@setUiOverlay_same (moved time a) ui Hui).
    reflexivity. }
  match goal with
  | |- context [bind ?m ?k (moved time a)] =>
      rewrite (@bind_ok _ _ _ m k (moved time a) _ _ _ Hen1)
  end.
  cbn [negb app].
  assert (Hrem : ((0 <? Qfloor time)%Z
                  && (Z.rem (Qfloor time) 30 =? 0)%Z
                  && negb (Qfloor time =? lastTriggerTime a)%Z)
                 = fires a (Qfloor time)).
  { unfold fires. destruct (0 <? Qfloor time)%Z eqn:Hpos; [| reflexivity].
    apply Z.ltb_lt in Hpos. rewrite Z.rem_mod_nonneg by lia. reflexivity. }
  rewrite Hrem.
  destruct (fires a (Qfloor time)).
  - rewrite bind_emit, bind_modify. cbv zeta.
    unfold resultOf at 1. unfold stateOf at 1. unfold callsOf at 1.
    cbn [fst snd].
    rewrite (detached_ok (updateQuestions JSON_parse)
               (setLastTriggerTime (Qfloor time) (moved time a))).
    reflexivity.
  - reflexivity.
Qed.

Lemma fires_differs a f :
  fires a f
  = (0 <? f)%Z && (f mod 30 =? 0)%Z && differsFrom (lastFiredOf a) f.
Proof.
  unfold fires, lastFiredOf, differsFrom.
  destruct (0 <? f)%Z eqn:Hpos; [| reflexivity].
  destruct (f mod 30 =? 0)%Z; [| reflexivity]. cbn [andb].
  apply Z.ltb_lt in Hpos.
  destruct (lastTriggerTime a =? 0)%Z eqn:H0; [| reflexivity].
  apply Z.eqb_eq in H0. rewrite H0.
  replace (f =? 0)%Z with false by (symmetry; apply Z.eqb_neq; lia).
  reflexivity.
Qed.

(** C3.  Trigger de-duplication.  While playback is running and the
    feature is enabled, with interval 30:
    - a position update at time [t] starts a generation cycle exactly
      when [floor t > 0], [floor t mod 30 = 0] and [floor t] differs from
      the last fired value: then the update is the log line followed by
      the whole run of [updateQuestions], from the state that holds the
      new position and [floor t] as the last fired value; otherwise the
      update changes nothing but the position and calls nothing;
    - the fire stores [floor t] as the last fired value, and the cycle it
      starts leaves it there;
    - so any sequence of position updates is the run of the scheduler of
      the design document that starts the cycle on its fires, and the
      fires are those the design document lists. *)
Theorem trigger_deduplication (a : t) (times : list Q) :
  playing a ->
  (forall time,
     let f := Qfloor time in
     let fire := (0 <? f)%Z && (f mod 30 =? 0)%Z
                 && negb (f =? lastTriggerTime a)%Z in
     timeupdate JSON_parse time a
     = (if fire
        then
          let cycle :=
            detached (updateQuestions JSON_parse)
              (setLastTriggerTime f (moved time a)) in
          (Ok tt, stateOf cycle, ConsoleLog (LogVideoReached f) :: callsOf cycle)
        else (Ok tt, moved time a, []))
     /\ fired (callsOf (timeupdate JSON_parse time a))
        = (if fire then [f] else [])
     /\ lastTriggerTime (stateOf (timeupdate JSON_parse time a))
        = (if fire then f else lastTriggerTime a))
  /\ positionUpdates JSON_parse times a
     = schedule JSON_parse 30 (lastFiredOf a) times a
  /\ fired (callsOf (positionUpdates JSON_parse times a))
     = specFires 30 (lastFiredOf a) (map Qfloor times).
Proof.
  intros Hplay. split; [| split].
  - intros time. cbv zeta.
    destruct (timeupdate_step time Hplay) as (_ & _ & Hl & Hf).
    split; [exact (timeupdate_exact time Hplay) |]. split; assumption.
  - revert a Hplay. induction times as [| time rest IH]; intros a Hplay.
    + reflexivity.
    + destruct (timeupdate_step time Hplay) as (Hok & Hplay' & Hl & _).
      pose proof (timeupdate_exact time Hplay) as E.
      unfold positionUpdates. cbn [forEach schedule].
      fold (positionUpdates JSON_parse rest).
      rewrite bind_modify. rewrite <- fires_differs.
      assert (detached (timeupdate JSON_parse time) a
              = timeupdate JSON_parse time a) as D.
      { unfold detached, tryCatch. unfold resultOf in Hok.
        destruct (timeupdate JSON_parse time a) as [[[[] |] s'] tr];
          [reflexivity | discriminate]. }
      unfold bind at 1. rewrite D.
      specialize (IH _ Hplay'). rewrite E in IH, Hl |- *.
      destruct (fires a (Qfloor time)) eqn:Hfire.
      * cbv zeta in IH, Hl |- *. cbn [stateOf fst snd] in IH, Hl.
        assert (lastFiredOf
                  (stateOf (detached (updateQuestions JSON_parse)
                              (setLastTriggerTime (Qfloor time)
                                 (moved time a))))
                = Some (Qfloor time)) as L.
        { unfold lastFiredOf. rewrite Hl.
          destruct (Qfloor time =? 0)%Z eqn:E0; [| reflexivity].
          exfalso. apply Z.eqb_eq in E0. unfold fires in Hfire.
          rewrite E0 in Hfire. discriminate Hfire. }
        rewrite L in IH. cbn iota. rewrite IH.
        unfold startCycle. rewrite bind_assoc, bind_emit, bind_assoc, bind_modify.
        unfold bind, resultOf, stateOf, callsOf.
        pose proof (detached_ok (updateQuestions JSON_parse)
                      (setLastTriggerTime (Qfloor time) (moved time a))) as O.
        unfold resultOf in O.
        destruct (detached (updateQuestions JSON_parse)
                    (setLastTriggerTime (Qfloor time) (moved time a)))
          as [[r s'] tr]. cbn [fst snd] in *. subst r.
        destruct (schedule JSON_parse 30 (Some (Qfloor time)) rest s')
          as [[r2 s2] tr2]. reflexivity.
      * cbn [stateOf fst snd] in IH, Hl.
        assert (lastFiredOf (moved time a) = lastFiredOf a) as L by reflexivity.
        rewrite L in IH. cbn iota. rewrite IH.
        destruct (schedule JSON_parse 30 (lastFiredOf a) rest (moved time a))
          as [[r2 s2] tr2]. reflexivity.
  - revert a Hplay. induction times as [| time rest IH]; intros a Hplay.
    + reflexivity.
    + destruct (timeupdate_step time Hplay) as (Hok & Hplay' & Hl & Hf).
      cbn [map]. rewrite specFires_step.
      unfold positionUpdates. cbn [forEach].
      fold (positionUpdates JSON_parse rest).
      specialize (IH _ Hplay').
      unfold bind, detached, tryCatch, resultOf, stateOf, callsOf in *.
      destruct (timeupdate JSON_parse time a) as [[r a'] tr].
      simpl in *. subst r.
      destruct (positionUpdates JSON_parse rest a') as [[r' a''] tr'].
      simpl in *. rewrite fired_app, Hf, IH.
      destruct (fires a (Qfloor time)) eqn:Hfire; simpl.
      * unfold lastFiredOf. rewrite Hl.
        destruct (Qfloor time =? 0)%Z eqn:E; [| reflexivity].
        exfalso. apply Z.eqb_eq in E. unfold fires in Hfire.
        rewrite E in Hfire. discriminate Hfire.
      * unfold lastFiredOf. rewrite Hl. reflexivity.
Qed.

End Trigger.

Lemma trigger_deduplication_witness :
  let times := [146 # 5; 30; 61 # 2; 31; 601 # 10; 609 # 10] in
  let transcript := js "speaker discusses gravity" in
  let summary := js "A talk about gravity." in
  map Qfloor times = [29; 30; 30; 31; 60; 60]%Z
  /\ fired (callsOf (positionUpdates Demo.noJSON times Demo.assistant))
     = [30%Z; 60%Z]
  /\ callsOf (positionUpdates Demo.noJSON times Demo.assistant)
     = [ConsoleLog (LogVideoReached 30);
        CallGetTranscriptChunk 30 (30 + 30);
        CallGetTranscriptChunk (30 - 150) (30 + 150);
        ConsoleLog (LogGeneratingNewSummary (30 - 150) (30 + 150));
        CallSummarize transcript;
        CallSessionPrompt transcript summary false;
        ConsoleLog (LogVideoReached 60);
        CallGetTranscriptChunk (601 # 10) ((601 # 10) + 30);
        CallGetTranscriptChunk ((601 # 10) - 150) ((601 # 10) + 150);
        ConsoleLog (LogUsingCachedSummary ((601 # 10) - 150) ((601 # 10) + 150));
        CallSessionPrompt transcript summary false].
Proof.
  intros times transcript summary.
  assert (Hplay : playing Demo.assistant).
  { split; [reflexivity |]. split; [reflexivity |].
    exists UIOverlay.new. split; reflexivity. }
  destruct (trigger_deduplication Demo.noJSON times Hplay) as (_ & Hs & Hf).
  split; [reflexivity |]. split; [exact Hf |].
  rewrite Hs. vm_compute. reflexivity.
Defined.

End TriggerFacts.

(** ** Generation coordinator *)

Module CycleFacts.
Import YouTubeAIAssistant.

(** C7.  An empty transcript aborts the cycle without error.  When the
    transcript fetched for the window from the current time to the
    current time plus the look-ahead buffer is empty or white space only,
    the cycle returns normally; its only call is that transcript fetch
    (no summarizer, no question generator), and the assistant, with its
    overlay (history log, cursor, list view) and summary cache, is
    exactly as before: no group, no error message. *)
Theorem empty_transcript_aborts
        (JSON_parse : jsstring -> option PromptClient.JSON)
        (a : t) (video : Video) (sp : SubtitleParser) (transcript : jsstring) :
  isInitialized a = true ->
  videoElement a = Some video ->
  subtitleParser a = Some sp ->
  getTranscriptChunk sp (currentTime video)
    (currentTime video + transcriptBufferAhead a) = Ok transcript ->
  forallb isWhiteSpace transcript = true ->
  updateQuestions JSON_parse a
  = (Ok tt, a,
     [CallGetTranscriptChunk (currentTime video)
        (currentTime video + transcriptBufferAhead a)]).
Proof.
  intros Hinit Hv Hsp Hfetch Hblank.
  unfold updateQuestions. rewrite bind_get. rewrite Hinit, Hv. cbn [negb].
  unfold tryCatch. cbn [deref]. rewrite bind_ret.
  assert (Hf : fetchTranscript (currentTime video)
                 (currentTime video + transcriptBufferAhead a) a
               = (Ok transcript, a,
                  [CallGetTranscriptChunk (currentTime video)
                     (currentTime video + transcriptBufferAhead a)])).
  { unfold fetchTranscript. rewrite bind_get, Hsp. cbn [deref].
    rewrite bind_ret. unfold call. rewrite Hfetch. reflexivity. }
  match goal with
  | |- context [bind ?m ?k a] => rewrite (@bind_ok _ _ _ m k a _ _ _ Hf)
  end.
  rewrite StringFacts.isBlank_spec, Hblank. reflexivity.
Qed.

Lemma empty_transcript_aborts_witness :
  let silent :=
    {| promptClient := promptClient Demo.assistant;
       summarizerClient := summarizerClient Demo.assistant;
       subtitleParser :=
         Some {| getTranscriptChunk := fun _ _ => Ok (js "   ") |};
       uiOverlay := uiOverlay Demo.assistant;
       isInitialized := true; isRunning := true; lastTriggerTime := 0;
       videoElement := Some {| currentTime := 30; paused := false |};
       questionGenerationInterval := 30;
       transcriptBufferAhead := 30; summaryBuffer := 150 |} in
  updateQuestions Demo.noJSON silent
  = (Ok tt, silent, [CallGetTranscriptChunk 30 (30 + 30)]).
Proof.
  intros silent.
  exact (@empty_transcript_aborts Demo.noJSON silent
           {| currentTime := 30; paused := false |}
           {| getTranscriptChunk := fun _ _ => Ok (js "   ") |}
           (js "   ") eq_refl eq_refl eq_refl eq_refl eq_refl).
Defined.

End CycleFacts.

(** ** Time-window cache *)

Module CacheFacts.
Import SummarizerClient CacheSpec.

Lemma half_length_midpoint ws we : (we - ws) / 2 == midpoint ws we - ws.
Proof. unfold midpoint. field. Qed.

(** What a request does, case by case. *)

Lemma request_reuses sc summarize content text ws we :
  initialized sc = true -> summarizer sc = Some summarize ->
  currentSummary sc = Some content -> truthy content = true ->
  (we - ws) / 2 <= rangeEnd (currentSummaryTimeRange sc) ->
  getSummaryForTime text ws we sc
  = (Ok content, sc, [ConsoleLog (LogUsingCachedSummary ws we)]).
Proof.
  intros Hi Hs Hc Ht Hle. unfold getSummaryForTime.
  rewrite bind_get, Hi, Hs, Hc. cbn [summaryTruthy]. rewrite Ht.
  apply Qle_bool_iff in Hle. rewrite Hle. cbn [andb].
  rewrite bind_emit. reflexivity.
Qed.

Lemma stale_test sc ws we :
  stale sc ws we ->
  summaryTruthy (currentSummary sc)
  && Qle_bool ((we - ws) / 2) (rangeEnd (currentSummaryTimeRange sc)) = false.
Proof.
  intros [H | H]; [rewrite H; reflexivity |].
  apply andb_false_iff. right.
  destruct (Qle_bool _ _) eqn:E; [| reflexivity].
  apply Qle_bool_iff in E. contradiction.
Qed.

Lemma request_regenerates sc summarize text ws we summary :
  initialized sc = true -> summarizer sc = Some summarize ->
  stale sc ws we -> isBlank text = false -> summarize text = Ok summary ->
  getSummaryForTime text ws we sc
  = (Ok summary,
     setCache (Some summary) {| rangeStart := ws; rangeEnd := we |} sc,
     [ConsoleLog (LogGeneratingNewSummary ws we); CallSummarize text]).
Proof.
  intros Hi Hs Hst Hb Hsum. unfold getSummaryForTime.
  rewrite bind_get, Hi, Hs, (@stale_test sc ws we Hst), Hb.
  rewrite bind_emit. unfold tryCatch, bind, call, modify, ret.
  rewrite Hsum. reflexivity.
Qed.

Lemma request_blank sc summarize text ws we :
  initialized sc = true -> summarizer sc = Some summarize ->
  stale sc ws we -> isBlank text = true ->
  getSummaryForTime text ws we sc
  = (Ok [], sc, [ConsoleLog (LogGeneratingNewSummary ws we)]).
Proof.
  intros Hi Hs Hst Hb. unfold getSummaryForTime.
  rewrite bind_get, Hi, Hs, (@stale_test sc ws we Hst), Hb.
  rewrite bind_emit. reflexivity.
Qed.

Lemma request_at_most_once text ws we sc :
  (summarizeCalls (callsOf (getSummaryForTime text ws we sc)) <= 1)%nat.
Proof.
  unfold getSummaryForTime. rewrite bind_get.
  destruct (if initialized sc then summarizer sc else None) as [summarize |];
    [| simpl; lia].
  destruct (summaryTruthy _ && _).
  - rewrite bind_emit. simpl. lia.
  - rewrite bind_emit. unfold tryCatch, bind, call, modify, ret, callsOf.
    destruct (isBlank text); [simpl; lia |].
    destruct (summarize text); simpl; lia.
Qed.

(** The reuse test of the code compares half the length of the requested
    window, not its midpoint, with the end of the cached window. *)
Lemma reuse_test_is_half_length sc summarize content text ws we :
  initialized sc = true -> summarizer sc = Some summarize ->
  currentSummary sc = Some content -> truthy content = true ->
  (summarizeCalls (callsOf (getSummaryForTime text ws we sc)) = 0%nat
   /\ resultOf (getSummaryForTime text ws we sc) = Ok content)
  \/ ~ (we - ws) / 2 <= rangeEnd (currentSummaryTimeRange sc).
Proof.
  intros Hi Hs Hc Ht.
  destruct (Qlt_le_dec (rangeEnd (currentSummaryTimeRange sc)) ((we - ws) / 2))
    as [Hlt | Hle].
  - right. apply Qlt_not_le. exact Hlt.
  - left. rewrite (@request_reuses sc summarize content text ws we Hi Hs Hc Ht Hle).
    split; reflexivity.
Qed.

(** C1, as the code has it by design.  After a first request populated
    the empty cache for window W1 with a non-empty summary:
    - a request for a window W2 that starts at or after 0 and whose
      midpoint is at most the end of W1 returns the cached summary
      without invoking the summarizer, and leaves the slot as it is;
    - a request for a window W2 that starts at or before 0 and whose
      midpoint is beyond the end of W1 invokes the summarizer exactly once
      when the transcript is not blank, and the new summary with W2
      replaces the slot; when the transcript is blank the summarizer is
      not invoked and the slot keeps its entry;
    - no request invokes the summarizer more than once. *)
Theorem cache_validity_by_design
        (sc0 : t) (summarize : jsstring -> Res jsstring)
        (text1 content : jsstring) (s1 e1 : Q)
        (text2 : jsstring) (s2 e2 : Q) :
  initialized sc0 = true ->
  summarizer sc0 = Some summarize ->
  currentSummary sc0 = None ->
  isBlank text1 = false ->
  summarize text1 = Ok content ->
  truthy content = true ->
  let sc1 := stateOf (getSummaryForTime text1 s1 e1 sc0) in
  let r := getSummaryForTime text2 s2 e2 sc1 in
  (currentSummary sc1 = Some content
   /\ currentSummaryTimeRange sc1 = {| rangeStart := s1; rangeEnd := e1 |})
  /\ (0 <= s2 -> midpoint s2 e2 <= e1 ->
      resultOf r = Ok content /\ stateOf r = sc1
      /\ summarizeCalls (callsOf r) = 0%nat)
  /\ (s2 <= 0 -> e1 < midpoint s2 e2 ->
      (forall summary,
         isBlank text2 = false -> summarize text2 = Ok summary ->
         resultOf r = Ok summary
         /\ summarizeCalls (callsOf r) = 1%nat
         /\ currentSummary (stateOf r) = Some summary
         /\ currentSummaryTimeRange (stateOf r)
            = {| rangeStart := s2; rangeEnd := e2 |})
      /\ (isBlank text2 = true ->
          resultOf r = Ok [] /\ stateOf r = sc1
          /\ summarizeCalls (callsOf r) = 0%nat))
  /\ (summarizeCalls (callsOf r) <= 1)%nat.
Proof.
  intros Hi Hs Hnone Hb1 Hsum1 Ht sc1 r.
  assert (Hsc1 : sc1 = setCache (Some content)
                         {| rangeStart := s1; rangeEnd := e1 |} sc0).
  { subst sc1. rewrite (@request_regenerates sc0 summarize text1 s1 e1 content);
      auto. left. rewrite Hnone. reflexivity. }
  assert (Hi1 : initialized sc1 = true) by (rewrite Hsc1; exact Hi).
  assert (Hs1 : summarizer sc1 = Some summarize) by (rewrite Hsc1; exact Hs).
  assert (Hc1 : currentSummary sc1 = Some content) by (rewrite Hsc1; reflexivity).
  assert (He1 : rangeEnd (currentSummaryTimeRange sc1) = e1)
    by (rewrite Hsc1; reflexivity).
  split; [split; [exact Hc1 | rewrite Hsc1; reflexivity] |].
  split; [| split].
  - intros Hpos Hmid. subst r.
    rewrite (@request_reuses sc1 summarize content text2 s2 e2); auto.
    rewrite He1, half_length_midpoint. lra.
  - intros Hneg Hmid.
    assert (Hst : stale sc1 s2 e2).
    { right. rewrite He1, half_length_midpoint. lra. }
    split.
    + intros summary Hb2 Hsum2. subst r.
      rewrite (@request_regenerates sc1 summarize text2 s2 e2 summary); auto.
    + intros Hb2. subst r.
      rewrite (@request_blank sc1 summarize text2 s2 e2); auto.
  - apply request_at_most_once.
Qed.

Lemma cache_validity_by_design_witness :
  let r := getSummaryForTime (js "later text") 0 200 populated in
  resultOf r = Ok (js "A talk about gravity.")
  /\ stateOf r = populated
  /\ summarizeCalls (callsOf r) = 0%nat.
Proof.
  intros r.
  destruct (@cache_validity_by_design Demo.summarizerClient
              (fun _ => Ok (js "A talk about gravity."))
              (js "speaker discusses gravity") (js "A talk about gravity.")
              (-150) 150 (js "later text") 0 200
              eq_refl eq_refl eq_refl eq_refl eq_refl eq_refl)
    as (_ & Hreuse & _).
  apply Hreuse.
  - discriminate.
  - discriminate.
Defined.

(** C1 as stated fails on the code.  The cache holds a summary for the
    window from -150 to 150.  A request for the window from 0 to 400 has
    its midpoint, 200, beyond 150; with a blank transcript the summarizer
    is not invoked at all and the slot keeps the old entry, where the
    claim has exactly one invocation and the slot replaced by the new
    window. *)
Lemma cache_validity_counterexample :
  let r := getSummaryForTime (js "  ") 0 400 populated in
  rangeEnd (currentSummaryTimeRange populated) < midpoint 0 400
  /\ summarizeCalls (callsOf r) <> 1%nat
  /\ currentSummaryTimeRange (stateOf r)
     <> {| rangeStart := 0; rangeEnd := 400 |}
  /\ summarizeCalls (callsOf r) = 0%nat
  /\ stateOf r = populated.
Proof.
  cbv zeta. split; [reflexivity |].
  split; [discriminate |]. split; [discriminate |]. split; reflexivity.
Qed.

End CacheFacts.

(** ** Streaming answer session *)

Module AnswerFacts.
Import YouTubeAIAssistant AnswerSpec.

(** One run of the callback of [handleQuestionClick]: the chunk is
    appended to [fullAnswer], and the sum is what the answer view gets. *)
Lemma onAnswerChunk_appends (a : t) (ui : UIOverlay.t) (c : UIOverlay.Chatbox)
      (fullAnswer chunk : jsstring) :
  uiOverlay a = Some ui ->
  UIOverlay.chatbox ui = Some c ->
  UIOverlay.isChatboxVisible ui = true ->
  let st := stateOf (onAnswerChunk chunk (fullAnswer, a)) in
  fst st = fullAnswer ++ chunk
  /\ option_map UIOverlay.visibleAnswer (uiOverlay (snd st))
     = Some (Some (fullAnswer ++ chunk)).
Proof.
  intros Hui Hc Hv. unfold onAnswerChunk.
  rewrite bind_modify, bind_get. cbn [fst snd].
  unfold onOuter, zoom, onUI, stateOf. cbn [fst snd]. rewrite Hui.
  unfold UIOverlay.updateChatboxContent. rewrite bind_get, Hc, Hv.
  cbn. split; reflexivity.
Qed.

(** C2 on the code.  The session streams the chunks [Hi], [Hi there],
    [Hi there!], each the full text so far.
    - With the three-parameter [generateAnswer] the callback of
      [handleQuestionClick] runs on every chunk and appends it: after
      one, two and three chunks the answer view shows [Hi],
      [HiHi there] and [HiHi thereHi there!], not the latest chunk.
    - With the four-parameter [generateAnswer] of promptClient.js the
      callback is bound to [videoFrame] and [onChunk] is undefined: no
      chunk ever reaches the view, which stays on the loading dots. *)
Theorem streaming_view_is_not_latest_chunk :
  visibleAfterClick answerCallText
    (assistantWith (PromptClient.Stream (firstn 1 threeChunks) true)
       transcriptOk)
  = Some (js "Hi")
  /\ visibleAfterClick answerCallText
       (assistantWith (PromptClient.Stream (firstn 2 threeChunks) true)
          transcriptOk)
     = Some (js "HiHi there")
  /\ visibleAfterClick answerCallText
       (assistantWith (PromptClient.Stream threeChunks true) transcriptOk)
     = Some (js "HiHi thereHi there!")
  /\ visibleAfterClick answerCallMultimodal
       (assistantWith (PromptClient.Stream threeChunks true) transcriptOk)
     = None.
Proof. repeat split. Qed.

(** C8 on the code.
    - The answer stream is rejected.  [generateAnswer] catches the error
      and returns the failure text; [handleQuestionClick] drops that
      return value and calls [finishStreaming()] without an argument.
      Streaming ends, the answer view still shows the loading dots, and
      the conversation holds the user turn only.
    - The transcript fetch throws.  The catch block of
      [handleQuestionClick] shows the failure text and calls
      [finishStreaming()] without an argument: the text is displayed but
      no assistant turn is appended. *)
Theorem failed_answer_appends_no_assistant_turn :
  stuckOnLoading
    (overlayAfterClick answerCallText
       (assistantWith PromptClient.StreamRejected transcriptOk))
  /\ stuckOnLoading
       (overlayAfterClick answerCallMultimodal
          (assistantWith PromptClient.StreamRejected transcriptOk))
  /\ (let ui := overlayAfterClick answerCallText
                  (assistantWith (PromptClient.Stream threeChunks true) Throw) in
      option_map UIOverlay.isStreaming ui = Some false
      /\ option_map UIOverlay.visibleAnswer ui
         = Some (Some PromptClient.sorryAnswer)
      /\ option_map UIOverlay.conversationHistory ui = Some [gravityTurn]).
Proof. repeat split. Qed.

End AnswerFacts.

(** ** Conversation context *)

Module ConversationFacts.
Import YouTubeAIAssistant AssistantSpec AssistantFacts TriggerSpec TriggerFacts
  ConversationSpec.

Lemma sound_bind_ret {S A B} (I : S -> Prop) Pc (a : A) (k : A -> Eff S B) :
  sound I Pc (k a) -> sound I Pc (bind (ret a) k).
Proof. intros H st Hst. rewrite bind_ret. apply H. exact Hst. Qed.

Section Conversation.
Variable JSON_parse : jsstring -> option PromptClient.JSON.

Variables (s e : option Q).

Lemma anchored_session handler ui ui' :
  sameSession ui ui' -> anchored s e handler ui -> anchored s e handler ui'.
Proof.
  intros (_ & Hc & _ & _ & _ & Hx & Hf) (A1 & A2 & A3).
  repeat split; try congruence. intros H. rewrite Hf. auto.
Qed.

Lemma cycleCall_followUpsUse c : cycleCall c -> (followUpsUse s e) c.
Proof. destruct c as [| | | | | | | []]; simpl; tauto. Qed.

Lemma sound_updateQuestions_ui handler qs ts :
  sound (anchored s e handler) (followUpsUse s e) (UIOverlay.updateQuestions qs ts).
Proof.
  eapply sound_session; [apply anchored_session |].
  intros ui. apply updateQuestions_session.
Qed.

Lemma sound_renderCurrentQuestions handler :
  sound (anchored s e handler) (followUpsUse s e) UIOverlay.renderCurrentQuestions.
Proof.
  eapply sound_session; [apply anchored_session |].
  intros ui. apply renderCurrentQuestions_session.
Qed.

Ltac frame_modify :=
  let F1 := fresh "F" in
  let F2 := fresh "F" in
  let F3 := fresh "F" in
  apply sound_modify; intros ? (F1 & F2 & F3); repeat split; assumption.

Lemma sound_handleSendMessage handler value :
  sound (anchored s e handler) (followUpsUse s e) (UIOverlay.handleSendMessage value).
Proof.
  unfold UIOverlay.handleSendMessage.
  apply sound_bind_get. intros ui (A1 & A2 & A3).
  destruct (negb (truthy (trim value)) || UIOverlay.isStreaming ui);
    [apply sound_ret |].
  apply sound_bind; [apply sound_deref | intros _].
  apply sound_bind.
  { apply sound_modify. intros ? (B1 & B2 & B3).
    repeat split; [assumption | discriminate | assumption]. }
  intros _. apply sound_bind; [frame_modify | intros _].
  destruct (UIOverlay.onFollowUpQuestion ui); [| apply sound_ret].
  rewrite A1. cbn [deref]. apply sound_bind_ret.
  apply sound_emit. simpl. split; reflexivity.
Qed.

Lemma sound_step_ui handler (ev : Event) :
  match ev with
  | PositionUpdate _ | Cycle => True
  | MouseEnter => sound (anchored s e handler) (followUpsUse s e) UIOverlay.onMouseEnter
  | MouseLeave => sound (anchored s e handler) (followUpsUse s e) UIOverlay.onMouseLeave
  | NavigateBackward =>
      sound (anchored s e handler) (followUpsUse s e) UIOverlay.navigateBackward
  | NavigateForward =>
      sound (anchored s e handler) (followUpsUse s e) UIOverlay.navigateForward
  | AnswerChunk text =>
      sound (anchored s e handler) (followUpsUse s e) (UIOverlay.updateChatboxContent text)
  | AnswerFinished fullAnswer =>
      sound (anchored s e handler) (followUpsUse s e) (UIOverlay.finishStreaming fullAnswer)
  | FollowUpHandlerSet =>
      sound (anchored s e handler) (followUpsUse s e) UIOverlay.setFollowUpQuestionHandler
  | FollowUp value =>
      sound (anchored s e handler) (followUpsUse s e) (UIOverlay.handleSendMessage value)
  end.
Proof.
  destruct ev; try exact Logic.I.
  - frame_modify.
  - unfold UIOverlay.onMouseLeave.
    apply sound_bind; [frame_modify | intros _].
    apply sound_bind_get. intros ui _.
    destruct (UIOverlay.pendingQuestions ui); [| apply sound_ret].
    apply sound_bind; [apply sound_updateQuestions_ui | intros _].
    frame_modify.
  - unfold UIOverlay.navigateBackward. apply sound_bind_get. intros ui _.
    destruct (0 <? _)%Z; [| apply sound_ret].
    apply sound_bind; [frame_modify | intros _].
    apply sound_renderCurrentQuestions.
  - unfold UIOverlay.navigateForward. apply sound_bind_get. intros ui _.
    destruct (_ <? _)%Z; [| apply sound_ret].
    apply sound_bind; [frame_modify | intros _].
    apply sound_renderCurrentQuestions.
  - unfold UIOverlay.updateChatboxContent. apply sound_bind_get. intros ui _.
    destruct (UIOverlay.chatbox ui); [| apply sound_ret].
    destruct (negb _); [apply sound_ret |].
    apply sound_modify. intros ? (B1 & B2 & B3).
    repeat split; [assumption | discriminate | assumption].
  - unfold UIOverlay.finishStreaming.
    apply sound_bind; [frame_modify | intros _].
    destruct fullAnswer as [answer |]; [| apply sound_ret].
    destruct (truthy answer); [| apply sound_ret].
    apply sound_bind_get. intros ui _. frame_modify.
  - apply sound_modify. intros ? (B1 & B2 & B3).
    repeat split; auto.
  - apply sound_handleSendMessage.
Qed.

Lemma trivially_stable : componentStable (fun _ : t => True).
Proof. split; intros; exact Logic.I. Qed.

Lemma sound_cycle handler :
  sound (open s e handler) (followUpsUse s e) (updateQuestions JSON_parse).
Proof.
  apply sound_weaken with (Pc := cycleCall); [apply cycleCall_followUpsUse |].
  apply sound_updateQuestions; [apply trivially_stable | |].
  - intros qs ts. eapply sound_session; [apply anchored_session |].
    intros ui. apply updateQuestions_session.
  - intros m. eapply sound_session; [apply anchored_session |].
    intros ui. apply showError_session.
Qed.

Lemma sound_timeupdate handler time :
  sound (open s e handler) (followUpsUse s e) (timeupdate JSON_parse time).
Proof.
  assert (Hkeep : forall f : t -> t,
             (forall a, uiOverlay (f a) = uiOverlay a) ->
             sound (open s e handler) (followUpsUse s e) (modify f)).
  { intros f Hf. apply sound_modify. intros a (_ & ui & Hui & HI).
    split; [exact Logic.I |]. exists ui. rewrite Hf. auto. }
  unfold timeupdate. apply sound_bind; [apply Hkeep; reflexivity | intros _].
  unfold handleVideoTimeUpdate. apply sound_bind_get. intros a _.
  destruct (if isRunning a then videoElement a else None) as [video |];
    [| apply sound_ret].
  destruct (paused video); [apply sound_ret |].
  apply sound_bind.
  { apply sound_onUI; [apply trivially_stable |].
    unfold UIOverlay.isAIEnabled. apply sound_bind_get. intros; apply sound_ret. }
  intros enabled. destruct (negb enabled); [apply sound_ret |].
  destruct (_ && _); [| apply sound_ret].
  apply sound_bind; [apply sound_emit; exact Logic.I | intros _].
  apply sound_bind; [apply Hkeep; reflexivity | intros _].
  apply sound_tryCatch; [apply sound_cycle | apply sound_ret].
Qed.

Lemma sound_step handler ev :
  sound (open s e handler) (followUpsUse s e) (step JSON_parse ev).
Proof.
  pose proof (sound_step_ui handler ev) as H.
  destruct ev; simpl;
    try (apply sound_onUI; [apply trivially_stable | exact H]).
  - apply sound_timeupdate.
  - apply sound_cycle.
Qed.

Lemma sound_run handler events :
  sound (open s e handler) (followUpsUse s e) (run JSON_parse events).
Proof.
  apply sound_forEach. intros ev.
  apply sound_tryCatch; [apply sound_step | apply sound_ret].
Qed.

Lemma run_ok events a : resultOf (run JSON_parse events a) = Ok tt.
Proof.
  revert a. induction events as [| ev rest IH]; intros a; [reflexivity |].
  unfold run. cbn [forEach]. fold (run JSON_parse rest).
  unfold bind, detached, tryCatch, ret, resultOf in *.
  destruct (step JSON_parse ev a) as [[[[] |] a'] tr]; simpl;
    specialize (IH a'); destruct (run JSON_parse rest a') as [[r a''] tr']; exact IH.
Qed.

Lemma showChatbox_opens a ui0 question :
  uiOverlay a = Some ui0 ->
  resultOf (onUI (UIOverlay.showChatbox question s e) a) = Ok tt
  /\ callsOf (onUI (UIOverlay.showChatbox question s e) a) = []
  /\ open s e (UIOverlay.onFollowUpQuestion ui0)
       (stateOf (onUI (UIOverlay.showChatbox question s e) a)).
Proof.
  intros Hui. unfold onUI. rewrite Hui.
  unfold UIOverlay.showChatbox, UIOverlay.destroyChatbox.
  rewrite !bind_assoc, !bind_modify. unfold modify, resultOf, stateOf, callsOf.
  cbn [fst snd]. split; [reflexivity |]. split; [reflexivity |].
  split; [exact Logic.I |]. eexists. split; [reflexivity |].
  repeat split; [discriminate | auto].
Qed.

Lemma follow_up_asks a value :
  open s e true a ->
  truthy (trim value) = true ->
  callsOf ((onUI (UIOverlay.finishStreaming None) ;;
            onUI (UIOverlay.handleSendMessage value)) a)
  = [CallOnFollowUpQuestion (trim value) s e].
Proof.
  intros (_ & ui & Hui & Hctx & Hbox & Hh) Hv.
  specialize (Hh eq_refl).
  destruct (UIOverlay.chatbox ui) as [box |] eqn:Ebox; [| congruence].
  assert (Hfin : onUI (UIOverlay.finishStreaming None) a
                 = (Ok tt,
                    setUiOverlay (Some (UIOverlay.setIsStreaming false ui)) a,
                    [])).
  { unfold onUI. rewrite Hui. unfold UIOverlay.finishStreaming.
    rewrite bind_modify. reflexivity. }
  match goal with
  | |- context [bind ?m ?k a] => rewrite (@bind_ok _ _ _ m k a _ _ _ Hfin)
  end.
  unfold callsOf at 1. cbn [snd app].
  unfold onUI. cbn [uiOverlay setUiOverlay].
  unfold UIOverlay.handleSendMessage. rewrite bind_get.
  cbn [UIOverlay.isStreaming UIOverlay.setIsStreaming UIOverlay.chatbox
       UIOverlay.onFollowUpQuestion UIOverlay.conversationContext
       UIOverlay.conversationHistory].
  rewrite Hv, Ebox, Hh, Hctx. cbn [negb orb deref].
  rewrite bind_ret, !bind_modify, bind_ret. reflexivity.
Qed.

(** C5.  Conversation context anchoring.  After a conversation is opened
    with the context window [s], [e], whatever happens while it stays
    open -- position updates at any playback time, generation cycles,
    hovering, history navigation, answer chunks, earlier follow-ups --
    every follow-up request that is issued carries the window [s], [e];
    and a follow-up sent once the answer has finished is issued, with
    exactly that window.  The follow-up code never reads the clock. *)
Theorem context_anchoring (a : t) (ui0 : UIOverlay.t) (question : jsstring)
        (events : list Event) :
  uiOverlay a = Some ui0 ->
  let opened :=
    (onUI (UIOverlay.showChatbox question s e) ;; run JSON_parse events) a in
  Forall (followUpsUse s e) (callsOf opened)
  /\ (forall value,
        UIOverlay.onFollowUpQuestion ui0 = true ->
        truthy (trim value) = true ->
        callsOf ((onUI (UIOverlay.finishStreaming None) ;;
                  onUI (UIOverlay.handleSendMessage value)) (stateOf opened))
        = [CallOnFollowUpQuestion (trim value) s e]).
Proof.
  intros Hui opened.
  destruct (@showChatbox_opens a ui0 question Hui) as (Hok & Hcalls & Hopen).
  assert (Hopened : opened
                    = run JSON_parse events
                        (stateOf (onUI (UIOverlay.showChatbox question s e) a))).
  { subst opened. unfold bind, resultOf, stateOf, callsOf in *.
    destruct (onUI (UIOverlay.showChatbox question s e) a) as [[r a1] tr].
    simpl in *. subst r tr.
    destruct (run JSON_parse events a1) as [[r' a2] tr']. reflexivity. }
  rewrite Hopened. split.
  - apply (@sound_run (UIOverlay.onFollowUpQuestion ui0) events). exact Hopen.
  - intros value Hh Hv. apply follow_up_asks; [| exact Hv].
    rewrite Hh in Hopen. apply (@sound_run true events). exact Hopen.
Qed.

End Conversation.

Lemma context_anchoring_witness :
  let a := stateOf (onUI UIOverlay.setFollowUpQuestionHandler Demo.assistant) in
  let opened :=
    (onUI (UIOverlay.showChatbox (js "What is gravity?") (Some 10) (Some 40)) ;;
     run Demo.noJSON
       [AnswerChunk (js "Hi"); PositionUpdate 500; MouseEnter; PositionUpdate 510;
        MouseLeave]) a in
  callsOf ((onUI (UIOverlay.finishStreaming None) ;;
            onUI (UIOverlay.handleSendMessage (js " And why? ")))
             (stateOf opened))
  = [CallOnFollowUpQuestion (js "And why?") (Some 10) (Some 40)].
Proof.
  intros a opened.
  destruct (@context_anchoring Demo.noJSON (Some 10) (Some 40) a
              (UIOverlay.setOnFollowUpQuestion true UIOverlay.new)
              (js "What is gravity?")
              [AnswerChunk (js "Hi"); PositionUpdate 500; MouseEnter;
               PositionUpdate 510; MouseLeave] eq_refl) as (_ & Hask).
  exact (Hask (js " And why? ") eq_refl eq_refl).
Defined.

End ConversationFacts.

(** ** The question parser *)

Module RegexFacts.
Import FallbackSpec.

Lemma trimStart_dropWhile s : trimStart s = dropWhile isWhiteSpace s.
Proof. induction s as [| c s IH]; simpl; [| rewrite IH]; reflexivity. Qed.

(** A greedy repetition whose continuation cannot start with a repeated
    character takes all of them: backtracking never helps. *)
Lemma star_dropWhile k cont s :
  (forall c rest, accepts k c = true -> cont (c :: rest) = None) ->
  star k cont s = cont (dropWhile (accepts k) s).
Proof.
  intros Hcont. induction s as [| c s IH]; simpl; [reflexivity |].
  destruct (accepts k c) eqn:E; [| reflexivity].
  rewrite IH. destruct (cont (dropWhile (accepts k) s)) eqn:D; [reflexivity |].
  rewrite Hcont by exact E. reflexivity.
Qed.

(** A greedy repetition in front of nothing takes all it can. *)
Lemma star_last k s :
  star k (fun rest => Some rest) s = Some (dropWhile (accepts k) s).
Proof.
  induction s as [| c s IH]; simpl; [reflexivity |].
  destruct (accepts k c); [rewrite IH |]; reflexivity.
Qed.

Lemma isDigit_not_dot c : isDigit c = true -> (c =? chDot)%N = false.
Proof.
  unfold isDigit, chDot. intros H. apply andb_prop in H as [H1 H2].
  apply N.leb_le in H1, H2. apply N.eqb_neq. lia.
Qed.

Lemma isDigit_not_space c : isDigit c = true -> isWhiteSpace c = false.
Proof.
  unfold isDigit, isWhiteSpace. intros H. apply andb_prop in H as [H1 H2].
  apply N.leb_le in H1, H2.
  repeat match goal with
         | |- context [(?x =? ?y)%N] =>
             replace (x =? y)%N with false by (symmetry; apply N.eqb_neq; lia)
         end.
  replace (c <=? 13)%N with false by (symmetry; apply N.leb_gt; lia).
  replace (c <=? 8202)%N with true by (symmetry; apply N.leb_le; lia).
  replace (8192 <=? c)%N with false by (symmetry; apply N.leb_gt; lia).
  rewrite andb_false_r. reflexivity.
Qed.

End RegexFacts.

Module ParseFacts.
Import PromptClient RegexFacts FallbackSpec.

Lemma accepts_quote c :
  accepts (OneOf [chQuote; chApostrophe]) c = isQuoteChar c.
Proof. unfold isQuoteChar. simpl. rewrite orb_false_r. reflexivity. Qed.

Lemma existsb_one c d : existsb (N.eqb c) [d] = (c =? d)%N.
Proof. simpl. apply orb_false_r. Qed.

Lemma accepts_one d c : accepts (OneOf [d]) c = (c =? d)%N.
Proof. apply existsb_one. Qed.

(** *** The numbered-list patterns *)

Lemma digits_then_dot (cont : jsstring -> option jsstring) rest :
  star Digit
    (fun s => match s with
              | d :: text => if existsb (N.eqb d) [chDot] then cont text else None
              | [] => None
              end) rest
  = match dropWhile isDigit rest with
    | d :: text => if (d =? chDot)%N then cont text else None
    | [] => None
    end.
Proof.
  rewrite star_dropWhile.
  - change (accepts Digit) with isDigit.
    destruct (dropWhile isDigit rest) as [| d text]; [reflexivity |].
    rewrite existsb_one. reflexivity.
  - intros d text Hd. change (accepts Digit d) with (isDigit d) in Hd.
    rewrite existsb_one, isDigit_not_dot by exact Hd. reflexivity.
Qed.

Lemma matchHere_numbered line :
  matchHere (atoms reNumbered) line = afterMarker line.
Proof.
  unfold reNumbered, atoms, afterMarker. cbn [matchHere].
  destruct line as [| c rest]; [reflexivity |].
  change (accepts Digit c) with (isDigit c).
  destruct (isDigit c); [| reflexivity].
  rewrite (digits_then_dot (fun text => Some text)). reflexivity.
Qed.

Lemma matchHere_numberingPrefix line :
  matchHere (atoms reNumberingPrefix) line
  = option_map (dropWhile isWhiteSpace) (afterMarker line).
Proof.
  unfold reNumberingPrefix, atoms, afterMarker. cbn [matchHere].
  destruct line as [| c rest]; [reflexivity |].
  change (accepts Digit c) with (isDigit c).
  destruct (isDigit c); [| reflexivity].
  rewrite (digits_then_dot (star Space (fun text => Some text))).
  destruct (dropWhile isDigit rest) as [| d text]; [reflexivity |].
  destruct (d =? chDot)%N; [| reflexivity].
  rewrite star_last. reflexivity.
Qed.

Lemma test_numbered line : test reNumbered line = startsWithMarker line.
Proof.
  unfold test, exec, startsWithMarker. cbn [anchored reNumbered].
  change (matchHere _ line) with (matchHere (atoms reNumbered) line).
  rewrite matchHere_numbered. destruct (afterMarker line); reflexivity.
Qed.

Lemma replace_numberingPrefix line :
  replace reNumberingPrefix [] line = stripNumbering line.
Proof.
  unfold replace, exec, stripNumbering. cbn [anchored reNumberingPrefix].
  change (matchHere _ line) with (matchHere (atoms reNumberingPrefix) line).
  rewrite matchHere_numberingPrefix.
  destruct (afterMarker line); reflexivity.
Qed.

(** *** The quote patterns *)

Lemma replace_leadingQuote s :
  replace reLeadingQuote [] s = stripLeadingQuote s.
Proof.
  unfold replace, exec, stripLeadingQuote. cbn [anchored reLeadingQuote atoms].
  destruct s as [| c rest]; [reflexivity |]. cbn [matchHere].
  rewrite accepts_quote. destruct (isQuoteChar c); reflexivity.
Qed.

Lemma matchHere_trailingQuote s :
  matchHere (atoms reTrailingQuote) s
  = match s with
    | c :: rest => if isQuoteChar c && endsHere rest then Some [] else None
    | [] => None
    end.
Proof.
  unfold reTrailingQuote, atoms. cbn [matchHere].
  destruct s as [| c rest]; [reflexivity |].
  rewrite accepts_quote. destruct (isQuoteChar c); [| reflexivity].
  cbn [andb]. destruct rest as [| d rest]; [reflexivity |].
  fold (accepts (OneOf [chComma]) d). rewrite accepts_one. cbn [endsHere].
  destruct (d =? chComma)%N; destruct rest; reflexivity.
Qed.

Lemma isQuoteChar_not_comma q :
  isQuoteChar q = true -> (q =? chComma)%N = false.
Proof.
  unfold isQuoteChar. intros H. apply orb_prop in H as [H | H];
    apply N.eqb_eq in H; subst q; reflexivity.
Qed.

Lemma endsHere_snoc b q :
  isQuoteChar q = true -> endsHere (b ++ [q]) = false.
Proof.
  intros Hq. destruct b as [| c [| d b]]; simpl.
  - apply isQuoteChar_not_comma. exact Hq.
  - reflexivity.
  - reflexivity.
Qed.

Lemma endsHere_snoc2 b q d : endsHere (b ++ [q; d]) = false.
Proof. destruct b as [| c [| c' b]]; reflexivity. Qed.

Lemma search_trailing_quote b q :
  isQuoteChar q = true ->
  searchFrom (atoms reTrailingQuote) (b ++ [q]) = Some (b, []).
Proof.
  intros Hq. induction b as [| c b IH].
  - cbn [app searchFrom]. rewrite matchHere_trailingQuote, Hq. reflexivity.
  - cbn [app searchFrom]. rewrite matchHere_trailingQuote.
    rewrite endsHere_snoc by exact Hq. rewrite andb_false_r.
    rewrite IH. reflexivity.
Qed.

Lemma search_trailing_quote_comma b q :
  isQuoteChar q = true ->
  searchFrom (atoms reTrailingQuote) (b ++ [q; chComma]) = Some (b, []).
Proof.
  intros Hq. induction b as [| c b IH].
  - cbn [app searchFrom]. rewrite matchHere_trailingQuote, Hq. reflexivity.
  - cbn [app searchFrom]. rewrite matchHere_trailingQuote.
    rewrite endsHere_snoc2, andb_false_r. rewrite IH. reflexivity.
Qed.

Lemma search_trailing_shape s before rest :
  searchFrom (atoms reTrailingQuote) s = Some (before, rest) ->
  exists q, isQuoteChar q = true
            /\ (s = before ++ [q] \/ s = before ++ [q; chComma]).
Proof.
  revert before rest. induction s as [| c s IH]; intros before rest.
  - cbn [searchFrom]. rewrite matchHere_trailingQuote. discriminate.
  - cbn [searchFrom]. rewrite matchHere_trailingQuote.
    destruct (isQuoteChar c && endsHere s) eqn:E.
    + intros H. injection H as <- <-. apply andb_prop in E as [Hq He].
      exists c. split; [exact Hq |].
      destruct s as [| d [| d' s]]; simpl in He; try discriminate.
      * left. reflexivity.
      * right. apply N.eqb_eq in He. subst d. reflexivity.
    + destruct (searchFrom (atoms reTrailingQuote) s) as [[b r] |] eqn:S;
        [| discriminate].
      intros H. injection H as <- <-.
      destruct (IH b r eq_refl) as (q & Hq & [-> | ->]);
        exists q; (split; [exact Hq |]); [left | right]; reflexivity.
Qed.

Lemma replace_trailingQuote s :
  replace reTrailingQuote [] s = stripTrailingQuote s.
Proof.
  unfold replace, exec, stripTrailingQuote. cbn [anchored reTrailingQuote].
  change (searchFrom _ s) with (searchFrom (atoms reTrailingQuote) s).
  destruct (rev s) as [| c before] eqn:R.
  - apply (proj1 (StringFacts.rev_nil_iff s)) in R. subst s. reflexivity.
  - assert (Hs : s = rev before ++ [c]).
    { rewrite <- (rev_involutive s), R. reflexivity. }
    destruct (isQuoteChar c) eqn:Hc.
    + rewrite Hs at 1. rewrite search_trailing_quote by exact Hc.
      cbn [app]. apply app_nil_r.
    + assert (Hnone : forall b r,
                 searchFrom (atoms reTrailingQuote) s = Some (b, r) ->
                 c = chComma
                 /\ exists q before', isQuoteChar q = true
                                      /\ before = q :: before').
      { intros b r H. apply search_trailing_shape in H as (q & Hq & [E | E]);
          rewrite Hs in E.
        - apply app_inj_tail in E as [_ E]. congruence.
        - change (b ++ [q; chComma]) with (b ++ [q] ++ [chComma]) in E.
          rewrite app_assoc in E. apply app_inj_tail in E as [E ->].
          split; [reflexivity |].
          destruct before as [| q' before']; simpl in E.
          + destruct b; discriminate.
          + apply app_inj_tail in E as [_ ->]. eauto. }
      destruct (c =? chComma)%N eqn:Hcomma.
      * apply N.eqb_eq in Hcomma. subst c.
        destruct before as [| q before'].
        -- destruct (searchFrom (atoms reTrailingQuote) s) as [[b r] |] eqn:S;
             [| reflexivity].
           destruct (Hnone b r eq_refl) as (_ & ? & ? & _ & ?). discriminate.
        -- destruct (isQuoteChar q) eqn:Hq.
           ++ rewrite Hs at 1. cbn [rev]. rewrite <- app_assoc. cbn [app].
              rewrite search_trailing_quote_comma by exact Hq.
              cbn [app]. apply app_nil_r.
           ++ destruct (searchFrom (atoms reTrailingQuote) s) as [[b r] |] eqn:S;
                [| reflexivity].
              destruct (Hnone b r eq_refl) as (_ & q' & ? & Hq' & E).
              injection E as <- _. congruence.
      * destruct (searchFrom (atoms reTrailingQuote) s) as [[b r] |] eqn:S;
          [| reflexivity].
        destruct (Hnone b r eq_refl) as (-> & _). discriminate.
Qed.

(** *** The escaped-quote patterns *)

Lemma matchHere_escaped q s :
  matchHere [Atom (OneOf [chBackslash]) Once; Atom (OneOf [q]) Once] s
  = match s with
    | c :: d :: rest =>
        if ((c =? chBackslash) && (d =? q))%N then Some rest else None
    | _ => None
    end.
Proof.
  cbn [matchHere]. destruct s as [| c [| d rest]]; try reflexivity.
  - rewrite accepts_one. destruct (c =? chBackslash)%N; reflexivity.
  - rewrite !accepts_one.
    destruct (c =? chBackslash)%N; destruct (d =? q)%N; reflexivity.
Qed.

Lemma replaceAllFrom_unescape q fuel s :
  (length s < fuel)%nat ->
  replaceAllFrom fuel [Atom (OneOf [chBackslash]) Once; Atom (OneOf [q]) Once]
    [q] s
  = unescape q s.
Proof.
  revert s. induction fuel as [| fuel IH]; intros s Hlen; [lia |].
  destruct s as [| c rest]; [reflexivity |].
  cbn [replaceAllFrom]. rewrite matchHere_escaped.
  destruct rest as [| d rest'].
  - rewrite IH by (simpl in *; lia). reflexivity.
  - cbn [unescape]. destruct ((c =? chBackslash) && (d =? q))%N.
    + replace (length rest' <? length (c :: d :: rest'))%nat with true
        by (symmetry; apply Nat.ltb_lt; simpl; lia).
      rewrite IH by (simpl in *; lia). reflexivity.
    + rewrite IH by (simpl in *; lia). reflexivity.
Qed.

Lemma replaceAll_escapedQuote s :
  replaceAll reEscapedQuote [chQuote] s = unescape chQuote s.
Proof. apply replaceAllFrom_unescape. lia. Qed.

Lemma replaceAll_escapedApostrophe s :
  replaceAll reEscapedApostrophe [chApostrophe] s = unescape chApostrophe s.
Proof. apply replaceAllFrom_unescape. lia. Qed.

(** *** [trim] twice is [trim] once *)

Lemma trimStart_fixed s :
  match s with c :: _ => isWhiteSpace c = false | [] => True end ->
  trimStart s = s.
Proof. destruct s as [| c s]; simpl; [| intros ->]; reflexivity. Qed.

Lemma trimStart_idem s : trimStart (trimStart s) = trimStart s.
Proof.
  apply trimStart_fixed. destruct (trimStart s) as [| c rest] eqn:E;
    [exact Logic.I |].
  exact (@StringFacts.trimStart_head _ _ _ E).
Qed.

Lemma trimStart_snoc l c :
  isWhiteSpace c = false -> exists x, trimStart (l ++ [c]) = x ++ [c].
Proof.
  intros Hc. induction l as [| d l IH]; simpl.
  - rewrite Hc. exists []. reflexivity.
  - destruct (isWhiteSpace d); [exact IH |]. exists (d :: l). reflexivity.
Qed.

Lemma trimEnd_head s :
  match s with c :: _ => isWhiteSpace c = false | [] => True end ->
  match trimEnd s with c :: _ => isWhiteSpace c = false | [] => True end.
Proof.
  unfold trimEnd. destruct s as [| c s]; [intros _; exact Logic.I |].
  intros Hc. cbn [rev].
  destruct (@trimStart_snoc (rev s) c Hc) as (x & ->).
  rewrite rev_app_distr. exact Hc.
Qed.

Lemma trim_idem s : trim (trim s) = trim s.
Proof.
  unfold trim at 1.
  assert (H : trimStart (trim s) = trim s).
  { apply trimStart_fixed. unfold trim. apply trimEnd_head.
    destruct (trimStart s) as [| c rest] eqn:E; [exact Logic.I |].
    exact (@StringFacts.trimStart_head _ _ _ E). }
  rewrite H. unfold trim, trimEnd.
  rewrite rev_involutive, trimStart_idem. reflexivity.
Qed.

(** *** Items and lines *)

Lemma cleanQuestionString_spec s : cleanQuestionString s = cleanQuotes s.
Proof.
  unfold cleanQuestionString, cleanQuotes.
  rewrite replace_leadingQuote, replace_trailingQuote,
    replaceAll_escapedQuote, replaceAll_escapedApostrophe.
  reflexivity.
Qed.

Lemma cleanQuotes_trim s : cleanQuotes (trim s) = cleanQuotes s.
Proof. unfold cleanQuotes. rewrite trim_idem. reflexivity. Qed.

Lemma nonEmpty_length (s : jsstring) : (0 <? length s)%nat = nonEmpty s.
Proof. destruct s; reflexivity. Qed.

Lemma includes_not_blank c s :
  isWhiteSpace c = false -> includes c s = true ->
  forallb isWhiteSpace s = false.
Proof.
  intros Hc. unfold includes. induction s as [| d s IH]; simpl;
    [discriminate |].
  destruct (c =? d)%N eqn:E.
  - apply N.eqb_eq in E. subst d. rewrite Hc. reflexivity.
  - simpl. intros H. rewrite IH by exact H. apply andb_false_r.
Qed.

(** A kept line is not blank, so filtering the blank lines first or the
    empty lines first makes no difference. *)
Lemma kept_not_blank line :
  kept line = true -> forallb isWhiteSpace line = false.
Proof.
  unfold kept. intros H. apply orb_prop in H as [H | H].
  - apply (@includes_not_blank chQuestion line); [reflexivity | exact H].
  - unfold startsWithMarker, afterMarker in H.
    destruct line as [| c rest]; [discriminate |].
    destruct (isDigit c) eqn:Hd; [| discriminate].
    simpl. rewrite (@isDigit_not_space c Hd). reflexivity.
Qed.

Lemma not_blank_trim line :
  (0 <? length (trim line))%nat = negb (forallb isWhiteSpace line).
Proof.
  rewrite nonEmpty_length.
  destruct (forallb isWhiteSpace line) eqn:E.
  - apply StringFacts.trim_nil in E. rewrite E. reflexivity.
  - destruct (trim line) eqn:T; [| reflexivity].
    apply StringFacts.trim_nil in T. congruence.
Qed.

Lemma pipeline_scan (lines : list jsstring) :
  filter (fun q => (0 <? length q)%nat)
    (map (fun line =>
            cleanQuestionString (trim (replace reNumberingPrefix [] line)))
       (filter (fun line => includes chQuestion line || test reNumbered line)
          (filter (fun line => (0 <? length (trim line))%nat) lines)))
  = scan lines.
Proof.
  induction lines as [| line rest IH]; [reflexivity |].
  cbn [filter scan]. rewrite not_blank_trim.
  assert (Hk : includes chQuestion line || test reNumbered line = kept line).
  { unfold kept. rewrite test_numbered. reflexivity. }
  destruct (kept line) eqn:K.
  - pose proof (@kept_not_blank line K) as Hb. rewrite Hb. cbn [negb filter].
    rewrite Hk. cbn [map filter].
    assert (Hne : nonEmpty line = true).
    { destruct line; [discriminate | reflexivity]. }
    rewrite Hne. cbn [andb].
    rewrite cleanQuestionString_spec, cleanQuotes_trim, replace_numberingPrefix.
    rewrite nonEmpty_length, IH. reflexivity.
  - rewrite andb_false_r.
    destruct (negb (forallb isWhiteSpace line)); cbn [filter];
      [rewrite Hk |]; exact IH.
Qed.

Lemma scan_nonEmpty lines : Forall (fun q => q <> []) (scan lines).
Proof.
  induction lines as [| line rest IH]; simpl; [constructor |].
  destruct (nonEmpty line && kept line); [| exact IH].
  destruct (cleanQuotes (stripNumbering line)) eqn:E; simpl; [exact IH |].
  constructor; [discriminate | exact IH].
Qed.

Lemma Forall_take {A} (P : A -> Prop) n (l : list A) :
  Forall P l -> Forall P (firstn n l).
Proof.
  intros H. revert n. induction H as [| x l Hx _ IH]; intros [| n]; simpl;
    constructor; auto.
Qed.

Section Fallback.
Variable JSON_parse : jsstring -> option JSON.

(** C9.  Malformed-output fallback.  When [JSON.parse] rejects the
    response, [parseQuestions] returns what the text-extraction fallback
    of the design document returns: of the non-empty lines of the
    response, those that contain a question mark or start with a
    numbered-list marker, each with its numbering prefix and its leading
    and trailing quote artifacts stripped, without the items that became
    empty, and at most the first three of them. *)
Theorem malformed_output_fallback (response : jsstring) :
  JSON_parse response = None ->
  parseQuestions JSON_parse response = fallback response
  /\ (length (parseQuestions JSON_parse response) <= 3)%nat
  /\ Forall (fun q => q <> []) (parseQuestions JSON_parse response).
Proof.
  intros Hparse.
  assert (H : parseQuestions JSON_parse response = fallback response).
  { unfold parseQuestions, fallback. rewrite Hparse.
    rewrite pipeline_scan. reflexivity. }
  rewrite H. unfold fallback. split; [reflexivity |]. split.
  - apply firstn_le_length.
  - apply Forall_take. apply scan_nonEmpty.
Qed.

End Fallback.

Lemma malformed_output_fallback_witness :
  parseQuestions Demo.noJSON looseResponse
  = [js "What is gravity?"; js "Why do planets orbit?"; js "Who found it?"].
Proof.
  exact (proj1 (@malformed_output_fallback Demo.noJSON looseResponse eq_refl)).
Defined.

End ParseFacts.

(** ** Overlay: every run of actions *)

Module OverlayRunFacts.
Import UIOverlay OverlaySpec OverlayRunSpec.

Lemma consistent_new : consistent new.
Proof.
  repeat split; try (simpl; intros H; congruence).
  - left. split; reflexivity.
  - constructor.
Qed.

(** Consistency only reads the log, the cursor, the list view and whether
    a chatbox and a context exist. *)
Lemma consistent_same_list ui ui' :
  questionHistory ui' = questionHistory ui ->
  currentQuestionGroupIndex ui' = currentQuestionGroupIndex ui ->
  questionsList ui' = questionsList ui ->
  conversationPaired ui' ->
  consistent ui -> consistent ui'.
Proof.
  intros Hh Hi Hl Hp (Hc & Hv & _ & Hn).
  unfold consistent, cursorValid, viewMatches, navFor in *.
  rewrite Hh, Hi, Hl. auto.
Qed.

(** [renderCurrentQuestions] on a valid cursor: it returns, touches only
    the list view, and the view then matches. *)
Lemma render_valid ui :
  cursorValid ui ->
  exists v,
    renderCurrentQuestions ui = (Ok tt, setQuestionsList v ui, [])
    /\ viewMatches (setQuestionsList v ui).
Proof.
  intros Hc. unfold renderCurrentQuestions. rewrite bind_get.
  destruct (questionsList ui) as [old |] eqn:El.
  - rewrite bind_modify.
    cbn [questionHistory currentQuestionGroupIndex setQuestionsList].
    destruct Hc as [[Hh Hi] | Hi].
    + rewrite Hh, Hi. cbn. exists (Some Analyzing). split; [reflexivity |].
      unfold viewMatches. cbn. exact Hh.
    + replace (length (questionHistory ui) =? 0)%nat with false
        by (symmetry; apply Nat.eqb_neq; lia).
      replace (currentQuestionGroupIndex ui <? 0)%Z with false
        by (symmetry; apply Z.ltb_ge; lia).
      cbn [orb].
      destruct (nth_error (questionHistory ui)
                  (Z.to_nat (currentQuestionGroupIndex ui))) as [g |] eqn:En.
      * cbn [deref]. rewrite bind_ret. unfold modify.
        eexists. split; [reflexivity |].
        unfold viewMatches. cbn. exists g. repeat split. exact En.
      * exfalso. apply nth_error_None in En. lia.
  - exists None. split.
    + unfold ret. f_equal. f_equal. destruct ui; cbn in *. subst. reflexivity.
    + unfold viewMatches. cbn. exact Logic.I.
Qed.

(** Rendering after the log or the cursor moved restores consistency. *)
Lemma render_consistent ui :
  cursorValid ui ->
  conversationPaired ui ->
  Forall (fun g => questions g <> []) (questionHistory ui) ->
  let r := renderCurrentQuestions ui in
  resultOf r = Ok tt /\ callsOf r = [] /\ consistent (stateOf r)
  /\ questionHistory (stateOf r) = questionHistory ui
  /\ currentQuestionGroupIndex (stateOf r) = currentQuestionGroupIndex ui.
Proof.
  intros Hc Hp Hn. destruct (render_valid Hc) as (v & E & Hv).
  cbv zeta. rewrite E. cbn [resultOf stateOf callsOf fst snd].
  split; [reflexivity |]. split; [reflexivity |].
  split; [| split; reflexivity].
  split; [exact Hc |]. split; [exact Hv |]. split; [exact Hp | exact Hn].
Qed.

Lemma updateQuestions_consistent qs ts ui :
  consistent ui ->
  let r := updateQuestions qs ts ui in
  resultOf r = Ok tt /\ callsOf r = [] /\ consistent (stateOf r)
  /\ exists added, questionHistory (stateOf r) = questionHistory ui ++ added.
Proof.
  intros Hc. cbv zeta. unfold updateQuestions. rewrite bind_get.
  destruct (isHovering ui).
  - unfold modify. cbn [resultOf stateOf callsOf fst snd].
    split; [reflexivity |]. split; [reflexivity |]. split.
    + eapply consistent_same_list; eauto; try reflexivity. apply Hc.
    + exists []. rewrite app_nil_r. reflexivity.
  - destruct Hc as (Hc & Hv & Hp & Hn).
    assert (forall ui1,
      cursorValid ui1 -> conversationPaired ui1 ->
      Forall (fun g => questions g <> []) (questionHistory ui1) ->
      (exists added, questionHistory ui1 = questionHistory ui ++ added) ->
      let r := renderCurrentQuestions ui1 in
      resultOf r = Ok tt /\ callsOf r = [] /\ consistent (stateOf r)
      /\ exists added, questionHistory (stateOf r) = questionHistory ui ++ added)
      as Render.
    { intros ui1 H1 H2 H3 H4.
      destruct (render_consistent H1 H2 H3) as (R1 & R2 & R3 & R4 & _).
      cbv zeta. rewrite R4. auto. }
    destruct qs as [[| q rest] |].
    + rewrite bind_ret. apply Render; auto. exists []. now rewrite app_nil_r.
    + rewrite bind_assoc, bind_modify, bind_modify. apply Render.
      * right. cbn. rewrite length_app. cbn. lia.
      * exact Hp.
      * cbn. apply Forall_app. split; [exact Hn |].
        constructor; [cbn; congruence | constructor].
      * eexists. reflexivity.
    + rewrite bind_ret. apply Render; auto. exists []. now rewrite app_nil_r.
Qed.

Ltac same_list Hc :=
  eapply consistent_same_list; [| | | | exact Hc]; try reflexivity.

Ltac paired_by Hp E :=
  unfold conversationPaired in *; cbn; try rewrite E in Hp;
  split; intros ?; try apply Hp; congruence.

(** Every action keeps the overlay consistent, returns normally, and only
    ever extends the log. *)
Lemma perform_consistent act ui :
  consistent ui ->
  let r := perform act ui in
  resultOf r = Ok tt /\ consistent (stateOf r)
  /\ exists added, questionHistory (stateOf r) = questionHistory ui ++ added.
Proof.
  intros Hc.
  assert (forall ui', questionHistory ui' = questionHistory ui ->
            exists added, questionHistory ui' = questionHistory ui ++ added)
    as Same.
  { intros ui' E. exists []. now rewrite app_nil_r. }
  assert (conversationPaired ui) as Hp by apply Hc.
  assert (forall ui' tr,
            questionHistory ui' = questionHistory ui ->
            currentQuestionGroupIndex ui' = currentQuestionGroupIndex ui ->
            questionsList ui' = questionsList ui ->
            conversationPaired ui' ->
            let r := (Ok tt, ui', tr) in
            resultOf r = Ok tt /\ consistent (stateOf r)
            /\ exists added,
                 questionHistory (stateOf r) = questionHistory ui ++ added)
    as Framed.
  { intros ui' tr E1 E2 E3 E4. cbn. split; [reflexivity |]. split.
    - eapply consistent_same_list; eauto.
    - apply Same. exact E1. }
  destruct act; cbv zeta; unfold perform.
  - (* Deliver *)
    destruct (updateQuestions_consistent qs ts Hc) as (R & _ & C & A). auto.
  - (* HoverStart *)
    unfold onMouseEnter, modify. apply Framed; auto.
  - (* HoverEnd *)
    unfold onMouseLeave. rewrite bind_modify, bind_get.
    cbn [pendingQuestions setIsHovering].
    assert (consistent (setIsHovering false ui)) as Hc1
      by (same_list Hc; exact Hp).
    destruct (pendingQuestions ui) as [p |].
    + destruct (updateQuestions_consistent (pendingList p) (pendingTimestamp p) Hc1)
        as (R & _ & C & A).
      unfold resultOf, stateOf in *.
      destruct (updateQuestions (pendingList p) (pendingTimestamp p)
                  (setIsHovering false ui)) as [[res ui2] tr] eqn:E.
      cbn in R, C, A. subst res.
      match goal with |- context [bind ?m ?k ?a] =>
        rewrite (@bind_ok _ _ _ m k a _ _ _ E) end.
      unfold modify. cbn. split; [reflexivity |]. split; [| exact A].
      same_list C. apply C.
    + unfold ret. apply Framed; auto.
  - (* Back *)
    unfold navigateBackward. rewrite bind_get.
    destruct (0 <? currentQuestionGroupIndex ui)%Z eqn:E.
    + rewrite bind_modify. apply Z.ltb_lt in E.
      destruct Hc as (Hcur & _ & _ & Hn).
      assert (cursorValid
                (setCurrentQuestionGroupIndex (currentQuestionGroupIndex ui - 1) ui))
        as Hcur'.
      { right. cbn. destruct Hcur as [[_ Hi] | Hi]; lia. }
      destruct (@render_consistent _ Hcur' Hp Hn) as (R1 & _ & R3 & R4 & _).
      split; [exact R1 |]. split; [exact R3 |]. rewrite R4. apply Same. reflexivity.
    + unfold ret. apply Framed; auto.
  - (* Forward *)
    unfold navigateForward. rewrite bind_get.
    destruct (currentQuestionGroupIndex ui
              <? Z.of_nat (length (questionHistory ui)) - 1)%Z eqn:E.
    + rewrite bind_modify. apply Z.ltb_lt in E.
      destruct Hc as (Hcur & _ & _ & Hn).
      assert (cursorValid
                (setCurrentQuestionGroupIndex (currentQuestionGroupIndex ui + 1) ui))
        as Hcur'.
      { right. cbn. destruct Hcur as [[Hh Hi] | Hi]; [| lia].
        rewrite Hh, Hi in E. cbn in E. lia. }
      destruct (@render_consistent _ Hcur' Hp Hn) as (R1 & _ & R3 & R4 & _).
      split; [exact R1 |]. split; [exact R3 |]. rewrite R4. apply Same. reflexivity.
    + unfold ret. apply Framed; auto.
  - (* Fail *)
    unfold showError. rewrite bind_get.
    destruct (questionsList ui) eqn:El.
    + unfold modify. cbn. split; [reflexivity |]. split; [| apply Same; reflexivity].
      destruct Hc as (H1 & H2 & H3 & H4).
      split; [exact H1 |]. split; [exact Logic.I |]. split; [exact H3 | exact H4].
    + unfold ret. apply Framed; auto.
  - (* Ask *)
    unfold handleQuestionClick, showChatbox, destroyChatbox.
    eff_unfold. cbn.
    destruct (onQuestionClick ui); cbn;
      (split; [reflexivity |]; split; [| apply Same; reflexivity]);
      (same_list Hc; unfold conversationPaired; cbn; split; congruence).
  - (* Open *)
    unfold showChatbox, destroyChatbox. eff_unfold. cbn.
    split; [reflexivity |]. split; [| apply Same; reflexivity].
    same_list Hc. unfold conversationPaired; cbn; split; congruence.
  - (* Chunk *)
    unfold updateChatboxContent. rewrite bind_get.
    destruct (chatbox ui) as [c |] eqn:Ec.
    + destruct (isChatboxVisible ui); cbn [negb]; [unfold modify | unfold ret];
        apply Framed; auto.
      paired_by Hp Ec.
    + unfold ret. apply Framed; auto.
  - (* Finish *)
    unfold finishStreaming. rewrite bind_modify.
    destruct fullAnswer as [answer |]; [destruct (truthy answer) |].
    + rewrite bind_get. unfold modify. apply Framed; auto.
    + unfold ret. apply Framed; auto.
    + unfold ret. apply Framed; auto.
  - (* Send *)
    rewrite bind_get. destruct (chatbox ui) as [c |] eqn:Ec.
    + unfold handleSendMessage. rewrite bind_get.
      destruct (negb (truthy (trim value)) || isStreaming ui).
      * unfold ret. apply Framed; auto.
      * rewrite Ec. cbn [deref]. rewrite bind_ret, bind_modify, bind_modify.
        cbn [onFollowUpQuestion setConversationHistory setChatbox
             conversationContext].
        assert (conversationContext ui <> None) as Hctx
            by (apply Hp; congruence).
        destruct (onFollowUpQuestion ui).
        -- destruct (conversationContext ui) as [ctx |] eqn:Ex; [| congruence].
           cbn [deref]. rewrite bind_ret. unfold emit.
           apply Framed; auto. paired_by Hp Ec.
        -- unfold ret. apply Framed; auto. paired_by Hp Ec.
    + unfold ret. apply Framed; auto.
  - (* Close *)
    unfold closeChatbox. rewrite bind_get.
    destruct (chatbox ui) as [c |] eqn:Ec.
    + eff_unfold. cbn.
      split; [reflexivity |]. split; [| apply Same; reflexivity].
      same_list Hc. unfold conversationPaired; cbn; split; congruence.
    + unfold ret. apply Framed; auto.
  - (* Destroy *)
    unfold destroyChatbox. eff_unfold. cbn.
    split; [reflexivity |]. split; [| apply Same; reflexivity].
    same_list Hc. unfold conversationPaired; cbn; split; congruence.
  - (* RegisterFollowUp *)
    unfold setFollowUpQuestionHandler, modify. apply Framed; auto.
Qed.

Lemma performAll_consistent acts ui :
  consistent ui ->
  let r := performAll acts ui in
  resultOf r = Ok tt /\ consistent (stateOf r)
  /\ exists added, questionHistory (stateOf r) = questionHistory ui ++ added.
Proof.
  revert ui. induction acts as [| act acts IH]; intros ui Hc; cbv zeta.
  - cbn. split; [reflexivity |]. split; [exact Hc |].
    exists []. now rewrite app_nil_r.
  - unfold performAll. cbn [forEach].
    destruct (perform_consistent act Hc) as (R & C & [a1 A1]).
    unfold resultOf, stateOf in R, C, A1.
    destruct (perform act ui) as [[res ui1] tr] eqn:E. cbn in R, C, A1. subst res.
    match goal with |- context [bind ?m ?k ?a] =>
      rewrite (@bind_ok _ _ _ m k a _ _ _ E) end.
    destruct (IH ui1 C) as (R' & C' & [a2 A2]).
    cbn [resultOf stateOf fst snd]. unfold resultOf, stateOf in R', C', A2.
    unfold performAll in *.
    split; [exact R' |]. split; [exact C' |].
    exists (a1 ++ a2). unfold stateOf. rewrite A2, A1, app_assoc. reflexivity.
Qed.


(** No action ever shortens or rewrites the log, even from a state that
    is not consistent and even when the action throws. *)
Lemma perform_extends act ui :
  exists added,
    questionHistory (stateOf (perform act ui)) = questionHistory ui ++ added.
Proof.
  assert (forall ui', questionHistory ui' = questionHistory ui ->
            exists added, questionHistory ui' = questionHistory ui ++ added)
    as Same.
  { intros ui' E. exists []. now rewrite app_nil_r. }
  assert (forall ui1, questionHistory (stateOf (renderCurrentQuestions ui1))
                      = questionHistory ui1) as Render.
  { intros ui1. apply OverlayFacts.renderCurrentQuestions_frame. }
  assert (forall qs ts ui1 tr res ui2,
            updateQuestions qs ts ui1 = (res, ui2, tr) ->
            exists added, questionHistory ui2 = questionHistory ui1 ++ added)
    as Update.
  { intros qs ts ui1 tr res ui2 E.
    destruct (isHovering ui1) eqn:Eh.
    - rewrite (OverlayFacts.updateQuestions_hovering ui1 qs ts Eh) in E.
      inversion E; subst. exists []. now rewrite app_nil_r.
    - destruct (OverlayFacts.updateQuestions_idle ui1 qs ts Eh) as (_ & _ & H).
      rewrite E in H. cbn in H. eauto. }
  destruct act; unfold perform.
  - destruct (updateQuestions qs ts ui) as [[res ui2] tr] eqn:E. cbn.
    eapply Update; eauto.
  - apply Same. reflexivity.
  - unfold onMouseLeave. rewrite bind_modify, bind_get. cbn [pendingQuestions setIsHovering].
    destruct (pendingQuestions ui) as [p |]; [| apply Same; reflexivity].
    destruct (updateQuestions (pendingList p) (pendingTimestamp p)
                (setIsHovering false ui)) as [[res ui2] tr] eqn:E.
    destruct (Update _ _ _ _ _ _ E) as [added A]. cbn in A.
    exists added. rewrite <- A. unfold bind. rewrite E.
    destruct res; reflexivity.
  - unfold navigateBackward. rewrite bind_get.
    destruct (0 <? currentQuestionGroupIndex ui)%Z; [| apply Same; reflexivity].
    rewrite bind_modify. apply Same. rewrite Render. reflexivity.
  - unfold navigateForward. rewrite bind_get.
    destruct (currentQuestionGroupIndex ui
              <? Z.of_nat (length (questionHistory ui)) - 1)%Z;
      [| apply Same; reflexivity].
    rewrite bind_modify. apply Same. rewrite Render. reflexivity.
  - unfold showError. eff_unfold. apply Same.
    destruct (questionsList ui); reflexivity.
  - unfold handleQuestionClick, showChatbox, destroyChatbox. eff_unfold. cbn.
    apply Same. destruct (onQuestionClick ui); reflexivity.
  - apply Same. reflexivity.
  - unfold updateChatboxContent. eff_unfold. apply Same.
    destruct (chatbox ui); [destruct (isChatboxVisible ui) |]; reflexivity.
  - unfold finishStreaming. eff_unfold. apply Same. cbn.
    destruct fullAnswer as [answer |]; [destruct (truthy answer) |]; reflexivity.
  - rewrite bind_get.
    destruct (chatbox ui) as [c |] eqn:Ec; [| apply Same; reflexivity].
    unfold handleSendMessage. rewrite bind_get.
    destruct (negb (truthy (trim value)) || isStreaming ui);
      [apply Same; reflexivity |].
    rewrite Ec. cbn [deref]. rewrite bind_ret, bind_modify, bind_modify.
    cbn [onFollowUpQuestion setConversationHistory setChatbox
         conversationContext].
    destruct (onFollowUpQuestion ui); [| apply Same; reflexivity].
    destruct (conversationContext ui); cbn [deref];
      [rewrite bind_ret | rewrite bind_throw]; apply Same; reflexivity.
  - unfold closeChatbox. eff_unfold. apply Same.
    destruct (chatbox ui); reflexivity.
  - apply Same. reflexivity.
  - apply Same. reflexivity.
Qed.

(** X1.  From a consistent overlay -- the freshly built one is consistent --
    no sequence of overlay actions throws; afterwards the cursor is -1 on
    an empty log and a valid index otherwise, and no recorded group is
    empty.  The actions are those of [OverlayRunSpec.Action]: question
    updates, hovering, navigation, error display, question clicks and the
    chatbox life cycle, follow-ups being sent from an open chatbox. *)
Theorem overlay_actions_never_throw (acts : list Action) (ui : t) :
  consistent ui ->
  let r := performAll acts ui in
  resultOf r = Ok tt
  /\ cursorValid (stateOf r)
  /\ Forall (fun g => questions g <> []) (questionHistory (stateOf r)).
Proof.
  intros Hc. destruct (performAll_consistent acts Hc) as (R & C & _).
  split; [exact R |]. split; apply C.
Qed.

Lemma overlay_actions_never_throw_witness :
  consistent new
  /\ (let r := performAll [Back; Deliver (Some fiveQuestions) 30; Forward;
                           HoverStart; Deliver None 60; HoverEnd; Back] new in
      resultOf r = Ok tt
      /\ cursorValid (stateOf r)
      /\ Forall (fun g => questions g <> []) (questionHistory (stateOf r))).
Proof.
  split; [exact consistent_new |].
  apply (@overlay_actions_never_throw _ new). exact consistent_new.
Defined.

(** X2.  After any sequence of overlay actions from a consistent overlay, the
    list agrees with the log and the cursor: questions shown are the
    first three of the group under the cursor; there are no navigation
    buttons for a single group, else back is disabled exactly at the
    first group and forward exactly at the last; the analyzing text is
    shown only while the log is empty. *)
Theorem overlay_view_follows_cursor (acts : list Action) (ui : t) :
  consistent ui ->
  viewMatches (stateOf (performAll acts ui)).
Proof.
  intros Hc. destruct (performAll_consistent acts Hc) as (_ & C & _). apply C.
Qed.

Lemma overlay_view_follows_cursor_witness :
  consistent new
  /\ viewMatches
       (stateOf (performAll [Deliver (Some fiveQuestions) 30;
                             Deliver (Some [gravityQuestion]) 60; Back] new)).
Proof.
  split; [exact consistent_new |].
  apply (@overlay_view_follows_cursor _ new). exact consistent_new.
Defined.

(** X3.  From any overlay state, and whether or not an action throws, no
    sequence of overlay actions removes or rewrites a recorded group: the
    log afterwards is the log before, followed by what was added. *)
Theorem overlay_log_is_append_only (acts : list Action) (ui : t) :
  exists added,
    questionHistory (stateOf (performAll acts ui)) = questionHistory ui ++ added.
Proof.
  revert ui. induction acts as [| act acts IH]; intros ui.
  - exists []. cbn. now rewrite app_nil_r.
  - unfold performAll. cbn [forEach].
    destruct (perform_extends act ui) as [a1 A1].
    unfold stateOf in *. unfold bind.
    destruct (perform act ui) as [[[[] |] ui1] tr] eqn:E; cbn in A1.
    + destruct (IH ui1) as [a2 A2]. unfold performAll in A2.
      destruct (forEach acts perform ui1) as [[res ui2] tr2]. cbn in *.
      exists (a1 ++ a2). rewrite A2, A1, app_assoc. reflexivity.
    + cbn. eauto.
Qed.

End OverlayRunFacts.

(** ** Overlay: navigation *)

Module OverlayNavFacts.
Import UIOverlay OverlaySpec OverlayRunSpec.

(** Rendering with the cursor on a group shows that group. *)
Lemma render_shows ui :
  (0 <= currentQuestionGroupIndex ui
   < Z.of_nat (length (questionHistory ui)))%Z ->
  questionsList ui <> None ->
  exists g,
    nth_error (questionHistory ui) (Z.to_nat (currentQuestionGroupIndex ui))
    = Some g
    /\ renderCurrentQuestions ui
       = (Ok tt,
          setQuestionsList
            (Some (Questions (navFor ui) (firstn 3 (questions g)))) ui,
          []).
Proof.
  intros Hi Hl. unfold renderCurrentQuestions. rewrite bind_get.
  destruct (questionsList ui) as [old |] eqn:El; [| congruence].
  rewrite bind_modify.
  cbn [questionHistory currentQuestionGroupIndex setQuestionsList].
  replace (length (questionHistory ui) =? 0)%nat with false
    by (symmetry; apply Nat.eqb_neq; lia).
  replace (currentQuestionGroupIndex ui <? 0)%Z with false
    by (symmetry; apply Z.ltb_ge; lia).
  cbn [orb].
  destruct (nth_error (questionHistory ui)
              (Z.to_nat (currentQuestionGroupIndex ui))) as [g |] eqn:En.
  - exists g. split; [reflexivity |]. cbn [deref]. rewrite bind_ret.
    reflexivity.
  - exfalso. apply nth_error_None in En. lia.
Qed.

(** The state a consistent overlay showing questions is in is the one
    rendering produces. *)
Lemma shown_is_rendered ui nav shown g :
  viewMatches ui ->
  questionsList ui = Some (Questions nav shown) ->
  nth_error (questionHistory ui) (Z.to_nat (currentQuestionGroupIndex ui))
  = Some g ->
  setQuestionsList (Some (Questions (navFor ui) (firstn 3 (questions g)))) ui
  = ui.
Proof.
  intros Hv El En. unfold viewMatches in Hv. rewrite El in Hv.
  destruct Hv as (g' & En' & Hs & Hnav). rewrite En in En'.
  inversion En'; subst g' nav shown. rewrite <- El.
  destruct ui; reflexivity.
Qed.

(** X4.  On a consistent overlay whose list shows questions, back then
    forward (with the cursor past the first group) and forward then back
    (with the cursor before the last group) return normally and leave the
    whole overlay as it was, the list view included. *)
Theorem navigation_round_trip (ui : t) (nav : option (bool * bool))
        (shown : list Question) :
  consistent ui ->
  questionsList ui = Some (Questions nav shown) ->
  ((0 < currentQuestionGroupIndex ui)%Z ->
   (navigateBackward ;; navigateForward) ui = (Ok tt, ui, []))
  /\ ((currentQuestionGroupIndex ui
       < Z.of_nat (length (questionHistory ui)) - 1)%Z ->
      (navigateForward ;; navigateBackward) ui = (Ok tt, ui, [])).
Proof.
  intros (Hc & Hv & _ & _) El.
  assert (0 <= currentQuestionGroupIndex ui
          < Z.of_nat (length (questionHistory ui)))%Z as Hi.
  { destruct Hc as [[Hh Hi] | Hi]; [| exact Hi].
    unfold viewMatches in Hv. rewrite El, Hh, Hi in Hv.
    destruct Hv as (g & En & _). cbn in En. discriminate. }
  assert (forall d,
            (0 <= currentQuestionGroupIndex ui + d
             < Z.of_nat (length (questionHistory ui)))%Z ->
            exists v,
              renderCurrentQuestions
                (setCurrentQuestionGroupIndex
                   (currentQuestionGroupIndex ui + d) ui)
              = (Ok tt,
                 setQuestionsList (Some v)
                   (setCurrentQuestionGroupIndex
                      (currentQuestionGroupIndex ui + d) ui), [])) as Move.
  { intros d Hd.
    destruct (@render_shows
                (setCurrentQuestionGroupIndex
                   (currentQuestionGroupIndex ui + d) ui)) as (g & _ & E).
    - exact Hd.
    - cbn. congruence.
    - eexists. exact E. }
  assert (forall d v,
            renderCurrentQuestions
              (setCurrentQuestionGroupIndex
                 (currentQuestionGroupIndex ui + d - d)
                 (setQuestionsList (Some v)
                    (setCurrentQuestionGroupIndex
                       (currentQuestionGroupIndex ui + d) ui)))
            = (Ok tt, ui, [])) as Return.
  { intros d v.
    replace (currentQuestionGroupIndex ui + d - d)%Z
      with (currentQuestionGroupIndex ui) by lia.
    destruct (@render_shows
                (setCurrentQuestionGroupIndex (currentQuestionGroupIndex ui)
                   (setQuestionsList (Some v)
                      (setCurrentQuestionGroupIndex
                         (currentQuestionGroupIndex ui + d) ui))))
      as (g & En & E).
    - exact Hi.
    - cbn. congruence.
    - rewrite E. cbn in En. f_equal. f_equal.
      etransitivity; [| exact (@shown_is_rendered ui nav shown g Hv El En)].
      unfold navFor. destruct ui; reflexivity. }
  split; intros Hm.
  - destruct (Move (-1)%Z) as (v & E); [lia |].
    unfold navigateBackward at 1. rewrite bind_assoc, bind_get.
    replace (0 <? currentQuestionGroupIndex ui)%Z with true
      by (symmetry; apply Z.ltb_lt; lia).
    rewrite bind_assoc, bind_modify.
    change (currentQuestionGroupIndex ui - 1)%Z
      with (currentQuestionGroupIndex ui + -1)%Z.
    match goal with |- context [bind ?m ?k ?a] =>
      rewrite (@bind_ok _ _ _ m k a _ _ _ E) end.
    unfold navigateForward. rewrite bind_get.
    cbn [currentQuestionGroupIndex questionHistory setQuestionsList
         setCurrentQuestionGroupIndex].
    replace (currentQuestionGroupIndex ui + -1
             <? Z.of_nat (length (questionHistory ui)) - 1)%Z with true
      by (symmetry; apply Z.ltb_lt; lia).
    rewrite bind_modify.
    replace (currentQuestionGroupIndex ui + -1 + 1)%Z
      with (currentQuestionGroupIndex ui + -1 - -1)%Z by lia.
    rewrite Return. reflexivity.
  - destruct (Move 1%Z) as (v & E); [lia |].
    unfold navigateForward at 1. rewrite bind_assoc, bind_get.
    replace (currentQuestionGroupIndex ui
             <? Z.of_nat (length (questionHistory ui)) - 1)%Z with true
      by (symmetry; apply Z.ltb_lt; lia).
    rewrite bind_assoc, bind_modify.
    match goal with |- context [bind ?m ?k ?a] =>
      rewrite (@bind_ok _ _ _ m k a _ _ _ E) end.
    unfold navigateBackward. rewrite bind_get.
    cbn [currentQuestionGroupIndex questionHistory setQuestionsList
         setCurrentQuestionGroupIndex].
    replace (0 <? currentQuestionGroupIndex ui + 1)%Z with true
      by (symmetry; apply Z.ltb_lt; lia).
    rewrite bind_modify. rewrite Return. reflexivity.
Qed.

Lemma navigation_round_trip_witness :
  (navigateBackward ;; navigateForward) threeGroups = (Ok tt, threeGroups, [])
  /\ (navigateForward ;; navigateBackward) threeGroups
     = (Ok tt, threeGroups, []).
Proof.
  assert (consistent threeGroups) as Hc.
  { split; [right; cbn; lia |].
    split; [cbn; eexists; repeat split |].
    split; [split; intros H; exfalso; apply H; reflexivity |].
    repeat constructor; discriminate. }
  destruct (@navigation_round_trip threeGroups (Some (false, false))
              [OverlaySpec.gravityQuestion] Hc eq_refl) as [B F].
  split; [apply B | apply F]; reflexivity.
Defined.

End OverlayNavFacts.

(** ** Overlay: follow-up questions *)

Module FollowUpFacts.
Import UIOverlay OverlaySpec OverlayRunSpec.





End FollowUpFacts.

(** ** Overlay: the stored toggle state *)

Module ControlFacts.
Import UIOverlay OverlayControls.

Lemma strictEquals_boolToString b :
  strictEquals (boolToString b) (js "true") = b.
Proof. destruct b; reflexivity. Qed.

Lemma saveToggleState_ok p :
  accessible (localStorage (snd p)) = true ->
  saveToggleState p
  = (Ok tt,
     (fst p,
      setLocalStorage
        {| accessible := true;
           stored := Some (boolToString (aiEnabled (fst p))) |} (snd p)),
     []).
Proof.
  intros Ha. unfold saveToggleState, tryCatch. rewrite bind_get.
  unfold setItem. rewrite Ha. reflexivity.
Qed.

Lemma loadToggleState_stored p saved :
  accessible (localStorage (snd p)) = true ->
  stored (localStorage (snd p)) = Some saved ->
  loadToggleState p
  = (Ok tt, (setAiEnabled (strictEquals saved (js "true")) (fst p), snd p), []).
Proof.
  intros Ha Hs. unfold loadToggleState, tryCatch. rewrite bind_get.
  unfold getItem. rewrite Ha, Hs. reflexivity.
Qed.

(** X6.  With an accessible [localStorage], what [saveToggleState] writes is
    what [loadToggleState] reads back: an overlay loading from the
    storage another overlay saved to gets that overlay's [aiEnabled], and
    loading returns normally. *)
Theorem toggle_state_round_trip (saving loading : Page) :
  accessible (localStorage (snd saving)) = true ->
  localStorage (snd loading)
  = localStorage (snd (stateOf (saveToggleState saving))) ->
  let r := loadToggleState loading in
  resultOf r = Ok tt
  /\ aiEnabled (fst (stateOf r)) = aiEnabled (fst saving).
Proof.
  intros Ha Hl. cbv zeta. rewrite (saveToggleState_ok saving Ha) in Hl.
  cbn [stateOf fst snd localStorage setLocalStorage] in Hl.
  rewrite (@loadToggleState_stored loading
             (boolToString (aiEnabled (fst saving)))).
  - cbn [resultOf stateOf fst snd aiEnabled setAiEnabled].
    rewrite strictEquals_boolToString. split; reflexivity.
  - rewrite Hl. reflexivity.
  - rewrite Hl. reflexivity.
Qed.

Lemma toggle_state_round_trip_witness :
  let saving :=
    (setAiEnabled false UIOverlay.new,
     newChrome {| accessible := true; stored := None |}) in
  let loading :=
    (UIOverlay.new,
     newChrome (localStorage (snd (stateOf (saveToggleState saving))))) in
  aiEnabled (fst (stateOf (loadToggleState loading))) = false.
Proof.
  exact (proj2 (@toggle_state_round_trip
                  (setAiEnabled false UIOverlay.new,
                   newChrome {| accessible := true; stored := None |})
                  (UIOverlay.new,
                   newChrome
                     (localStorage
                        (snd (stateOf
                                (saveToggleState
                                   (setAiEnabled false UIOverlay.new,
                                    newChrome {| accessible := true;
                                                 stored := None |}))))))
                  eq_refl eq_refl)).
Defined.

End ControlFacts.

(** ** Overlay: the AI toggle and visibility *)

Module ToggleFacts.
Import UIOverlay OverlayControls ControlSpec.

Lemma hide_blocked p :
  isChatboxVisible (fst p) = true \/ isStreaming (fst p) = true ->
  hide p = (Ok tt, p, []).
Proof.
  intros H. unfold hide. rewrite bind_get.
  destruct (overlay (snd p)); [| reflexivity]. cbn [negb].
  destruct (isChatboxVisible (fst p)); [reflexivity |].
  destruct H as [H | H]; [discriminate |]. rewrite H. reflexivity.
Qed.

(** What [hide] touches. *)
Lemma hide_frame p :
  exists v, hide p = (Ok tt, (fst p, setIsVisible v (snd p)), [])
            /\ (v = isVisible (snd p) \/ v = false).
Proof.
  unfold hide. rewrite bind_get.
  assert ((fst p, setIsVisible (isVisible (snd p)) (snd p)) = p) as Same.
  { destruct p as [ui []]. reflexivity. }
  destruct (overlay (snd p)); cbn [negb];
    [| exists (isVisible (snd p)); rewrite Same; auto].
  destruct (isChatboxVisible (fst p));
    [exists (isVisible (snd p)); rewrite Same; auto |].
  destruct (isStreaming (fst p));
    [exists (isVisible (snd p)); rewrite Same; auto |].
  cbv zeta.
  destruct (isTypingIn (js "yt-ai-user-query-input") (snd p)
            || isTypingIn (js "ytai-followup-input") (snd p));
    [exists (isVisible (snd p)); rewrite Same; auto |].
  exists false. split; [reflexivity | auto].
Qed.

(** X7.  With the toggle button present and no callback installed,
    [toggleAI] returns normally, flips [aiEnabled], sets the button's
    [aria-pressed] to the new value and stores the new value when
    [localStorage] is accessible; an inaccessible storage is left as it
    is. *)
Theorem toggleAI_indicators_agree (p : Page) (pressed : jsstring) :
  toggleButton (snd p) = Some pressed ->
  let r := toggleAIAlone p in
  let enabled := negb (aiEnabled (fst p)) in
  resultOf r = Ok tt
  /\ aiEnabled (fst (stateOf r)) = enabled
  /\ toggleButton (snd (stateOf r)) = Some (boolToString enabled)
  /\ localStorage (snd (stateOf r))
     = (if accessible (localStorage (snd p))
        then {| accessible := true; stored := Some (boolToString enabled) |}
        else localStorage (snd p)).
Proof.
  intros Hb. cbv zeta. unfold toggleAIAlone, toggleAI.
  destruct p as [ui c]. cbn [fst snd] in *.
  unfold saveToggleState, hide, onThis, onChrome, zoom, isAIEnabled, setItem.
  eff_unfold. cbn -[boolToString isTypingIn]. rewrite Hb.
  cbn -[boolToString isTypingIn].
  destruct (accessible (localStorage c)), (aiEnabled ui);
    cbn -[boolToString isTypingIn].
  all: destruct (overlay c); cbn -[boolToString isTypingIn]; auto.
  all: destruct (isChatboxVisible ui); cbn -[boolToString isTypingIn]; auto.
  all: destruct (isStreaming ui); cbn -[boolToString isTypingIn]; auto.
  all: try match goal with
           | |- context [isTypingIn ?a ?c || isTypingIn ?b ?c] =>
               destruct (isTypingIn a c || isTypingIn b c);
               cbn -[boolToString isTypingIn]; auto
           end.
Qed.


Lemma toggleAI_indicators_agree_witness :
  let r := toggleAIAlone hoveredPage in
  aiEnabled (fst (stateOf r)) = false
  /\ toggleButton (snd (stateOf r)) = Some (js "false")
  /\ stored (localStorage (snd (stateOf r))) = Some (js "false").
Proof.
  destruct (@toggleAI_indicators_agree hoveredPage (js "true") eq_refl)
    as (_ & A & B & C).
  split; [exact A |]. split; [exact B |]. cbv zeta. rewrite C. reflexivity.
Defined.

Lemma toggleAI_off p pressed :
  toggleButton (snd p) = Some pressed ->
  aiEnabled (fst p) = true ->
  resultOf (toggleAIAlone p) = Ok tt
  /\ fst (stateOf (toggleAIAlone p))
     = setPendingQuestions None (setAiEnabled false (fst p))
  /\ overlay (snd (stateOf (toggleAIAlone p))) = overlay (snd p).
Proof.
  intros Hb He. unfold toggleAIAlone, toggleAI.
  destruct p as [ui c]. cbn [fst snd] in *.
  unfold saveToggleState, hide, onThis, onChrome, zoom, isAIEnabled, setItem.
  eff_unfold. cbn -[boolToString isTypingIn]. rewrite Hb, He.
  cbn -[boolToString isTypingIn].
  destruct (accessible (localStorage c)); cbn -[boolToString isTypingIn].
  all: destruct (overlay c) eqn:Eo; cbn -[boolToString isTypingIn]; auto.
  all: destruct (isChatboxVisible ui); cbn -[boolToString isTypingIn]; auto.
  all: destruct (isStreaming ui); cbn -[boolToString isTypingIn]; auto.
  all: try match goal with
           | |- context [isTypingIn ?a ?c || isTypingIn ?b ?c] =>
               destruct (isTypingIn a c || isTypingIn b c);
               cbn -[boolToString isTypingIn]; auto
           end.
Qed.

(** X8.  Switching the feature off with [toggleAI] drops the update queued
    while the user hovered: the pending slot is empty, the following
    [mouseleave] delivers nothing (log, cursor and list unchanged), and
    [show] does nothing while the feature is off. *)
Theorem disabling_discards_pending_update (p : Page) (pressed : jsstring) :
  toggleButton (snd p) = Some pressed ->
  aiEnabled (fst p) = true ->
  let off := stateOf (toggleAIAlone p) in
  let left := onThis onMouseLeave off in
  pendingQuestions (fst off) = None
  /\ resultOf left = Ok tt
  /\ questionHistory (fst (stateOf left)) = questionHistory (fst p)
  /\ currentQuestionGroupIndex (fst (stateOf left))
     = currentQuestionGroupIndex (fst p)
  /\ questionsList (fst (stateOf left)) = questionsList (fst p)
  /\ show off = (Ok tt, off, []).
Proof.
  intros Hb He. cbv zeta.
  destruct (toggleAI_off p Hb He) as (_ & Hs & _).
  revert Hs. generalize (stateOf (toggleAIAlone p)). intros [ui' c'] Hs.
  cbn [fst] in Hs. subst ui'.
  unfold onThis, zoom, onMouseLeave, show. eff_unfold. cbn.
  repeat split. destruct (overlay c'); reflexivity.
Qed.

Lemma disabling_discards_pending_update_witness :
  let queued :=
    stateOf (onThis (updateQuestions (Some [OverlaySpec.gravityQuestion]) 30)
               hoveredPage) in
  pendingQuestions (fst queued) <> None
  /\ questionHistory
       (fst (stateOf (onThis onMouseLeave (stateOf (toggleAIAlone queued)))))
     = [].
Proof.
  cbv zeta. split; [cbn; discriminate |].
  refine (proj1 (proj2 (proj2
    (@disabling_discards_pending_update _ (js "true") _ _)))); reflexivity.
Defined.

(** X9.  [closeChatbox] does not reset [isStreaming]: after a question click
    and a close, the chatbox is no longer visible but [hide] still does
    nothing; once [finishStreaming] has run, [hide] hides the overlay
    (the user not typing in one of the two input fields). *)
Theorem closing_mid_stream_blocks_hide (p : Page) (question : jsstring)
        (index : Z) (s e : Q) :
  overlay (snd p) = true ->
  notTyping (snd p) ->
  let closed :=
    stateOf (onThis (handleQuestionClick question index s e ;; closeChatbox) p) in
  isChatboxVisible (fst closed) = false
  /\ hide closed = (Ok tt, closed, [])
  /\ isVisible
       (snd (stateOf ((onThis (finishStreaming None) ;; hide) closed)))
     = false.
Proof.
  intros Ho [T1 T2]. cbv zeta.
  assert (exists tr,
    onThis (handleQuestionClick question index s e ;; closeChatbox) p
    = (Ok tt,
       (setConversationContext None
          (setConversationHistory []
             (setIsChatboxVisible false
                (setChatbox None
                   (setIsStreaming true
                      (setIsChatboxVisible true
                         (setChatbox
                            (Some {| questionBlock := question;
                                     answerBlock := Loading |})
                            (setConversationContext
                               (Some {| ctxStartTime := Some s;
                                        ctxEndTime := Some e |})
                               (setConversationHistory
                                  [{| role := user; content := question |}]
                                  (fst p))))))))),
        snd p), tr)) as [tr E].
  { unfold onThis, zoom, handleQuestionClick, showChatbox, destroyChatbox,
      closeChatbox.
    eff_unfold. cbn. destruct (onQuestionClick (fst p)); eexists; reflexivity. }
  rewrite E. cbn [stateOf fst snd]. split; [reflexivity |]. split.
  - apply hide_blocked. right. reflexivity.
  - unfold onThis, zoom, finishStreaming, hide. eff_unfold. cbn -[js].
    rewrite Ho, T1, T2. reflexivity.
Qed.

Lemma closing_mid_stream_blocks_hide_witness :
  let closed :=
    stateOf (onThis (handleQuestionClick (js "Why?") 0 30 60 ;; closeChatbox)
               hoveredPage) in
  hide closed = (Ok tt, closed, []).
Proof.
  refine (proj1 (proj2
    (@closing_mid_stream_blocks_hide hoveredPage (js "Why?") 0%Z 30 60 _ _))).
  - reflexivity.
  - split; reflexivity.
Defined.

End ToggleFacts.

(** ** Overlay: typed questions and the wait for the player *)

Module SubmitFacts.
Import UIOverlay OverlayControls ControlSpec.




Lemma checkPlayer_spec present remaining attempts :
  (50 <= S attempts + remaining)%nat ->
  let n := checkPlayer remaining present attempts in
  (attempts < n)%nat
  /\ (n <= Nat.max 50 (S attempts))%nat
  /\ (present n = true \/ (50 <= n)%nat)
  /\ forall k, (attempts < k < n)%nat -> present k = false.
Proof.
  revert attempts. induction remaining as [| remaining IH];
    intros attempts Hf; cbn [checkPlayer].
  - destruct (present (S attempts) || (50 <=? S attempts)%nat) eqn:E.
    + cbv zeta. split; [lia |]. split; [lia |]. split.
      * apply orb_true_iff in E. destruct E as [E | E]; [auto |].
        right. apply Nat.leb_le in E. exact E.
      * intros k Hk. lia.
    + apply orb_false_iff in E. destruct E as [_ E].
      apply Nat.leb_gt in E. lia.
  - destruct (present (S attempts) || (50 <=? S attempts)%nat) eqn:E.
    + cbv zeta. split; [lia |]. split; [lia |]. split.
      * apply orb_true_iff in E. destruct E as [E | E]; [auto |].
        right. apply Nat.leb_le in E. exact E.
      * intros k Hk. lia.
    + apply orb_false_iff in E. destruct E as [Ep E].
      apply Nat.leb_gt in E.
      destruct (IH (S attempts)) as (H1 & H2 & H3 & H4); [lia |].
      cbv zeta. split; [lia |]. split; [lia |]. split; [exact H3 |].
      intros k Hk. destruct (Nat.eq_dec k (S attempts)) as [-> | Hne];
        [exact Ep | apply H4; lia].
Qed.

(** X11.  [waitForPlayer] always resolves, after 1 to 50 polls: at the first
    poll that finds a player container, or at the 50th when none does; no
    earlier poll found one. *)
Theorem waitForPlayer_resolves_within_fifty_polls (present : nat -> bool) :
  let n := waitForPlayer present in
  (1 <= n <= 50)%nat
  /\ (present n = true \/ n = 50%nat)
  /\ forall k, (1 <= k < n)%nat -> present k = false.
Proof.
  destruct (@checkPlayer_spec present 50 0) as (H1 & H2 & H3 & H4); [lia |].
  cbv zeta. unfold waitForPlayer. cbn [Nat.max] in H2.
  replace (Nat.max 50 1) with 50%nat in H2 by reflexivity.
  split; [lia |]. split.
  - destruct H3 as [H3 | H3]; [auto | right; lia].
  - intros k Hk. apply H4. lia.
Qed.

End SubmitFacts.

(** ** Assistant: restart and navigation *)

Module LifecycleFacts.
Import YouTubeAIAssistant AssistantLifecycle AssistantSpec TriggerSpec
       LifecycleSpec.

Lemma keepsLog_refl ui : keepsLog ui ui.
Proof. split; [reflexivity |]. exists []. now rewrite app_nil_r. Qed.

Lemma keepsLog_trans ui u v : keepsLog ui u -> keepsLog u v -> keepsLog ui v.
Proof.
  intros (E1 & a1 & A1) (E2 & a2 & A2). split; [congruence |].
  exists (a1 ++ a2). rewrite A2, A1, app_assoc. reflexivity.
Qed.

Lemma sound_keepsLog_updateQuestions ui qs ts :
  sound (keepsLog ui) cycleCall (UIOverlay.updateQuestions qs ts).
Proof.
  intros u Hu.
  destruct (AssistantFacts.updateQuestions_session qs ts u) as ((E & _) & C).
  rewrite C. split; [| constructor].
  apply (keepsLog_trans Hu). split; [exact E |].
  exact (OverlayRunFacts.perform_extends (OverlayRunSpec.Deliver qs ts) u).
Qed.

Lemma sound_keepsLog_showError ui m :
  sound (keepsLog ui) cycleCall (UIOverlay.showError m).
Proof.
  intros u Hu.
  destruct (AssistantFacts.showError_session m u) as ((E & _) & C).
  rewrite C. split; [| constructor].
  apply (keepsLog_trans Hu). split; [exact E |].
  exact (OverlayRunFacts.perform_extends (OverlayRunSpec.Fail m) u).
Qed.

Section Lifecycle.
Variable JSON_parse : jsstring -> option PromptClient.JSON.
Variable refreshTracks : SubtitleParser -> Res SubtitleParser.

(** A detached cycle returns, keeps every assistant field outside the
    components, keeps the toggle and the log, and makes only cycle calls. *)
Lemma detached_cycle_frame (J : t -> Prop) a ui :
  componentStable J -> J a -> uiOverlay a = Some ui ->
  let r := detached (updateQuestions JSON_parse) a in
  resultOf r = Ok tt
  /\ J (stateOf r)
  /\ (exists u, uiOverlay (stateOf r) = Some u /\ keepsLog ui u)
  /\ Forall cycleCall (callsOf r).
Proof.
  intros HJ Ja Hui. cbv zeta.
  assert (sound (withOverlay J (keepsLog ui)) cycleCall
            (detached (updateQuestions JSON_parse))) as Hs.
  { apply sound_tryCatch; [| apply sound_ret].
    apply AssistantFacts.sound_updateQuestions; [exact HJ | |].
    - intros qs ts. apply sound_keepsLog_updateQuestions.
    - intros m. apply sound_keepsLog_showError. }
  destruct (Hs a) as [(J' & u & Hu & K) Hc].
  { split; [exact Ja |]. exists ui. split; [exact Hui | apply keepsLog_refl]. }
  split; [| split; [exact J' | split; [eauto | exact Hc]]].
  unfold detached, tryCatch, ret, resultOf.
  destruct (updateQuestions JSON_parse a) as [[[[] |] s'] tr]; reflexivity.
Qed.


Lemma restarted_stable a found : componentStable (restarted a found).
Proof.
  split; intros b x (H1 & H2 & H3 & H4 & H5 & H6); repeat split; assumption.
Qed.

Lemma startQuestionLoop_stopped a0 a found ui :
  isRunning a = false ->
  lastTriggerTime a = 0%Z ->
  isInitialized a = isInitialized a0 ->
  questionGenerationInterval a = questionGenerationInterval a0 ->
  promptClient a = promptClient a0 ->
  uiOverlay a = Some ui ->
  let r := startQuestionLoop JSON_parse found a in
  resultOf r = Ok tt
  /\ restarted a0 found (stateOf r)
  /\ (exists u, uiOverlay (stateOf r) = Some u /\ keepsLog ui u)
  /\ Forall cycleCall (callsOf r).
Proof.
  intros Hr Hl Hi Hq Hp Hui. cbv zeta. unfold startQuestionLoop.
  rewrite bind_get, Hr, bind_modify, bind_modify.
  set (a1 := setVideoElement found (setIsRunning true a)).
  assert (restarted a0 found a1) as R1 by (repeat split; assumption).
  assert (uiOverlay a1 = Some ui) as U1 by exact Hui.
  destruct found as [video |].
  - assert (onUI UIOverlay.isAIEnabled a1
            = (Ok (UIOverlay.aiEnabled ui), setUiOverlay (Some ui) a1, []))
      as E.
    { unfold onUI. rewrite U1. reflexivity. }
    match goal with |- context [bind ?m ?k a1] =>
      rewrite (@bind_ok _ _ _ m k a1 _ _ _ E) end.
    cbn [app].
    assert (restarted a0 (Some video) (setUiOverlay (Some ui) a1)) as R2
      by (apply restarted_stable; exact R1).
    destruct (UIOverlay.aiEnabled ui).
    + destruct (@detached_cycle_frame (restarted a0 (Some video))
                  (setUiOverlay (Some ui) a1) ui
                  (restarted_stable a0 (Some video)) R2 eq_refl)
        as (D1 & D2 & D3 & D4).
      split; [exact D1 |]. split; [exact D2 |]. split; [exact D3 | exact D4].
    + cbn. split; [reflexivity |]. split; [exact R2 |].
      split; [| constructor]. exists ui. split; [reflexivity |].
      apply keepsLog_refl.
  - cbn. split; [reflexivity |]. split; [exact R1 |].
    split; [| constructor]. exists ui. split; [exact U1 |].
    apply keepsLog_refl.
Qed.

Lemma handleVideoNavigation_frame a found sp refreshed ui :
  isInitialized a = true ->
  subtitleParser a = Some sp ->
  refreshTracks sp = Ok refreshed ->
  uiOverlay a = Some ui ->
  let r := handleVideoNavigation JSON_parse refreshTracks found a in
  resultOf r = Ok tt
  /\ restarted a found (stateOf r)
  /\ (exists u, uiOverlay (stateOf r) = Some u /\ keepsLog ui u)
  /\ Forall cycleCall (callsOf r).
Proof.
  intros Hi Hsp Hrf Hui. cbv zeta. unfold handleVideoNavigation.
  rewrite bind_get, Hi. cbn [negb]. rewrite bind_modify.
  set (a1 := setLastTriggerTime 0 a).
  assert (exists a2,
            (match summarizerClient a with
             | Some _ => onSummarizer SummarizerClient.clearCache
             | None => ret tt
             end) a1 = (Ok tt, a2, [])
            /\ uiOverlay a2 = Some ui
            /\ isInitialized a2 = true
            /\ questionGenerationInterval a2 = questionGenerationInterval a
            /\ promptClient a2 = promptClient a) as (a2 & E2 & U2 & I2 & Q2 & P2).
  { destruct (summarizerClient a) as [sc |] eqn:Es.
    - unfold onSummarizer. subst a1. cbn [summarizerClient setLastTriggerTime].
      rewrite Es. unfold SummarizerClient.clearCache, modify.
      eexists. split; [reflexivity |]. repeat split; assumption.
    - exists a1. repeat split; assumption. }
  match goal with |- context [bind ?m ?k a1] =>
    rewrite (@bind_ok _ _ _ m k a1 _ _ _ E2) end.
  cbn [app]. rewrite Hsp. cbn [deref]. rewrite bind_ret, Hrf.
  rewrite bind_modify. unfold stopQuestionLoop.
  assert (isInitialized a2 = isInitialized a) as I2' by congruence.
  rewrite bind_assoc, bind_modify, bind_modify.
  destruct (@startQuestionLoop_stopped a
              (setLastTriggerTime 0
                 (setIsRunning false (setSubtitleParser (Some refreshed) a2)))
              found ui eq_refl eq_refl I2' Q2 P2 U2) as (S1 & S2 & S3 & S4).
  unfold resultOf, stateOf, callsOf in *. cbn [fst snd app].
  split; [exact S1 |]. split; [exact S2 |]. split; [exact S3 | exact S4].
Qed.



(** X13.  [handleVideoNavigation] never clears the overlay's log: afterwards
    the log is the log before followed by what the initial cycle of the
    restart added, so the questions of the previous video stay reachable. *)
Theorem navigation_keeps_question_log (a : t) (found : option Video)
        (sp refreshed : SubtitleParser) (ui : UIOverlay.t) :
  isInitialized a = true ->
  subtitleParser a = Some sp ->
  refreshTracks sp = Ok refreshed ->
  uiOverlay a = Some ui ->
  let r := handleVideoNavigation JSON_parse refreshTracks found a in
  exists u added,
    uiOverlay (stateOf r) = Some u
    /\ UIOverlay.questionHistory u = UIOverlay.questionHistory ui ++ added.
Proof.
  intros Hi Hsp Hrf Hui. cbv zeta.
  destruct (@handleVideoNavigation_frame a found sp refreshed ui Hi Hsp Hrf Hui)
    as (_ & _ & (u & Hu & (_ & added & Ha)) & _).
  exists u, added. split; assumption.
Qed.

(** X14.  [startQuestionLoop] sets [isRunning] before it looks for the video
    element: when none is found the loop is marked running with no video
    element, a later [startQuestionLoop] that would find one returns at
    once without storing it, and [handleVideoTimeUpdate] does nothing. *)
Theorem start_without_video_sticks (a : t) (video : Video) :
  isRunning a = false ->
  let stuck := stateOf (startQuestionLoop JSON_parse None a) in
  isRunning stuck = true
  /\ videoElement stuck = None
  /\ startQuestionLoop JSON_parse (Some video) stuck = (Ok tt, stuck, [])
  /\ handleVideoTimeUpdate JSON_parse stuck = (Ok tt, stuck, []).
Proof.
  intros Hr. cbv zeta.
  assert (startQuestionLoop JSON_parse None a
          = (Ok tt, setVideoElement None (setIsRunning true a), [])) as E.
  { unfold startQuestionLoop.
    rewrite bind_get, Hr, bind_modify, bind_modify. reflexivity. }
  rewrite E. cbn [stateOf fst snd].
  split; [reflexivity |]. split; [reflexivity |]. split.
  - unfold startQuestionLoop. rewrite bind_get. reflexivity.
  - unfold handleVideoTimeUpdate. rewrite bind_get. reflexivity.
Qed.

End Lifecycle.


Lemma navigation_keeps_question_log_witness :
  let before :=
    setUiOverlay (Some OverlayRunSpec.threeGroups) Demo.assistant in
  exists u added,
    uiOverlay (stateOf (handleVideoNavigation Demo.noJSON sameTracks
                          (Some pageVideo) before)) = Some u
    /\ UIOverlay.questionHistory u
       = UIOverlay.questionHistory OverlayRunSpec.threeGroups ++ added.
Proof.
  exact (@navigation_keeps_question_log Demo.noJSON sameTracks
           (setUiOverlay (Some OverlayRunSpec.threeGroups) Demo.assistant)
           (Some pageVideo) Demo.subtitleParser Demo.subtitleParser
           OverlayRunSpec.threeGroups eq_refl eq_refl eq_refl eq_refl).
Defined.

Lemma start_without_video_sticks_witness :
  let stuck :=
    stateOf (startQuestionLoop Demo.noJSON None
               (setIsRunning false Demo.assistant)) in
  startQuestionLoop Demo.noJSON (Some pageVideo) stuck = (Ok tt, stuck, [])
  /\ handleVideoTimeUpdate Demo.noJSON stuck = (Ok tt, stuck, []).
Proof.
  destruct (@start_without_video_sticks Demo.noJSON
              (setIsRunning false Demo.assistant) pageVideo eq_refl)
    as (_ & _ & A & B).
  split; [exact A | exact B].
Defined.

End LifecycleFacts.

(** ** Assistant: the AI toggle *)

Module ToggleCycleFacts.
Import YouTubeAIAssistant AssistantLifecycle AssistantSpec TriggerSpec
       LifecycleSpec.

Section Toggle.
Variable JSON_parse : jsstring -> option PromptClient.JSON.

(** With the feature off a position update does nothing but note the
    position. *)
Lemma timeupdate_disabled a ui time :
  uiOverlay a = Some ui ->
  UIOverlay.aiEnabled ui = false ->
  let r := timeupdate JSON_parse time a in
  resultOf r = Ok tt /\ callsOf r = []
  /\ uiOverlay (stateOf r) = Some ui
  /\ lastTriggerTime (stateOf r) = lastTriggerTime a.
Proof.
  intros Hui Hen. cbv zeta. unfold timeupdate. rewrite bind_modify.
  unfold handleVideoTimeUpdate. rewrite bind_get.
  cbn [isRunning setVideoElement videoElement].
  destruct (isRunning a); [| repeat split; assumption].
  cbn [paused].
  unfold onUI, UIOverlay.isAIEnabled. eff_unfold.
  cbn [uiOverlay setVideoElement]. rewrite Hui, Hen. cbn.
  repeat split.
Qed.

Lemma positionUpdates_disabled a ui times :
  uiOverlay a = Some ui ->
  UIOverlay.aiEnabled ui = false ->
  let r := positionUpdates JSON_parse times a in
  resultOf r = Ok tt /\ callsOf r = []
  /\ uiOverlay (stateOf r) = Some ui
  /\ lastTriggerTime (stateOf r) = lastTriggerTime a.
Proof.
  revert a. induction times as [| time rest IH]; intros a Hui Hen; cbv zeta.
  - repeat split; assumption.
  - destruct (timeupdate_disabled a time Hui Hen) as (R & C & U & L).
    unfold positionUpdates. cbn [forEach].
    fold (positionUpdates JSON_parse rest).
    unfold bind, detached, tryCatch, resultOf, stateOf, callsOf in *.
    destruct (timeupdate JSON_parse time a) as [[r a'] tr].
    cbn [fst snd] in *. subst r tr.
    destruct (IH a' U Hen) as (R' & C' & U' & L').
    unfold resultOf, stateOf, callsOf in *.
    destruct (positionUpdates JSON_parse rest a') as [[r' a''] tr'].
    cbn [fst snd] in *. subst.
    repeat split; try assumption. congruence.
Qed.

(** X15.  A click on the toggle while the feature is on (button present,
    callback installed) returns normally and calls nothing; afterwards no
    sequence of position updates calls anything or changes
    [lastTriggerTime]: no cycle starts while the feature is off. *)
Theorem toggle_off_stops_generation (w : World) (ui : UIOverlay.t)
        (pressed : jsstring) (times : list Q) :
  uiOverlay (fst w) = Some ui ->
  UIOverlay.aiEnabled ui = true ->
  OverlayControls.toggleButton (snd w) = Some pressed ->
  let r := clickToggle JSON_parse w in
  let later := positionUpdates JSON_parse times (fst (stateOf r)) in
  resultOf r = Ok tt
  /\ callsOf r = []
  /\ callsOf later = []
  /\ lastTriggerTime (stateOf later) = lastTriggerTime (fst w).
Proof.
  intros Hui Hen Hb. cbv zeta.
  assert (resultOf (clickToggle JSON_parse w) = Ok tt
          /\ callsOf (clickToggle JSON_parse w) = []
          /\ lastTriggerTime (fst (stateOf (clickToggle JSON_parse w)))
             = lastTriggerTime (fst w)
          /\ exists u,
               uiOverlay (fst (stateOf (clickToggle JSON_parse w))) = Some u
               /\ UIOverlay.aiEnabled u = false) as (R & C & L & u & Hu & Eu).
  { unfold clickToggle, OverlayControls.toggleAI, aiToggleCallback.
    destruct w as [a c]. cbn [fst snd] in *.
    destruct c as [ov vis ht tb ae [acc st]].
    destruct ui as [en hov pend cb cbv str qh idx ch cc oq ofu ql].
    cbn [OverlayControls.toggleButton UIOverlay.aiEnabled] in *.
    subst en tb.
    unfold onPage, OverlayControls.saveToggleState, OverlayControls.hide,
      OverlayControls.onThis, OverlayControls.onChrome, zoom,
      UIOverlay.isAIEnabled, OverlayControls.setItem,
      OverlayControls.isTypingIn.
    eff_unfold. cbn -[OverlayControls.boolToString OverlayControls.strictEquals js].
    rewrite Hui.
    destruct acc, ov, cbv, str, ae as [active |];
      cbn -[OverlayControls.boolToString OverlayControls.strictEquals js];
      repeat match goal with
             | |- context [OverlayControls.strictEquals ?x ?y] =>
                 destruct (OverlayControls.strictEquals x y);
                 cbn -[OverlayControls.boolToString
                       OverlayControls.strictEquals js]
             end;
      (split; [reflexivity |]; split; [reflexivity |];
       split; [reflexivity |]; eexists; split; reflexivity). }
  destruct (@positionUpdates_disabled _ u times Hu Eu) as (_ & C' & _ & L').
  split; [exact R |]. split; [exact C |]. split; [exact C' |]. congruence.
Qed.


Lemma tryCatch_calls_prefix {S A} (m h : Eff S A) s c :
  (exists rest, callsOf (m s) = c :: rest) ->
  exists rest, callsOf (tryCatch m h s) = c :: rest.
Proof.
  intros [rest E]. unfold tryCatch, callsOf in *.
  destruct (m s) as [[[x |] s1] tr1]; cbn [snd] in *; subst tr1.
  - eexists. reflexivity.
  - destruct (h s1) as [[r2 s2] tr2]. cbn. eexists. reflexivity.
Qed.

Lemma bind_calls_prefix {S A B} (m : Eff S A) (k : A -> Eff S B) s c :
  (exists rest, callsOf (m s) = c :: rest) ->
  exists rest, callsOf (bind m k s) = c :: rest.
Proof.
  intros [rest E]. unfold bind, callsOf in *.
  destruct (m s) as [[[x |] s1] tr1]; cbn [snd] in *; subst tr1.
  - destruct (k x s1) as [[r2 s2] tr2]. cbn. eexists. reflexivity.
  - eexists. reflexivity.
Qed.

(** A cycle that gets as far as the transcript starts by fetching it. *)
Lemma cycle_starts_with_fetch a video sp :
  isInitialized a = true ->
  videoElement a = Some video ->
  subtitleParser a = Some sp ->
  exists rest,
    callsOf (detached (updateQuestions JSON_parse) a)
    = CallGetTranscriptChunk (currentTime video)
        (currentTime video + transcriptBufferAhead a) :: rest.
Proof.
  intros Hi Hv Hsp. unfold detached. apply tryCatch_calls_prefix.
  unfold updateQuestions. rewrite bind_get, Hi, Hv. cbn [negb deref].
  apply tryCatch_calls_prefix. rewrite bind_ret.
  apply bind_calls_prefix.
  unfold fetchTranscript. rewrite bind_get, Hsp. cbn [deref].
  rewrite bind_ret. unfold call. eexists. reflexivity.
Qed.

(** X16.  A click on the toggle while the feature is off, on an initialised,
    running assistant with a playing video, starts a generation cycle at
    once: the calls of the click begin with the transcript fetch for the
    window from the current time on, and [lastTriggerTime] stays as it
    was. *)
Theorem toggle_on_generates_immediately (w : World) (ui : UIOverlay.t)
        (video : Video) (sp : SubtitleParser) (pressed : jsstring) :
  uiOverlay (fst w) = Some ui ->
  UIOverlay.aiEnabled ui = false ->
  OverlayControls.toggleButton (snd w) = Some pressed ->
  isInitialized (fst w) = true ->
  isRunning (fst w) = true ->
  videoElement (fst w) = Some video ->
  paused video = false ->
  subtitleParser (fst w) = Some sp ->
  let r := clickToggle JSON_parse w in
  resultOf r = Ok tt
  /\ lastTriggerTime (fst (stateOf r)) = lastTriggerTime (fst w)
  /\ exists rest,
       callsOf r
       = CallGetTranscriptChunk (currentTime video)
           (currentTime video + transcriptBufferAhead (fst w)) :: rest.
Proof.
  intros Hui Hen Hb Hi Hr Hv Hp Hsp. cbv zeta.
  destruct w as [a c]. cbn [fst snd] in *.
  set (ui1 := OverlayControls.setAiEnabled true ui).
  set (c1 := if OverlayControls.accessible (OverlayControls.localStorage c)
             then OverlayControls.setLocalStorage
                    {| OverlayControls.accessible := true;
                       OverlayControls.stored :=
                         Some (OverlayControls.boolToString true) |}
                    (OverlayControls.setToggleButton
                       (Some (OverlayControls.boolToString true)) c)
             else OverlayControls.setToggleButton
                    (Some (OverlayControls.boolToString true)) c).
  set (a1 := setUiOverlay (Some ui1) a).
  assert (clickToggle JSON_parse (a, c)
          = (let d := detached (updateQuestions JSON_parse) a1 in
             (resultOf d, (stateOf d, c1), callsOf d))) as E.
  { unfold clickToggle, OverlayControls.toggleAI, aiToggleCallback.
    unfold onPage, OverlayControls.saveToggleState, 
      OverlayControls.onThis, OverlayControls.onChrome, zoom,
      UIOverlay.isAIEnabled, OverlayControls.setItem, onAssistant.
    eff_unfold. cbn -[OverlayControls.boolToString detached].
    rewrite Hui. cbn -[OverlayControls.boolToString detached].
    rewrite Hen, Hb. cbn -[OverlayControls.boolToString detached].
    subst c1.
    destruct (OverlayControls.accessible (OverlayControls.localStorage c));
      cbn -[OverlayControls.boolToString detached];
      rewrite Hv, Hp, Hr; cbn -[OverlayControls.boolToString detached];
      match goal with |- context [detached ?m ?x] =>
        change x with a1; destruct (detached m a1) as [[rd sd] trd] end;
      rewrite ?app_nil_r; reflexivity. }
  rewrite E. cbv zeta. cbn [resultOf stateOf callsOf fst snd].
  assert (componentStable (fun b : t => lastTriggerTime b = lastTriggerTime a))
    as HJ by (split; intros b x H; exact H).
  destruct (@LifecycleFacts.detached_cycle_frame JSON_parse
              (fun b : t => lastTriggerTime b = lastTriggerTime a)
              a1 ui1 HJ eq_refl eq_refl) as (D1 & D2 & _ & _).
  split; [exact D1 |]. split; [exact D2 |].
  apply (@cycle_starts_with_fetch a1 video sp); assumption.
Qed.

End Toggle.

Lemma toggle_off_stops_generation_witness :
  let r := clickToggle Demo.noJSON enabledWorld in
  callsOf r = []
  /\ callsOf (positionUpdates Demo.noJSON [30; 60] (fst (stateOf r))) = [].
Proof.
  destruct (@toggle_off_stops_generation Demo.noJSON enabledWorld
              UIOverlay.new (js "true") [30; 60] eq_refl eq_refl eq_refl)
    as (_ & A & B & _).
  split; [exact A | exact B].
Defined.

Lemma toggle_on_generates_immediately_witness :
  exists rest,
    callsOf (clickToggle Demo.noJSON disabledWorld)
    = CallGetTranscriptChunk 0 (0 + 30) :: rest.
Proof.
  destruct (@toggle_on_generates_immediately Demo.noJSON disabledWorld
              (OverlayControls.setAiEnabled false UIOverlay.new)
              {| currentTime := 0; paused := false |} Demo.subtitleParser
              (js "true") eq_refl eq_refl eq_refl eq_refl eq_refl eq_refl
              eq_refl eq_refl) as (_ & _ & rest & E).
  exists rest. exact E.
Defined.

End ToggleCycleFacts.

(** ** Summarizer client: the cache *)

Module SummaryFacts.
Import SummarizerClient CacheSpec.

Lemma window_membership sc summary ws we time :
  isTimeInCurrentWindow
    (setCache (Some summary) {| rangeStart := ws; rangeEnd := we |} sc) time
  = true <-> ws <= time <= we.
Proof.
  unfold isTimeInCurrentWindow. cbn. rewrite andb_true_iff.
  rewrite !Qle_bool_iff. reflexivity.
Qed.

(** X17.  After [clearCache] no time is in the current window, and the next
    request with a non-blank transcript (client initialised, summarizer
    returning) invokes the summarizer, returns its summary and caches it,
    whatever the window; [isTimeInCurrentWindow] then holds exactly for
    the times of that window, bounds included. *)
Theorem cleared_cache_regenerates
        (sc : t) (summarize : jsstring -> Res jsstring)
        (text summary : jsstring) (ws we : Q) :
  initialized sc = true ->
  summarizer sc = Some summarize ->
  isBlank text = false ->
  summarize text = Ok summary ->
  let cleared := stateOf (clearCache sc) in
  let r := getSummaryForTime text ws we cleared in
  (forall time, isTimeInCurrentWindow cleared time = false)
  /\ resultOf r = Ok summary
  /\ callsOf r = [ConsoleLog (LogGeneratingNewSummary ws we);
                  CallSummarize text]
  /\ (forall time,
        isTimeInCurrentWindow (stateOf r) time = true <-> ws <= time <= we).
Proof.
  intros Hi Hs Hb Hsum. cbv zeta.
  unfold clearCache, modify. cbn [stateOf fst snd].
  rewrite (@CacheFacts.request_regenerates _ summarize text ws we summary);
    try assumption; [| left; reflexivity].
  cbn [resultOf stateOf callsOf fst snd].
  split; [reflexivity |]. split; [reflexivity |]. split; [reflexivity |].
  intros time. apply window_membership.
Qed.

Lemma cleared_cache_regenerates_witness :
  let r :=
    getSummaryForTime (js "speaker discusses gravity") (-150) 150
      (stateOf (clearCache populated)) in
  resultOf r = Ok (js "A talk about gravity.")
  /\ summarizeCalls (callsOf r) = 1%nat.
Proof.
  destruct (@cleared_cache_regenerates populated
              (fun _ => Ok (js "A talk about gravity."))
              (js "speaker discusses gravity") (js "A talk about gravity.")
              (-150) 150 eq_refl eq_refl eq_refl eq_refl)
    as (_ & A & B & _).
  split; [exact A |]. cbv zeta. rewrite B. reflexivity.
Defined.

(** X18.  An empty summary is stored but never reused: after a request for
    which the summarizer returned the empty string, the slot holds it
    with the requested window and [isTimeInCurrentWindow] reports the
    window as covered, yet the same request again invokes the summarizer
    again. *)
Theorem empty_summary_is_never_reused
        (sc : t) (summarize : jsstring -> Res jsstring)
        (text : jsstring) (ws we : Q) :
  initialized sc = true ->
  summarizer sc = Some summarize ->
  stale sc ws we ->
  isBlank text = false ->
  summarize text = Ok [] ->
  let first := getSummaryForTime text ws we sc in
  let second := getSummaryForTime text ws we (stateOf first) in
  currentSummary (stateOf first) = Some []
  /\ (forall time,
        isTimeInCurrentWindow (stateOf first) time = true <-> ws <= time <= we)
  /\ summarizeCalls (callsOf first) = 1%nat
  /\ summarizeCalls (callsOf second) = 1%nat
  /\ stateOf second = stateOf first.
Proof.
  intros Hi Hs Hst Hb Hsum. cbv zeta.
  rewrite (@CacheFacts.request_regenerates sc summarize text ws we [] Hi Hs
             Hst Hb Hsum).
  cbn [resultOf stateOf callsOf fst snd].
  rewrite (@CacheFacts.request_regenerates _ summarize text ws we []);
    try assumption; [| left; reflexivity].
  cbn [resultOf stateOf callsOf fst snd].
  split; [reflexivity |]. split; [intros time; apply window_membership |].
  split; [reflexivity |]. split; reflexivity.
Qed.

Lemma empty_summary_is_never_reused_witness :
  let first :=
    getSummaryForTime (js "speaker discusses gravity") (-150) 150
      SummarySpec.emptySummarizer in
  summarizeCalls (callsOf first) = 1%nat
  /\ summarizeCalls
       (callsOf (getSummaryForTime (js "speaker discusses gravity") (-150) 150
                   (stateOf first))) = 1%nat.
Proof.
  destruct (@empty_summary_is_never_reused SummarySpec.emptySummarizer
              (fun _ => Ok []) (js "speaker discusses gravity") (-150) 150
              eq_refl eq_refl (or_introl eq_refl) eq_refl eq_refl)
    as (_ & _ & A & B & _).
  split; [exact A | exact B].
Defined.

(** X19.  [getSummaryForTime] never throws, and it leaves the client as it is
    unless the summarizer was invoked on a non-blank transcript and
    returned: then the slot holds the returned summary, which is also the
    result, and the requested window. *)
Theorem summary_failure_is_contained (sc : t) (text : jsstring) (ws we : Q) :
  let r := getSummaryForTime text ws we sc in
  exists result,
    resultOf r = Ok result
    /\ (stateOf r = sc
        \/ exists summarize,
             summarizer sc = Some summarize
             /\ isBlank text = false
             /\ summarize text = Ok result
             /\ stateOf r
                = setCache (Some result)
                    {| rangeStart := ws; rangeEnd := we |} sc).
Proof.
  cbv zeta. unfold getSummaryForTime. rewrite bind_get.
  destruct (initialized sc) eqn:Hi.
  2: { exists []. split; [reflexivity | left; reflexivity]. }
  destruct (summarizer sc) as [summarize |] eqn:Hs.
  2: { exists []. split; [reflexivity | left; reflexivity]. }
  destruct (summaryTruthy (currentSummary sc) && _) eqn:Hreuse.
  - rewrite bind_emit. cbn. eexists. split; [reflexivity | left; reflexivity].
  - rewrite bind_emit. unfold tryCatch, bind, call, modify, ret.
    destruct (isBlank text) eqn:Hb.
    + cbn. exists []. split; [reflexivity | left; reflexivity].
    + destruct (summarize text) as [summary |] eqn:Hsum; cbn.
      * exists summary. split; [reflexivity |]. right.
        exists summarize. repeat split; assumption.
      * exists []. split; [reflexivity | left; reflexivity].
Qed.

End SummaryFacts.

(** ** Prompt client: parsing *)

Module QuestionFacts.
Import PromptClient FallbackSpec.

Lemma cleanAll_strings strs :
  cleanAll (map JString strs) = Ok (map cleanQuestionString strs).
Proof.
  induction strs as [| q rest IH]; [reflexivity |].
  cbn [map cleanAll]. rewrite IH. reflexivity.
Qed.

Lemma cleanAll_ok items qs :
  cleanAll items = Ok qs ->
  exists strs, items = map JString strs /\ qs = map cleanQuestionString strs.
Proof.
  revert qs. induction items as [| item rest IH]; intros qs H.
  - inversion H. exists []. split; reflexivity.
  - destruct item; try discriminate. cbn [cleanAll] in H.
    destruct (cleanAll rest) as [qs' |]; [| discriminate].
    inversion H; subst. destruct (IH qs' eq_refl) as (strs & E1 & E2).
    exists (s :: strs). split; cbn [map]; congruence.
Qed.

Section Parse.
Variable JSON_parse : jsstring -> option JSON.

(** X20.  When the response parses to an object whose [questions] property is
    an array of strings, [parseQuestions] returns one cleaned string per
    element, in order: no cap at three, and empty items are kept. *)
Theorem structured_questions_are_not_capped
        (response : jsstring) (parsed : JSON) (strs : list jsstring) :
  JSON_parse response = Some parsed ->
  questionsProperty parsed = Ok (Some (JArray (map JString strs))) ->
  parseQuestions JSON_parse response = map cleanQuestionString strs
  /\ length (parseQuestions JSON_parse response) = length strs.
Proof.
  intros Hp Hq.
  assert (parseQuestions JSON_parse response = map cleanQuestionString strs)
    as E.
  { unfold parseQuestions. rewrite Hp, Hq, cleanAll_strings. reflexivity. }
  rewrite E. split; [reflexivity | apply length_map].
Qed.

(** X21.  For every response, [parseQuestions] returns the fallback, unless
    the response parses to a value whose [questions] property is an array
    of strings, whose cleaned elements are then the result.  Every other
    JSON value ends in the fallback on the raw text. *)
Theorem parse_is_structured_or_fallback (response : jsstring) :
  parseQuestions JSON_parse response = fallback response
  \/ exists parsed strs,
       JSON_parse response = Some parsed
       /\ questionsProperty parsed = Ok (Some (JArray (map JString strs)))
       /\ parseQuestions JSON_parse response = map cleanQuestionString strs.
Proof.
  assert (firstn 3
            (filter (fun q => (0 <? length q)%nat)
               (map (fun line =>
                       cleanQuestionString
                         (trim (replace reNumberingPrefix [] line)))
                  (filter (fun line =>
                             includes chQuestion line || test reNumbered line)
                     (filter (fun line => (0 <? length (trim line))%nat)
                        (split chNewline response)))))
          = fallback response) as F.
  { unfold fallback. rewrite ParseFacts.pipeline_scan. reflexivity. }
  unfold parseQuestions.
  destruct (JSON_parse response) as [parsed |] eqn:Hp; [| left; exact F].
  destruct (questionsProperty parsed) as [[[] |] |] eqn:Hq;
    try (left; exact F).
  destruct (cleanAll items) as [qs |] eqn:Hc; [| left; exact F].
  right. destruct (cleanAll_ok _ Hc) as (strs & E1 & E2). subst.
  exists parsed, strs. repeat split; assumption.
Qed.

End Parse.

Lemma structured_questions_are_not_capped_witness :
  parseQuestions QuestionSpec.structuredParse (js "{...}")
  = [js "What is gravity?"; js "Why do planets orbit?"; [];
     js "Who found it?"; js "When?"].
Proof.
  exact (proj1 (@structured_questions_are_not_capped
                  QuestionSpec.structuredParse (js "{...}")
                  (JObject [(js "questions",
                             JArray (map JString QuestionSpec.fiveStrings))])
                  QuestionSpec.fiveStrings eq_refl eq_refl)).
Defined.

Lemma length_dropWhile p s : (length (dropWhile p s) <= length s)%nat.
Proof.
  induction s as [| c s IH]; cbn; [lia |]. destruct (p c); cbn; lia.
Qed.

Lemma length_trim s : (length (trim s) <= length s)%nat.
Proof.
  unfold trim, trimEnd.
  rewrite length_rev, !RegexFacts.trimStart_dropWhile.
  etransitivity; [apply length_dropWhile |]. rewrite length_rev.
  apply length_dropWhile.
Qed.

Lemma length_stripLeadingQuote s :
  (length (stripLeadingQuote s) <= length s)%nat.
Proof.
  destruct s as [| c rest]; cbn; [lia |]. destruct (isQuoteChar c); cbn; lia.
Qed.

Lemma length_stripTrailingQuote s :
  (length (stripTrailingQuote s) <= length s)%nat.
Proof.
  unfold stripTrailingQuote.
  destruct (rev s) as [| c before] eqn:E; [lia |].
  assert (length s = S (length before)) as L.
  { rewrite <- (length_rev s), E. reflexivity. }
  destruct (isQuoteChar c); [rewrite length_rev; lia |].
  destruct (c =? chComma)%N; [| lia].
  destruct before as [| q before']; [lia |].
  destruct (isQuoteChar q); [rewrite length_rev; cbn in L; lia | lia].
Qed.

Lemma length_unescape q s : (length (unescape q s) <= length s)%nat.
Proof.
  remember (length s) as n eqn:Hn. revert s Hn.
  induction n as [n IH] using lt_wf_ind. intros s Hn.
  destruct s as [| c [| d rest]]; cbn [unescape];
    [cbn in *; lia | cbn in *; lia |].
  destruct ((c =? chBackslash) && (d =? q))%N.
  - cbn [length] in Hn.
    specialize (IH (length rest) ltac:(lia) rest eq_refl).
    change (S (length (unescape q rest)) <= n)%nat. lia.
  - cbn [length] in Hn.
    specialize (IH (S (length rest)) ltac:(lia) (d :: rest) eq_refl).
    change (S (length (unescape q (d :: rest))) <= n)%nat. lia.
Qed.

(** X22.  The result of [cleanQuestionString] has no leading or trailing white
    space, and is never longer than the input. *)
Theorem cleaned_question_is_trimmed_and_no_longer (question : jsstring) :
  trim (cleanQuestionString question) = cleanQuestionString question
  /\ (length (cleanQuestionString question) <= length question)%nat.
Proof.
  split.
  - unfold cleanQuestionString. apply ParseFacts.trim_idem.
  - rewrite ParseFacts.cleanQuestionString_spec. unfold cleanQuotes.
    etransitivity; [apply length_trim |].
    etransitivity; [apply length_unescape |].
    etransitivity; [apply length_unescape |].
    etransitivity; [apply length_stripTrailingQuote |].
    etransitivity; [apply length_stripLeadingQuote |].
    apply length_trim.
Qed.

End QuestionFacts.

(** ** Prompt client: generation *)

Module GenerationFacts.
Import PromptClient StreamSpec.

Section Generation.
Variable JSON_parse : jsstring -> option JSON.


End Generation.

Lemma last_default {A} (x : A) l d d' : last (x :: l) d = last (x :: l) d'.
Proof.
  revert x. induction l as [| y l IH]; intros x; [reflexivity |].
  change (last (y :: l) d = last (y :: l) d'). apply IH.
Qed.

Lemma consume_record chunks fullAnswer seen :
  consume chunks (Some record) fullAnswer seen
  = (Ok (last chunks fullAnswer), seen ++ chunks, []).
Proof.
  revert fullAnswer seen. induction chunks as [| chunk rest IH];
    intros fullAnswer seen.
  - cbn. rewrite app_nil_r. reflexivity.
  - cbn [consume]. unfold record at 1. rewrite bind_modify, IH.
    rewrite <- app_assoc. cbn [app].
    destruct rest as [| next rest]; [reflexivity |].
    change (last (chunk :: next :: rest) fullAnswer)
      with (last (next :: rest) fullAnswer).
    rewrite (last_default next rest chunk fullAnswer). reflexivity.
Qed.

(** X24.  [generateAnswer] without a video frame, on an initialised client,
    makes one [promptStreaming] call and hands every chunk to [onChunk],
    in order and once each.  It returns the last chunk when the stream
    ends normally, and the apology text when the stream breaks off, the
    chunks seen so far having been delivered. *)
Theorem answer_chunks_are_delivered_in_order
        (pc : t) (sess : Session) (question summary : jsstring)
        (chunks : list jsstring) (completes : bool) (seen : list jsstring) :
  initialized pc = true ->
  session pc = Some sess ->
  promptStreaming sess question summary false = Stream chunks completes ->
  generateAnswer pc question summary (@None unit) (Some record) seen
  = (Ok (if completes then last chunks [] else sorryAnswer),
     seen ++ chunks,
     [CallSessionPromptStreaming question summary false]).
Proof.
  intros Hi Hs Hp. unfold generateAnswer. rewrite Hi, Hs.
  unfold tryCatch. rewrite bind_ret. unfold streamAnswer.
  unfold bind at 1. unfold call at 1. rewrite Hp. cbn [fst snd].
  unfold bind at 1. rewrite consume_record.
  destruct completes; reflexivity.
Qed.

Lemma answer_chunks_are_delivered_in_order_witness :
  generateAnswer Demo.promptClient (js "Why?") [] (@None unit)
    (Some record) []
  = (Ok (js "Hi there!"), [js "Hi"; js "Hi there"; js "Hi there!"],
     [CallSessionPromptStreaming (js "Why?") [] false]).
Proof.
  exact (@answer_chunks_are_delivered_in_order Demo.promptClient Demo.session
           (js "Why?") [] [js "Hi"; js "Hi there"; js "Hi there!"] true []
           eq_refl eq_refl eq_refl).
Defined.

End GenerationFacts.

(** ** Assistant: outcomes of a generation cycle *)

Module CycleOutcomeFacts.
Import YouTubeAIAssistant AssistantSpec CycleSpec.

Section Cycle.
Variable JSON_parse : jsstring -> option PromptClient.JSON.

Lemma fetchTranscript_result a sp s e :
  subtitleParser a = Some sp ->
  fetchTranscript s e a
  = (getTranscriptChunk sp s e, a, [CallGetTranscriptChunk s e]).
Proof.
  intros Hsp. unfold fetchTranscript. rewrite bind_get, Hsp. cbn [deref].
  rewrite bind_ret. reflexivity.
Qed.

(** The cycle up to the point where the generator has answered. *)
Lemma cycle_with_response a video sp pc sess transcript response :
  isInitialized a = true ->
  videoElement a = Some video ->
  subtitleParser a = Some sp ->
  getTranscriptChunk sp (currentTime video)
    (currentTime video + transcriptBufferAhead a) = Ok transcript ->
  isBlank transcript = false ->
  summaryOff a ->
  promptClient a = Some pc ->
  PromptClient.initialized pc = true ->
  PromptClient.session pc = Some sess ->
  PromptClient.prompt sess transcript [] false = response ->
  let questions :=
    match response with
    | Ok text => PromptClient.parseQuestions JSON_parse text
    | Throw => []
    end in
  let shown :=
    tryCatch
      (onUI (UIOverlay.updateQuestions
               (Some (map (annotate a video) questions)) (currentTime video)))
      (onUI (UIOverlay.showError (js "Failed to generate questions"))) a in
  updateQuestions JSON_parse a
  = (resultOf shown, stateOf shown,
     [CallGetTranscriptChunk (currentTime video)
        (currentTime video + transcriptBufferAhead a);
      CallSessionPrompt transcript [] false] ++ callsOf shown).
Proof.
  intros Hi Hv Hsp Hf Hb Hoff Hpc Hpi Hps Hr. cbv zeta.
  unfold updateQuestions. rewrite bind_get, Hi, Hv. cbn [negb deref].
  unfold tryCatch. rewrite bind_ret.
  pose proof (@fetchTranscript_result a sp (currentTime video)
                (currentTime video + transcriptBufferAhead a) Hsp) as F.
  rewrite Hf in F.
  match goal with |- context [bind ?m ?k a] =>
    rewrite (@bind_ok _ _ _ m k a _ _ _ F) end.
  rewrite Hb.
  assert ((match summarizerClient a with
           | Some sc =>
               if SummarizerClient.initialized sc
               then summaryFor (currentTime video - summaryBuffer a)
                      (currentTime video + summaryBuffer a)
               else ret []
           | None => ret []
           end) = ret []) as Es.
  { unfold summaryOff in Hoff. destruct (summarizerClient a) as [sc |];
      [rewrite Hoff |]; reflexivity. }
  rewrite Es, bind_ret, Hpc. cbn [deref]. rewrite bind_ret.
  assert (PromptClient.generateQuestions JSON_parse pc transcript []
            (@None unit) a
          = (Ok match response with
                | Ok text => PromptClient.parseQuestions JSON_parse text
                | Throw => []
                end, a, [CallSessionPrompt transcript [] false])) as G.
  { unfold PromptClient.generateQuestions. rewrite Hpi, Hps.
    unfold tryCatch. rewrite bind_ret. unfold bind, call. rewrite Hr.
    destruct response; reflexivity. }
  match goal with |- context [bind ?m ?k a] =>
    rewrite (@bind_ok _ _ _ m k a _ _ _ G) end.
  unfold resultOf, stateOf, callsOf. cbn [fst snd].
  unfold annotate.
  match goal with |- context [onUI ?m a] =>
    destruct (onUI m a) as [[[[] |] s1] tr1] end; cbn [fst snd app].
  - reflexivity.
  - match goal with |- context [onUI ?m s1] =>
      destruct (onUI m s1) as [[r2 s2] tr2] end.
    cbn [fst snd app]. reflexivity.
Qed.


(** X25.  A generation cycle that succeeds (assistant initialised, transcript
    not blank, no summarizer in use, prompt returning, user not hovering,
    overlay consistent) makes the transcript fetch and one prompt call
    with an empty summary, and records the parsed questions as one group
    stamped with the current time, each question with the window from
    the current time to the current time plus the look-ahead; an empty
    parse records nothing; the overlay stays consistent. *)
Theorem cycle_delivers_annotated_questions
        (a : t) (video : Video) (sp : SubtitleParser) (pc : PromptClient.t)
        (sess : PromptClient.Session) (ui : UIOverlay.t)
        (transcript response : jsstring) :
  isInitialized a = true ->
  videoElement a = Some video ->
  subtitleParser a = Some sp ->
  getTranscriptChunk sp (currentTime video)
    (currentTime video + transcriptBufferAhead a) = Ok transcript ->
  isBlank transcript = false ->
  summaryOff a ->
  promptClient a = Some pc ->
  PromptClient.initialized pc = true ->
  PromptClient.session pc = Some sess ->
  PromptClient.prompt sess transcript [] false = Ok response ->
  uiOverlay a = Some ui ->
  UIOverlay.isHovering ui = false ->
  OverlayRunSpec.consistent ui ->
  let r := updateQuestions JSON_parse a in
  let questions :=
    map (annotate a video) (PromptClient.parseQuestions JSON_parse response) in
  resultOf r = Ok tt
  /\ callsOf r
     = [CallGetTranscriptChunk (currentTime video)
          (currentTime video + transcriptBufferAhead a);
        CallSessionPrompt transcript [] false]
  /\ exists u,
       uiOverlay (stateOf r) = Some u
       /\ UIOverlay.questionHistory u
          = UIOverlay.questionHistory ui
            ++ OverlaySpec.recorded (Some questions) (currentTime video)
       /\ OverlayRunSpec.consistent u.
Proof.
  intros Hi Hv Hsp Hf Hb Hoff Hpc Hpi Hps Hr Hui Hh Hc. cbv zeta.
  rewrite (@cycle_with_response a video sp pc sess transcript (Ok response)
             Hi Hv Hsp Hf Hb Hoff Hpc Hpi Hps Hr).
  set (qs := Some (map (annotate a video)
                     (PromptClient.parseQuestions JSON_parse response))).
  destruct (@OverlayRunFacts.updateQuestions_consistent qs (currentTime video)
              ui Hc) as (R & C & K & _).
  destruct (@OverlayFacts.updateQuestions_idle ui qs (currentTime video) Hh)
    as (_ & _ & H).
  unfold tryCatch, onUI. rewrite Hui.
  unfold resultOf, stateOf, callsOf in *.
  destruct (UIOverlay.updateQuestions qs (currentTime video) ui)
    as [[res u] tr]. cbn [fst snd] in *. subst res tr.
  split; [reflexivity |]. split; [reflexivity |].
  exists u. split; [reflexivity |]. split; [exact H | exact K].
Qed.


(** X27.  When the transcript fetch throws during a cycle, the cycle returns
    normally, the fetch is its only call, and the list, when present,
    shows the failure message; nothing else changes. *)
Theorem failed_fetch_shows_error
        (a : t) (video : Video) (sp : SubtitleParser) (ui : UIOverlay.t)
        (view : UIOverlay.ListView) :
  isInitialized a = true ->
  videoElement a = Some video ->
  subtitleParser a = Some sp ->
  getTranscriptChunk sp (currentTime video)
    (currentTime video + transcriptBufferAhead a) = Throw ->
  uiOverlay a = Some ui ->
  UIOverlay.questionsList ui = Some view ->
  updateQuestions JSON_parse a
  = (Ok tt,
     setUiOverlay
       (Some (UIOverlay.setQuestionsList
                (Some (UIOverlay.ErrorMessage
                         (js "Failed to generate questions"))) ui)) a,
     [CallGetTranscriptChunk (currentTime video)
        (currentTime video + transcriptBufferAhead a)]).
Proof.
  intros Hi Hv Hsp Hf Hui Hl.
  unfold updateQuestions. rewrite bind_get, Hi, Hv. cbn [negb deref].
  unfold tryCatch. rewrite bind_ret.
  pose proof (@fetchTranscript_result a sp (currentTime video)
                (currentTime video + transcriptBufferAhead a) Hsp) as F.
  rewrite Hf in F. unfold bind at 1. rewrite F.
  unfold onUI. rewrite Hui. unfold UIOverlay.showError.
  rewrite bind_get, Hl. reflexivity.
Qed.

End Cycle.

Lemma cycle_delivers_annotated_questions_witness :
  exists u,
    uiOverlay (stateOf (updateQuestions Demo.noJSON plainAssistant)) = Some u
    /\ map (fun g => map UIOverlay.text (UIOverlay.questions g))
         (UIOverlay.questionHistory u)
       = [[js "What is gravity?"; js "Why do planets orbit?"]].
Proof.
  destruct (@cycle_delivers_annotated_questions Demo.noJSON plainAssistant
              {| currentTime := 0; paused := false |} Demo.subtitleParser
              Demo.promptClient Demo.session UIOverlay.new
              (js "speaker discusses gravity") Demo.listedQuestions
              eq_refl eq_refl eq_refl eq_refl eq_refl Logic.I eq_refl eq_refl
              eq_refl eq_refl eq_refl eq_refl OverlayRunFacts.consistent_new)
    as (_ & _ & u & Hu & Hh & _).
  exists u. split; [exact Hu |]. rewrite Hh. reflexivity.
Defined.


Lemma failed_fetch_shows_error_witness :
  exists u,
    uiOverlay (stateOf (updateQuestions Demo.noJSON deafAssistant)) = Some u
    /\ UIOverlay.questionsList u
       = Some (UIOverlay.ErrorMessage (js "Failed to generate questions")).
Proof.
  rewrite (@failed_fetch_shows_error Demo.noJSON deafAssistant
             {| currentTime := 0; paused := false |}
             {| getTranscriptChunk := fun _ _ => Throw |}
             UIOverlay.new UIOverlay.ListEmpty
             eq_refl eq_refl eq_refl eq_refl eq_refl eq_refl).
  eexists. split; reflexivity.
Defined.

End CycleOutcomeFacts.

(** ** Translator client *)

Module TranslatorFacts.
Import TranslatorClient.

Lemma sameKey_refl k : sameKey k k = true.
Proof. unfold sameKey. destruct (list_eq_dec N.eq_dec k k); congruence. Qed.

Lemma mapGet_mapSet key v m : mapGet key (mapSet key v m) = Some v.
Proof.
  induction m as [| [k old] rest IH]; cbn.
  - rewrite sameKey_refl. reflexivity.
  - destruct (sameKey k key) eqn:E; cbn; rewrite E; [reflexivity | exact IH].
Qed.

Lemma checkLanguagePairSupport_frame api s t c :
  exists status, checkLanguagePairSupport api s t c = (Ok status, c, []).
Proof.
  unfold checkLanguagePairSupport. rewrite bind_get.
  destruct (initialized c); cbn [negb]; [| eexists; reflexivity].
  unfold tryCatch. destruct (availability api s t); eexists; reflexivity.
Qed.

(** What [createTranslator] can do. *)
Lemma createTranslator_cases api s t c :
  let r := createTranslator api s t c in
  (exists cached,
     initialized c = true /\ mapGet (cacheKey s t) (translators c) = Some cached
     /\ r = (Ok (Some cached), c, []))
  \/ (exists created,
        initialized c = true /\ mapGet (cacheKey s t) (translators c) = None
        /\ create api s t = Ok created
        /\ r = (Ok (Some created),
                setTranslators (mapSet (cacheKey s t) created (translators c)) c,
                []))
  \/ (mapGet (cacheKey s t) (translators c) = None \/ initialized c = false)
     /\ r = (Ok None, c, []).
Proof.
  cbv zeta. unfold createTranslator. rewrite bind_get.
  destruct (initialized c) eqn:Hi; cbn [negb].
  2: { right. right. split; [right |]; reflexivity. }
  unfold tryCatch.
  destruct (mapGet (cacheKey s t) (translators c)) as [cached |] eqn:Hg.
  - left. exists cached. repeat split.
  - right. destruct (checkLanguagePairSupport_frame api s t c) as [status E].
    match goal with |- context [bind ?m ?k c] =>
      rewrite (@bind_ok _ _ _ m k c _ _ _ E) end.
    destruct (sameKey status (js "no")).
    + right. split; [left |]; reflexivity.
    + destruct (create api s t) as [created |] eqn:Hc.
      * left. exists created. rewrite bind_ret, bind_get.
        unfold modify, ret, bind. cbn. repeat split.
      * right. split; [left; reflexivity |]. rewrite bind_throw. reflexivity.
Qed.

(** X28.  Translators are cached under source, hyphen, target: once
    [createTranslator] returned a translator for a pair, a later
    [createTranslator] for a pair with the same joined key returns that
    translator whatever the interface would now answer, and leaves the
    cache as it is.  Two different pairs can join to the same key. *)
Theorem translator_is_cached_by_joined_key
        (api other : TranslatorAPI) (c : t)
        (source target source' target' : jsstring) (translator : Translator) :
  resultOf (createTranslator api source target c) = Ok (Some translator) ->
  cacheKey source' target' = cacheKey source target ->
  let kept := stateOf (createTranslator api source target c) in
  createTranslator other source' target' kept = (Ok (Some translator), kept, []).
Proof.
  intros Hr Hk. cbv zeta.
  assert (initialized (stateOf (createTranslator api source target c)) = true
          /\ mapGet (cacheKey source target)
               (translators (stateOf (createTranslator api source target c)))
             = Some translator) as [Hi Hg].
  { destruct (createTranslator_cases api source target c)
      as [(cached & Hi & Hg & E) | [(created & Hi & Hg & Hc & E) | (_ & E)]];
      rewrite E in *; cbn in Hr |- *.
    - inversion Hr; subst. split; assumption.
    - inversion Hr; subst. split; [assumption | apply mapGet_mapSet].
    - discriminate. }
  destruct (createTranslator_cases other source' target'
              (stateOf (createTranslator api source target c)))
    as [(cached & _ & Hg' & E) | [(created & _ & Hg' & _) | ([Hg' | Hi'] & _)]];
    try rewrite Hk in *; try congruence.
Qed.

Lemma translator_is_cached_by_joined_key_witness :
  let kept :=
    stateOf (createTranslator TranslatorSpec.servingAPI (js "zh-Hant") (js "en")
               TranslatorSpec.ready) in
  createTranslator TranslatorSpec.failingAPI (js "zh") (js "Hant-en") kept
  = (Ok (Some TranslatorSpec.echo), kept, []).
Proof.
  exact (@translator_is_cached_by_joined_key TranslatorSpec.servingAPI
           TranslatorSpec.failingAPI TranslatorSpec.ready
           (js "zh-Hant") (js "en") (js "zh") (js "Hant-en")
           TranslatorSpec.echo eq_refl eq_refl).
Defined.

(** X29.  [needsTranslation] is false exactly for the codes that start with
    the two letters of the first entry of [englishCodes]: the regional
    entries add nothing, and every code with that prefix counts as
    English. *)
Theorem needsTranslation_is_a_prefix_test (languageCode : jsstring) :
  needsTranslation languageCode = negb (startsWith languageCode (js "en")).
Proof.
  unfold needsTranslation, englishCodes. cbn [existsb].
  assert (forall code, startsWith code (js "en") = false ->
                       forall suffix, startsWith code (js "en" ++ suffix) = false)
    as Longer.
  { intros code H suffix. destruct code as [| c1 [| c2 rest]]; cbn in *;
      try reflexivity.
    - destruct (c1 =? 101)%N; reflexivity.
    - destruct (c1 =? 101)%N eqn:E1; [| reflexivity].
      destruct (c2 =? 110)%N eqn:E2; [discriminate | reflexivity]. }
  destruct (startsWith languageCode (js "en")) eqn:E; [reflexivity |].
  change (js "en-US") with (js "en" ++ js "-US").
  change (js "en-GB") with (js "en" ++ js "-GB").
  change (js "en-CA") with (js "en" ++ js "-CA").
  change (js "en-AU") with (js "en" ++ js "-AU").
  change (js "en-NZ") with (js "en" ++ js "-NZ").
  rewrite (Longer _ E (js "-US")), (Longer _ E (js "-GB")),
    (Longer _ E (js "-CA")), (Longer _ E (js "-AU")), (Longer _ E (js "-NZ")).
  reflexivity.
Qed.

End TranslatorFacts.

(** ** Markdown parser *)

Module MarkdownFacts.
Import MarkdownParser MarkdownSpec.

Lemma join_split s : join chNewline (split chNewline s) = s.
Proof.
  induction s as [| c s IH]; [reflexivity |].
  cbn [split]. destruct (c =? chNewline)%N eqn:E.
  - apply N.eqb_eq in E. subst c. cbn [join].
    destruct (split chNewline s) as [| l ls] eqn:Es.
    + cbn in IH. subst s. cbn in Es. discriminate.
    + cbn [app]. rewrite IH. reflexivity.
  - destruct (split chNewline s) as [| l ls] eqn:Es.
    + cbn in IH. subst s. cbn in Es. discriminate.
    + cbn [join] in *. destruct ls; cbn [app]; rewrite <- IH; reflexivity.
Qed.

Lemma split_chars sep s line c :
  In line (split sep s) -> In c line -> In c s.
Proof.
  revert line. induction s as [| d s IH]; intros line Hl Hc.
  - cbn in Hl. destruct Hl as [<- | []]. exact Hc.
  - cbn [split] in Hl. destruct (d =? sep)%N.
    + destruct Hl as [<- | Hl]; [destruct Hc |]. right. eapply IH; eauto.
    + destruct (split sep s) as [| l ls] eqn:Es.
      * destruct Hl as [<- | []]. destruct Hc as [<- | []]. left. reflexivity.
      * destruct Hl as [<- | Hl].
        -- destruct Hc as [<- | Hc]; [left; reflexivity |].
           right. apply (IH l); [left; reflexivity | exact Hc].
        -- right. apply (IH line); [right; exact Hl | exact Hc].
Qed.

Lemma trimStart_chars s c : In c (trimStart s) -> In c s.
Proof.
  induction s as [| d s IH]; cbn; [auto |].
  destruct (isWhiteSpace d); [intros H; right; auto | auto].
Qed.

Lemma trim_chars s c : In c (trim s) -> In c s.
Proof.
  unfold trim, trimEnd. intros H. apply in_rev in H.
  apply trimStart_chars in H. apply in_rev in H.
  apply trimStart_chars in H. exact H.
Qed.

Lemma plain_In s : plain s <-> forall c, In c s -> plainChar c = true.
Proof. unfold plain. apply forallb_forall. Qed.

Lemma listMatch_plain line :
  (forall c, In c line -> plainChar c = true) -> listMatch (trim line) = None.
Proof.
  intros H. unfold listMatch.
  destruct (trim line) as [| marker [| space rest]] eqn:E; try reflexivity.
  assert (plainChar marker = true) as Hm.
  { apply H. apply trim_chars. rewrite E. left. reflexivity. }
  unfold plainChar in Hm. cbn [accepts existsb].
  destruct (marker =? chAsterisk)%N; [discriminate |].
  destruct (marker =? chHyphen)%N; [discriminate |]. reflexivity.
Qed.

Lemma listLines_plain lines :
  (forall line, In line lines -> forall c, In c line -> plainChar c = true) ->
  listLines lines false = lines.
Proof.
  induction lines as [| line rest IH]; intros H; [reflexivity |].
  cbn [listLines]. rewrite listMatch_plain by (apply H; left; reflexivity).
  cbn [app]. rewrite IH; [reflexivity |].
  intros l Hl. apply H. right. exact Hl.
Qed.

Lemma parseLists_plain text : plain text -> parseLists text = text.
Proof.
  intros H. unfold parseLists. rewrite listLines_plain; [apply join_split |].
  intros line Hl c Hc. apply (proj1 (plain_In text) H).
  eapply split_chars; eauto.
Qed.

(** Where no character of the text is the first character of the opening
    delimiter, the replacement finds nothing. *)
Lemma replaceDelimited_absent fuel p opening closing stop lookbehind
      tagOpen tagClose previous s :
  (forall c, In c s -> (c =? p)%N = false) ->
  replaceDelimited fuel (p :: opening) closing stop lookbehind
    tagOpen tagClose previous s = s.
Proof.
  revert previous s. induction fuel as [| fuel IH]; intros previous s H;
    [reflexivity |].
  destruct s as [| c s']; [reflexivity |]. cbn [replaceDelimited].
  assert (delimited (p :: opening) closing stop (c :: s') = None) as D.
  { unfold delimited. cbn [stripPrefix].
    rewrite (H c (or_introl eq_refl)). reflexivity. }
  rewrite D.
  assert ((if (if lookbehind
               then match previous with
                    | Some p0 => negb (p0 =? chNewline)%N
                    | None => false
                    end
               else true)
           then @None (jsstring * jsstring) else None) = None) as A
    by (destruct (if lookbehind then _ else _); reflexivity).
  rewrite A. rewrite IH; [reflexivity |].
  intros d Hd. apply H. right. exact Hd.
Qed.

Lemma plain_not_asterisk text c :
  plain text -> In c text -> (c =? chAsterisk)%N = false.
Proof.
  intros H Hc. apply (proj1 (plain_In text) H) in Hc. unfold plainChar in Hc.
  destruct (c =? chAsterisk)%N; [discriminate | reflexivity].
Qed.

Lemma plain_not_underscore text c :
  plain text -> In c text -> (c =? chUnderscore)%N = false.
Proof.
  intros H Hc. apply (proj1 (plain_In text) H) in Hc. unfold plainChar in Hc.
  destruct (c =? chAsterisk)%N; [discriminate |].
  destruct (c =? chHyphen)%N; [discriminate |].
  destruct (c =? chUnderscore)%N; [discriminate | reflexivity].
Qed.

Lemma replaceAllDelimited_plain p opening closing stop lookbehind
      tagOpen tagClose text :
  (forall c, In c text -> (c =? p)%N = false) ->
  replaceAllDelimited (p :: opening) closing stop lookbehind
    tagOpen tagClose text = text.
Proof. intros H. apply replaceDelimited_absent. exact H. Qed.

(** X30.  [parse] returns a text without asterisk, hyphen and underscore
    unchanged: no tag is inserted, and splitting into lines and joining
    them again loses nothing. *)
Theorem plain_text_is_unchanged (markdown : jsstring) :
  plain markdown -> parse markdown = markdown.
Proof.
  intros H. unfold parse. destruct markdown as [| c rest]; [reflexivity |].
  cbn [truthy negb]. set (text := c :: rest) in *.
  assert (forall d, In d text -> (d =? chAsterisk)%N = false) as NoStar
    by (intros d Hd; eapply plain_not_asterisk; eauto).
  assert (forall d, In d text -> (d =? chUnderscore)%N = false) as NoUnder
    by (intros d Hd; eapply plain_not_underscore; eauto).
  assert (parseBold text = text) as B.
  { unfold parseBold.
    change (js "**") with (chAsterisk :: js "*").
    change (js "__") with (chUnderscore :: js "_").
    rewrite (@replaceAllDelimited_plain _ _ _ _ _ _ _ text NoStar).
    apply replaceAllDelimited_plain. exact NoUnder. }
  rewrite B, (parseLists_plain H).
  unfold parseItalic.
  change (js "*") with (chAsterisk :: []).
  change (js "_") with (chUnderscore :: []).
  rewrite (@replaceAllDelimited_plain _ _ _ _ _ _ _ text NoStar).
  apply replaceAllDelimited_plain. exact NoUnder.
Qed.

Lemma plain_text_is_unchanged_witness :
  parse (js "Gravity pulls. Why?") = js "Gravity pulls. Why?".
Proof.
  exact (@plain_text_is_unchanged (js "Gravity pulls. Why?") eq_refl).
Defined.

End MarkdownFacts.
